(** * TailorTalk backend: availability engine, fallback extraction and dispatch

    A shallow embedding of the deterministic core of the calendar booking
    agent ([app/services/calendar_service.py], [app/agent/tools.py],
    [app/agent/calendar_agent.py], [app/config/settings.py]) together with
    the properties the natural-language specification states about it. *)

From Stdlib Require Import ZArith List String Ascii Bool Lia Sorted Permutation.
From stdpp Require Import base gmap strings.
Import ListNotations.

Open Scope Z_scope.

(** ** Python strings

    Messages and fragments are byte strings; the character classes below
    are those of Python's [str] on ASCII text.  White space outside ASCII
    (the no-break space and the like), which [str.strip] and [\s] also
    take, is outside the model. *)
Module Py.

Definition code (c : ascii) : nat := nat_of_ascii c.
Definition between (lo hi : nat) (c : ascii) : bool :=
  (lo <=? code c)%nat && (code c <=? hi)%nat.

Definition is_digit (c : ascii) : bool := between 48 57 c.
Definition is_upper (c : ascii) : bool := between 65 90 c.
Definition is_lower (c : ascii) : bool := between 97 122 c.
(** [str.isspace]: tab, newline, vertical tab, form feed, carriage return,
    the four separators 0x1c-0x1f and the space. *)
Definition is_space (c : ascii) : bool :=
  between 9 13 c || between 28 32 c.
(** [\w] *)
Definition is_word (c : ascii) : bool :=
  is_digit c || is_upper c || is_lower c || (code c =? 95)%nat.

Definition lower_char (c : ascii) : ascii :=
  if is_upper c then ascii_of_nat (code c + 32) else c.
Definition upper_char (c : ascii) : ascii :=
  if is_lower c then ascii_of_nat (code c - 32) else c.

(** [s.lower()] *)
Fixpoint lower (s : string) : string :=
  match s with
  | EmptyString => EmptyString
  | String c s' => String (lower_char c) (lower s')
  end.

(** [s.capitalize()] *)
Definition capitalize (s : string) : string :=
  match s with
  | EmptyString => EmptyString
  | String c s' => String (upper_char c) (lower s')
  end.

Fixpoint lstrip (s : string) : string :=
  match s with
  | EmptyString => EmptyString
  | String c s' => if is_space c then lstrip s' else s
  end.

Fixpoint rstrip (s : string) : string :=
  match s with
  | EmptyString => EmptyString
  | String c s' =>
      match rstrip s' with
      | EmptyString => if is_space c then EmptyString else String c EmptyString
      | r => String c r
      end
  end.

(** [s.strip()] *)
Definition strip (s : string) : string := rstrip (lstrip s).

Fixpoint starts_with (p s : string) : bool :=
  match p, s with
  | EmptyString, _ => true
  | String a p', String b s' => Ascii.eqb a b && starts_with p' s'
  | String _ _, EmptyString => false
  end.

(** [needle in hay] *)
Fixpoint contains (needle hay : string) : bool :=
  starts_with needle hay ||
  match hay with
  | EmptyString => false
  | String _ hay' => contains needle hay'
  end.

(** [s.replace(old, new)] for a non-empty [old]: occurrences are replaced
    left to right without overlap; [skip] counts the characters of the
    occurrence being dropped. *)
Fixpoint replace_from (old new : string) (skip : nat) (s : string) : string :=
  match s with
  | EmptyString => EmptyString
  | String c s' =>
      match skip with
      | S k => replace_from old new k s'
      | O =>
          if starts_with old s
          then (new ++ replace_from old new (String.length old - 1) s')%string
          else String c (replace_from old new 0 s')
      end
  end.

Definition replace (old new s : string) : string := replace_from old new 0 s.

(** [s.split(sep)] for a one-character separator. *)
Fixpoint split (sep : ascii) (s : string) : list string :=
  match s with
  | EmptyString => [EmptyString]
  | String c s' =>
      if Ascii.eqb c sep then EmptyString :: split sep s'
      else match split sep s' with
           | h :: t => String c h :: t
           | [] => [String c EmptyString]
           end
  end.

Definition digit_value (c : ascii) : Z := Z.of_nat (code c - 48).

(** The digits of an [int] literal: decimal digits, single underscores
    allowed between two digits.  [after_digit] tells whether the previous
    character was a digit. *)
Fixpoint int_digits (acc : Z) (after_digit : bool) (s : string) : option Z :=
  match s with
  | EmptyString => if after_digit then Some acc else None
  | String c s' =>
      if is_digit c then int_digits (10 * acc + digit_value c) true s'
      else if (code c =? 95)%nat && after_digit then int_digits acc false s'
      else None
  end.

(** The white space [int] skips around a number on ASCII text: tab,
    newline, vertical tab, form feed, carriage return and the space.  The
    separators 0x1c-0x1f, which [str.strip] removes, make [int] raise. *)
Definition is_int_space (c : ascii) : bool :=
  between 9 13 c || (code c =? 32)%nat.

Fixpoint lstrip_int (s : string) : string :=
  match s with
  | EmptyString => EmptyString
  | String c s' => if is_int_space c then lstrip_int s' else s
  end.

Fixpoint rstrip_int (s : string) : string :=
  match s with
  | EmptyString => EmptyString
  | String c s' =>
      match rstrip_int s' with
      | EmptyString => if is_int_space c then EmptyString else String c EmptyString
      | r => String c r
      end
  end.

(** [int(s)]; [None] is the [ValueError]. *)
Definition int (s : string) : option Z :=
  match rstrip_int (lstrip_int s) with
  | String "-" body => option_map Z.opp (int_digits 0 false body)
  | String "+" body => int_digits 0 false body
  | body => int_digits 0 false body
  end.

Definition digit_char (d : nat) : ascii := ascii_of_nat (48 + d).

(** Decimal digits of a natural number, most significant first; [fuel]
    bounds their count. *)
Fixpoint decimal_from (fuel n : nat) (tail : string) : string :=
  match fuel with
  | O => tail
  | S fuel' =>
      let tail' := String (digit_char (n mod 10)) tail in
      if (n <? 10)%nat then tail' else decimal_from fuel' (n / 10) tail'
  end.

(** [str(n)] for [n >= 0]. *)
Definition decimal (n : nat) : string := decimal_from (S n) n EmptyString.

(** [f"{n:02d}"]: the sign counts towards the width. *)
Definition fmt_02d (n : Z) : string :=
  if n <? 0 then String "-" (decimal (Z.to_nat (- n)))
  else if n <? 10 then String "0" (decimal (Z.to_nat n))
  else decimal (Z.to_nat n).

End Py.

(** ** Regular expressions

    The fragment of Python's [re] the fallback extractor uses: literals
    compared under [re.IGNORECASE], greedy bounded repetition of a character
    class, [\b], concatenation, ordered alternation, [?] and numbered
    groups, matched by backtracking. *)
Module Re.
Import Py.

Inductive regex :=
| Eps
| Never
| Lit (s : string)
| Chars (p : ascii -> bool) (lo : nat) (hi : option nat)
| WordB
| Seq (r1 r2 : regex)
| Alt (r1 r2 : regex)
| Opt (r : regex)
| Group (i : nat) (r : regex).

Arguments Group i%_nat r.

Definition cat (rs : list regex) : regex := fold_right Seq Eps rs.
Definition alt (rs : list regex) : regex := fold_right Alt Never rs.
Definition words (ws : list string) : regex := alt (List.map Lit ws).

Definition captures := list (nat * string).

Record Match := {
  group0 : string;
  groups : captures
}.

(** [m.group(i)] for [i >= 1]; [None] when the group took no part. *)
Fixpoint group (i : nat) (cs : captures) : option string :=
  match cs with
  | [] => None
  | (j, s) :: cs' => if (i =? j)%nat then Some s else group i cs'
  end.

Fixpoint take (n : nat) (s : string) : string :=
  match n, s with
  | S n', String c s' => String c (take n' s')
  | _, _ => EmptyString
  end.

(** The text between the position where [s] starts and the later position
    where [s'] starts. *)
Definition consumed (s s' : string) : string :=
  take (String.length s - String.length s') s.

Definition word_before (prev : option ascii) : bool :=
  match prev with Some c => is_word c | None => false end.
Definition word_after (s : string) : bool :=
  match s with String c _ => is_word c | EmptyString => false end.
(** [\b] holds where exactly one side is a word character. *)
Definition at_boundary (prev : option ascii) (s : string) : bool :=
  xorb (word_before prev) (word_after s).

(** Consume the literal [l], ignoring case; yields the last character
    consumed and the rest. *)
Fixpoint literal (l : string) (prev : option ascii) (s : string)
  : option (option ascii * string) :=
  match l, s with
  | EmptyString, _ => Some (prev, s)
  | String a l', String b s' =>
      if Ascii.eqb (lower_char a) (lower_char b) then literal l' (Some b) s'
      else None
  | String _ _, EmptyString => None
  end.

Definition may_take (hi : option nat) : bool :=
  match hi with Some O => false | _ => true end.
Definition one_less (hi : option nat) : option nat :=
  match hi with Some n => Some (Nat.pred n) | None => None end.

(** Greedy repetition of a character class, between [lo] and [hi] times:
    the longest run is tried first, then shorter ones. *)
Fixpoint greedy {R} (p : ascii -> bool) (lo : nat) (hi : option nat)
    (prev : option ascii) (s : string)
    (k : option ascii -> string -> option R) : option R :=
  let stop := if (lo =? 0)%nat then k prev s else None in
  match s with
  | String c s' =>
      if p c && may_take hi then
        match greedy p (Nat.pred lo) (one_less hi) (Some c) s' k with
        | Some x => Some x
        | None => stop
        end
      else stop
  | EmptyString => stop
  end.

(** Match [r] at the position before [s] (whose previous character is
    [prev]), then continue with [k]; the first success wins. *)
Fixpoint rmatch {R} (r : regex) (prev : option ascii) (s : string) (cs : captures)
    (k : option ascii -> string -> captures -> option R) : option R :=
  match r with
  | Eps => k prev s cs
  | Never => None
  | Lit l =>
      match literal l prev s with
      | Some (prev', s') => k prev' s' cs
      | None => None
      end
  | Chars p lo hi => greedy p lo hi prev s (fun prev' s' => k prev' s' cs)
  | WordB => if at_boundary prev s then k prev s cs else None
  | Seq r1 r2 =>
      rmatch r1 prev s cs (fun prev' s' cs' => rmatch r2 prev' s' cs' k)
  | Alt r1 r2 =>
      match rmatch r1 prev s cs k with
      | Some x => Some x
      | None => rmatch r2 prev s cs k
      end
  | Opt r1 =>
      match rmatch r1 prev s cs k with
      | Some x => Some x
      | None => k prev s cs
      end
  | Group i r1 =>
      rmatch r1 prev s cs
        (fun prev' s' cs' => k prev' s' ((i, consumed s s') :: cs'))
  end.

(** The numbers of the groups of [r]. *)
Fixpoint group_ids (r : regex) : list nat :=
  match r with
  | Eps | Never | Lit _ | Chars _ _ _ | WordB => []
  | Seq r1 r2 | Alt r1 r2 => group_ids r1 ++ group_ids r2
  | Opt r1 => group_ids r1
  | Group i r1 => i :: group_ids r1
  end.

Definition match_here (r : regex) (prev : option ascii) (s : string) : option Match :=
  rmatch r prev s []
    (fun _ s' cs => Some {| group0 := consumed s s'; groups := cs |}).

(** Leftmost match starting at or after the current position. *)
Fixpoint search_from (r : regex) (prev : option ascii) (s : string) : option Match :=
  match match_here r prev s with
  | Some m => Some m
  | None =>
      match s with
      | EmptyString => None
      | String c s' => search_from r (Some c) s'
      end
  end.

(** [re.search(r, s, re.IGNORECASE)] *)
Definition search (r : regex) (s : string) : option Match := search_from r None s.

End Re.

(** ** Values decoded from JSON

    What [json.loads] produces (numbers are integers in this model), which
    is also what the entity dictionary holds. *)
Module Json.

#[local] Set Warnings "-register-all".

Inductive json :=
| JNull
| JBool (b : bool)
| JInt (z : Z)
| JStr (s : string)
| JList (l : list json)
| JDict (l : list (string * json)).

(** Python truthiness: [not v] is [negb (truthy v)]. *)
Definition truthy (v : json) : bool :=
  match v with
  | JNull => false
  | JBool b => b
  | JInt z => negb (z =? 0)
  | JStr s => negb (String.eqb s EmptyString)
  | JList l => match l with [] => false | _ => true end
  | JDict l => match l with [] => false | _ => true end
  end.

(** [d.get(key)]: [None] when the key is absent. *)
Definition get (d : gmap string json) (key : string) : json :=
  match d !! key with
  | Some v => v
  | None => JNull
  end.

(** [d.get(key, default)] *)
Definition get_default (d : gmap string json) (key : string) (default : json) : json :=
  match d !! key with
  | Some v => v
  | None => default
  end.

End Json.

(** ** Naive datetimes

    A Python naive [datetime] is an instant counted in microseconds from
    0001-01-01T00:00:00 (ordinal day 1, a Monday); a [timedelta] is a signed
    number of microseconds.  The instants are not bounded: the
    [OverflowError] of [datetime] arithmetic before year 1 or after year
    9999 is outside the model.  Where the code leaves a loop through that
    error (a slot duration that is not positive) the model reaches its
    iteration bound instead and has no result. *)
Module Clock.

Definition datetime := Z.
Definition timedelta := Z.

Definition US_PER_MINUTE : Z := 60000000.
Definition US_PER_HOUR : Z := 60 * US_PER_MINUTE.
Definition US_PER_DAY : Z := 24 * US_PER_HOUR.

(** [timedelta(minutes=m)] and [timedelta(days=d)]. *)
Definition minutes (m : Z) : timedelta := m * US_PER_MINUTE.
Definition days (d : Z) : timedelta := d * US_PER_DAY.

(** Midnight of the day [t] falls on. *)
Definition midnight (t : datetime) : datetime := (t / US_PER_DAY) * US_PER_DAY.

(** [t.replace(hour=h, minute=0, second=0, microsecond=0)]; [None] stands
    for the [ValueError] Python raises when [h] is not in [0..23]. *)
Definition replace_hour (t : datetime) (h : Z) : option datetime :=
  if (0 <=? h) && (h <=? 23) then Some (midnight t + h * US_PER_HOUR) else None.

(** [t.weekday()]: Monday is 0, Sunday is 6. *)
Definition weekday (t : datetime) : Z := (t / US_PER_DAY) mod 7.

Definition hour (t : datetime) : Z := (t mod US_PER_DAY) / US_PER_HOUR.
Definition minute (t : datetime) : Z := (t mod US_PER_HOUR) / US_PER_MINUTE.

Definition digit (d : Z) : ascii := ascii_of_nat (48 + Z.to_nat d).

(** Two decimal digits of a number in [0..99]. *)
Definition two_digits (n : Z) : string :=
  String (digit (n / 10)) (String (digit (n mod 10)) EmptyString).

(** [t.strftime('%I:%M %p')] in the C locale. *)
Definition strftime_I_M_p (t : datetime) : string :=
  let h := hour t in
  let h12 := if h mod 12 =? 0 then 12 else h mod 12 in
  (two_digits h12 ++ ":" ++ two_digits (minute t) ++ " "
     ++ (if (h <? 12)%Z then "AM" else "PM"))%string.

(** Wall-clock instant [h:m] on the day whose ordinal offset is [d]. *)
Definition at_ (d h m : Z) : datetime :=
  d * US_PER_DAY + h * US_PER_HOUR + m * US_PER_MINUTE.

End Clock.

(** ** Settings ([app/config/settings.py]) *)
Module Config.

Record Settings := {
  BUSINESS_START_HOUR : Z;
  BUSINESS_END_HOUR : Z;
  BUSINESS_DAYS : list Z;
  DEFAULT_APPOINTMENT_DURATION : Z;
  BOOKING_BUFFER_MINUTES : Z;
  MAX_SUGGESTIONS : Z;
  AVAILABILITY_SEARCH_DAYS : Z
}.

(** The values used when the environment overrides nothing. *)
Definition settings : Settings := {|
  BUSINESS_START_HOUR := 9;
  BUSINESS_END_HOUR := 17;
  BUSINESS_DAYS := [0; 1; 2; 3; 4];
  DEFAULT_APPOINTMENT_DURATION := 60;
  BOOKING_BUFFER_MINUTES := 15;
  MAX_SUGGESTIONS := 10;
  AVAILABILITY_SEARCH_DAYS := 30
|}.

End Config.

(** ** The calendar store (external collaborator) and the calls made to it *)
Module Store.
Import Clock Json.

(** What a call yields: a value, or an exception. *)
Inductive response (A : Type) : Type :=
| Ok (a : A)
| Raised.
Arguments Ok {A} a.
Arguments Raised {A}.

(** An event as listed by the store, with the keys ['start'] and ['end']
    the API always sends.  [ev_status] is [event.get('status')]; [ev_start]
    and [ev_end] are the naive instants [_parse_datetime] reads from
    [event['start']] and [event['end']] ([None] when it cannot). *)
Record Event := {
  ev_status : option string;
  ev_summary : option string;
  ev_start : option datetime;
  ev_end : option datetime
}.

(** The body handed to [events().insert]. *)
Record NewEvent := {
  ne_summary : json;
  ne_description : json;
  ne_start : datetime;
  ne_end : datetime
}.

(** What [events().insert] answers. *)
Record Created := {
  cr_id : option string;
  cr_status : option string;
  cr_htmlLink : option string
}.

Record CalendarStore := {
  events_list : datetime -> datetime -> response (list Event);
  events_insert : NewEvent -> response Created
}.

Inductive StoreCall :=
| CallList (time_min time_max : datetime)
| CallInsert (body : NewEvent).

(** Computations that talk to the store: the log of calls is threaded. *)
Definition Cal (A : Type) : Type := list StoreCall -> A * list StoreCall.

Definition ret {A} (a : A) : Cal A := fun log => (a, log).
Definition bind {A B} (m : Cal A) (k : A -> Cal B) : Cal B :=
  fun log => let (a, log') := m log in k a log'.

Definition list_events (st : CalendarStore) (tmin tmax : datetime)
  : Cal (response (list Event)) :=
  fun log => (events_list st tmin tmax, log ++ [CallList tmin tmax]).

Definition insert_event (st : CalendarStore) (body : NewEvent)
  : Cal (response Created) :=
  fun log => (events_insert st body, log ++ [CallInsert body]).

(** Run a computation from an empty log. *)
Definition run {A} (m : Cal A) : A * list StoreCall := m [].
Definition result {A} (m : Cal A) : A := fst (run m).
Definition calls {A} (m : Cal A) : list StoreCall := snd (run m).

Definition is_insert (c : StoreCall) : bool :=
  match c with CallInsert _ => true | CallList _ _ => false end.

End Store.

Declare Scope cal_scope.
Delimit Scope cal_scope with cal.
Notation "'let*' x := m 'in' k" := (Store.bind m (fun x => k))
  (at level 10, x name, m at level 100, k at level 200) : cal_scope.

(** ** [GoogleCalendarService] ([app/services/calendar_service.py]) *)
Module CalendarService.
Import Clock Config Json Store.

(** [event.get('status') != 'cancelled'] *)
Definition not_cancelled (e : Event) : bool :=
  match ev_status e with
  | Some s => negb (String.eqb s "cancelled")
  | None => true
  end.

(** The conflict loop of [check_availability]: the first event that is
    not cancelled makes the answer [False]. *)
Fixpoint no_conflict (events : list Event) : bool :=
  match events with
  | [] => true
  | event :: rest => if not_cancelled event then false else no_conflict rest
  end.

(** [check_availability(start_time, end_time)]; both [except] branches
    return [False]. *)
Definition check_availability (st : CalendarStore) (start_time end_time : datetime)
  : Cal bool :=
  (let* events_result := list_events st start_time end_time in
   match events_result with
   | Ok events => ret (no_conflict events)
   | Raised => ret false
   end)%cal.

(** [create_event]: the store's exception is logged and re-raised. *)
Definition create_event (st : CalendarStore) (title : json)
    (start_time end_time : datetime) (description : json)
  : Cal (response Created) :=
  insert_event st {| ne_summary := title; ne_description := description;
                     ne_start := start_time; ne_end := end_time |}.

(** Busy times: the events that are not cancelled and whose two instants
    parse, in the order the store lists them. *)
Fixpoint busy_times_of (events : list Event) : list (datetime * datetime) :=
  match events with
  | [] => []
  | event :: rest =>
      if not_cancelled event then
        match ev_start event, ev_end event with
        | Some event_start, Some event_end =>
            (event_start, event_end) :: busy_times_of rest
        | _, _ => busy_times_of rest
        end
      else busy_times_of rest
  end.

(** [busy_times.sort(key=lambda x: x[0])]: a stable sort on the start. *)
Fixpoint insert_by_start (x : datetime * datetime) (l : list (datetime * datetime))
  : list (datetime * datetime) :=
  match l with
  | [] => [x]
  | y :: l' => if fst x <=? fst y then x :: l else y :: insert_by_start x l'
  end.

Fixpoint sort_by_start (l : list (datetime * datetime)) : list (datetime * datetime) :=
  match l with
  | [] => []
  | x :: l' => insert_by_start x (sort_by_start l')
  end.

(** A [while cond(current_time): append(current_time); current_time += step]
    loop.  [fuel] bounds the number of iterations; [None] means the bound
    was reached with the condition still true. *)
Fixpoint emit_while (fuel : nat) (cond : datetime -> bool) (step : timedelta)
    (current_time : datetime) (available : list datetime)
  : option (datetime * list datetime) :=
  if cond current_time then
    match fuel with
    | O => None
    | S fuel' =>
        emit_while fuel' cond step (current_time + step) (available ++ [current_time])
    end
  else Some (current_time, available).

(** The first half of the [for] body: the slots that fit before a busy
    period starting at [busy_start]. *)
Definition slots_before (fuel : nat) (slot_duration buffer_duration : timedelta)
    (busy_start : datetime) (current_time : datetime) (available : list datetime)
  : option (datetime * list datetime) :=
  if slot_duration + buffer_duration <=? busy_start - current_time then
    emit_while fuel
      (fun c => c + slot_duration + buffer_duration <=? busy_start)
      slot_duration current_time available
  else Some (current_time, available).

(** The [for busy_start, busy_end in busy_times] loop. *)
Fixpoint walk_busy (fuel : nat) (slot_duration buffer_duration : timedelta)
    (busy_times : list (datetime * datetime))
    (current_time : datetime) (available : list datetime)
  : option (datetime * list datetime) :=
  match busy_times with
  | [] => Some (current_time, available)
  | (busy_start, busy_end) :: rest =>
      match
        slots_before fuel slot_duration buffer_duration busy_start
          current_time available
      with
      | None => None
      | Some (current_time', available') =>
          walk_busy fuel slot_duration buffer_duration rest
            (Z.max current_time' (busy_end + buffer_duration)) available'
      end
  end.

(** [l[:n]] *)
Definition slice_to {A} (n : Z) (l : list A) : list A :=
  if 0 <=? n then firstn (Z.to_nat n) l
  else firstn (Z.to_nat (Z.of_nat (List.length l) + n)) l.

(** Lines 186-221: from the listed events to the instants at which the
    returned slots start. *)
Definition slot_starts (cfg : Settings) (fuel : nat)
    (start_of_day end_of_day : datetime) (duration_minutes : Z)
    (events : list Event) : option (list datetime) :=
  let busy_times := sort_by_start (busy_times_of events) in
  let slot_duration := minutes duration_minutes in
  let buffer_duration := minutes (BOOKING_BUFFER_MINUTES cfg) in
  match walk_busy fuel slot_duration buffer_duration busy_times start_of_day [] with
  | None => None
  | Some (current_time, available) =>
      match
        emit_while fuel (fun c => c + slot_duration <=? end_of_day)
          slot_duration current_time available
      with
      | None => None
      | Some (_, available_slots) =>
          Some (slice_to (MAX_SUGGESTIONS cfg) available_slots)
      end
  end.

Definition is_business_day (cfg : Settings) (date : datetime) : bool :=
  existsb (Z.eqb (weekday date)) (BUSINESS_DAYS cfg).

(** [get_available_slots(date, duration_minutes)], returning the slot
    instants; every exception ends in [return []].  The outer [option] is
    the iteration bound of the two [while] loops. *)
Definition available_slot_times (cfg : Settings) (st : CalendarStore) (fuel : nat)
    (date : datetime) (duration_minutes : Z) : Cal (option (list datetime)) :=
  match replace_hour date (BUSINESS_START_HOUR cfg),
        replace_hour date (BUSINESS_END_HOUR cfg) with
  | Some start_of_day, Some end_of_day =>
      if negb (is_business_day cfg date) then ret (Some [])
      else
        (let* events_result := list_events st start_of_day end_of_day in
         match events_result with
         | Ok events =>
             ret (slot_starts cfg fuel start_of_day end_of_day duration_minutes events)
         | Raised => ret (Some [])
         end)%cal
  | _, _ => ret (Some [])
  end.

(** [get_available_slots] proper: the instants rendered by
    [strftime('%I:%M %p')]. *)
Definition get_available_slots (cfg : Settings) (st : CalendarStore) (fuel : nat)
    (date : datetime) (duration_minutes : Z) : Cal (option (list string)) :=
  (let* r := available_slot_times cfg st fuel date duration_minutes in
   ret (option_map (List.map strftime_I_M_p) r))%cal.

End CalendarService.

(** ** [CalendarTools] ([app/agent/tools.py]) *)
Module Tools.
Import Clock Config Json Store CalendarService.

(** The texts the tools and handlers answer with.  A fixed text is kept
    verbatim; a formatted one is a constructor carrying what is
    interpolated ([ToolError] stands for the text built in an [except]
    branch, [Other] for any further text). *)
Inductive Reply :=
| Fixed (text : string)
| SlotAvailable (start_time : datetime)
| SlotNotAvailable (start_time : datetime)
| BookingNotAvailable (start_time : datetime)
| Booked (title : json) (start_time : datetime) (duration_minutes : json)
         (status : option string) (htmlLink : option string)
| ToolError (what : string)
| Other (text : string).

(** [timedelta(minutes=v)]: defined on numbers ([bool] is an [int]);
    [None] is the [TypeError]. *)
Definition timedelta_minutes (v : json) : option timedelta :=
  match v with
  | JInt z => Some (minutes z)
  | JBool b => Some (minutes (if b then 1 else 0))
  | _ => None
  end.

(** [check_availability(start_time, duration_minutes=60)] *)
Definition check_availability (st : CalendarStore) (start_time : datetime)
    (duration_minutes : Z) : Cal Reply :=
  let end_time := start_time + minutes duration_minutes in
  (let* is_available := CalendarService.check_availability st start_time end_time in
   if is_available then ret (SlotAvailable start_time)
   else ret (SlotNotAvailable start_time))%cal.

(** [book_appointment(title, start_time, duration_minutes, description)] *)
Definition book_appointment (st : CalendarStore) (title : json)
    (start_time : datetime) (duration_minutes : json) (description : json)
  : Cal Reply :=
  let duration :=
    match duration_minutes with JNull => JInt 60 | v => v end in
  match timedelta_minutes duration with
  | None => ret (ToolError "book")
  | Some delta =>
      let end_time := start_time + delta in
      (let* is_available := CalendarService.check_availability st start_time end_time in
       if negb is_available then ret (BookingNotAvailable start_time)
       else
         let* event := create_event st title start_time end_time description in
         match event with
         | Raised => ret (ToolError "book")
         | Ok created =>
             let status :=
               match cr_status created with
               | Some s => Some s
               | None => Some "confirmed"%string
               end in
             ret (Booked title start_time duration_minutes status
                         (cr_htmlLink created))
         end)%cal
  end.

(** What [find_next_available_slot] answers: the slot text and the day it
    was found on, or that the seven days held nothing. *)
Inductive NextSlot :=
| NextAvailable (next_slot : string) (search_date : datetime)
| NoneInNext7Days.

(** The body of [for i in range(7)], over the remaining values of [i]. *)
Fixpoint scan_days (cfg : Settings) (st : CalendarStore) (fuel : nat)
    (preferred_date : datetime) (duration_minutes : Z) (indices : list Z)
  : Cal (option NextSlot) :=
  match indices with
  | [] => ret (Some NoneInNext7Days)
  | i :: indices' =>
      let search_date := preferred_date + days i in
      (let* available_slots :=
         get_available_slots cfg st fuel search_date duration_minutes in
       match available_slots with
       | None => ret None
       | Some [] => scan_days cfg st fuel preferred_date duration_minutes indices'
       | Some (next_slot :: _) => ret (Some (NextAvailable next_slot search_date))
       end)%cal
  end.

(** [range(n)] *)
Definition range (n : nat) : list Z := List.map Z.of_nat (seq 0 n).

(** [find_next_available_slot(preferred_date, duration_minutes)] *)
Definition find_next_available_slot (cfg : Settings) (st : CalendarStore)
    (fuel : nat) (preferred_date : datetime) (duration_minutes : Z)
  : Cal (option NextSlot) :=
  scan_days cfg st fuel preferred_date duration_minutes (range 7).

End Tools.

(** ** [CalendarAgent] ([app/agent/calendar_agent.py]) *)
Module Agent.
Import Py Re Clock Config Json Store Tools.

(** *** Fallback entity extraction *)

Definition digits (lo hi : nat) : regex := Chars is_digit lo (Some hi).
Arguments digits (lo hi)%_nat.
Definition spaces0 : regex := Chars is_space 0%nat None.
Definition spaces1 : regex := Chars is_space 1%nat None.
Definition one_of (p : ascii -> bool) : regex := Chars p 1%nat (Some 1%nat).
Definition slash_or_dash (c : ascii) : bool :=
  Ascii.eqb c "/" || Ascii.eqb c "-".

Definition weekdays : list string :=
  ["monday"; "tuesday"; "wednesday"; "thursday"; "friday"; "saturday"; "sunday"]%string.

(** [date_patterns]: each pattern with its fixed [date_type], if any. *)
Definition date_patterns : list (regex * option string) :=
  [ (cat [WordB; Group 1 (Lit "today"); WordB], Some "today"%string);
    (cat [WordB; Group 1 (Lit "tomorrow"); WordB], Some "tomorrow"%string);
    (cat [WordB; Group 1 (Lit "yesterday"); WordB], Some "yesterday"%string);
    (cat [WordB; digits 1 2; one_of slash_or_dash; digits 1 2;
          one_of slash_or_dash; digits 2 4; WordB], None);
    (cat [WordB; Group 1 (words weekdays); WordB], None);
    (cat [WordB; Group 1 (words ["next"; "this"]%string); spaces1;
          Group 2 (words (["week"; "month"]%string ++ weekdays)); WordB], None) ].

Inductive time_type := Tpm | Tam | Tfull | T24hr.

Definition time_pattern_pm : regex :=
  cat [WordB; Group 1 (digits 1 2); spaces0;
       Group 2 (words ["pm"; "PM"]%string); WordB].
Definition time_pattern_am : regex :=
  cat [WordB; Group 1 (digits 1 2); spaces0;
       Group 2 (words ["am"; "AM"]%string); WordB].
Definition time_pattern_full : regex :=
  cat [WordB; Group 1 (digits 1 2); Lit ":"; Group 2 (digits 2 2); spaces0;
       Opt (Group 3 (words ["am"; "pm"; "AM"; "PM"]%string)); WordB].
Definition time_pattern_24hr : regex :=
  cat [WordB; Group 1 (digits 1 2); Lit ":"; Group 2 (digits 2 2); WordB].

(** [time_patterns], in the order they are tried. *)
Definition time_patterns : list (regex * time_type) :=
  [ (time_pattern_pm, Tpm); (time_pattern_am, Tam);
    (time_pattern_full, Tfull); (time_pattern_24hr, T24hr) ].

(** [int(m.group(i))]; it raises when the group took no part in the match
    or is not the text of an integer. *)
Definition group_int (i : nat) (m : Match) : response Z :=
  match group i (groups m) with
  | Some g => match Py.int g with Some z => Ok z | None => Raised end
  | None => Raised
  end.

(** The date loop: the first pattern that matches decides. *)
Fixpoint extract_date (patterns : list (regex * option string)) (message : string)
  : option string :=
  match patterns with
  | [] => None
  | (pattern, date_type) :: rest =>
      match search pattern message with
      | Some m =>
          match date_type with
          | Some d => Some d
          | None => Some (strip (group0 m))
          end
      | None => extract_date rest message
      end
  end.

(** The text stored under ['time'] for a match of the given kind. *)
Definition time_of_match (kind : time_type) (m : Match) : response string :=
  match kind with
  | Tpm =>
      match group_int 1 m with
      | Raised => Raised
      | Ok hour =>
          let hour := if negb (hour =? 12) then hour + 12 else hour in
          Ok (fmt_02d hour ++ ":00")%string
      end
  | Tam =>
      match group_int 1 m with
      | Raised => Raised
      | Ok hour =>
          let hour := if hour =? 12 then 0 else hour in
          Ok (fmt_02d hour ++ ":00")%string
      end
  | Tfull =>
      match group_int 1 m, group_int 2 m with
      | Ok hour, Ok minute =>
          let hour :=
            match group 3 (groups m) with
            | Some g3 =>
                if negb (String.eqb g3 EmptyString) then
                  if String.eqb (lower g3) "pm" && negb (hour =? 12)
                  then hour + 12
                  else if String.eqb (lower g3) "am" && (hour =? 12)
                  then 0
                  else hour
                else hour
            | None => hour
            end in
          Ok (fmt_02d hour ++ ":" ++ fmt_02d minute)%string
      | _, _ => Raised
      end
  | T24hr => Ok (strip (group0 m))
  end.

(** The time loop: the first pattern that matches decides. *)
Fixpoint extract_time (patterns : list (regex * time_type)) (message : string)
  : response (option string) :=
  match patterns with
  | [] => Ok None
  | (pattern, kind) :: rest =>
      match search pattern message with
      | Some m =>
          match time_of_match kind m with
          | Ok text => Ok (Some text)
          | Raised => Raised
          end
      | None => extract_time rest message
      end
  end.

Definition title_keywords : list string :=
  ["meeting"; "call"; "appointment"; "session"; "conference"; "interview"]%string.

(** The title loop: the first keyword found in the lowered message. *)
Fixpoint extract_title (keywords : list string) (message : string) : option string :=
  match keywords with
  | [] => None
  | keyword :: rest =>
      if contains keyword (lower message) then Some (capitalize keyword)
      else extract_title rest message
  end.

Definition set_if (key : string) (v : option string) (entities : gmap string json)
  : gmap string json :=
  match v with
  | Some s => <[key := JStr s]> entities
  | None => entities
  end.

(** [_simple_entity_extraction(message)]; [Raised] when an exception leaves
    the function. *)
Definition _simple_entity_extraction (message : string)
  : response (gmap string json) :=
  let entities : gmap string json := ∅ in
  let entities := set_if "date" (extract_date date_patterns message) entities in
  match extract_time time_patterns message with
  | Raised => Raised
  | Ok time =>
      let entities := set_if "time" time entities in
      let entities := set_if "title" (extract_title title_keywords message) entities in
      match entities !! "title"%string with
      | Some _ => Ok entities
      | None => Ok (<["title"%string := JStr "Appointment"]> entities)
      end
  end.

(** *** Date and time fragments *)

(** What the agent takes from its surroundings to read a date: the clock,
    [datetime.strptime] and [dateutil.parser.parse] ([None] when they
    raise).  A date is the ordinal offset of its day. *)
Record DateEnv := {
  now : datetime;
  strptime : string -> string -> option Z;
  dateutil_parse : string -> option Z
}.

Definition date_of (t : datetime) : Z := t / US_PER_DAY.

Definition date_formats : list string :=
  ["%Y-%m-%d"; "%m/%d/%Y"; "%m-%d-%Y"; "%d/%m/%Y"; "%d-%m-%Y"]%string.

Fixpoint try_formats (env : DateEnv) (date_str : string) (formats : list string)
  : option Z :=
  match formats with
  | [] => None
  | fmt :: rest =>
      match strptime env date_str fmt with
      | Some d => Some d
      | None => try_formats env date_str rest
      end
  end.

(** [_parse_date_component(date_str)]; a value that is not a string ends
    in the [except] branch. *)
Definition _parse_date_component (env : DateEnv) (date_str : json) : option Z :=
  if negb (truthy date_str) then None
  else
    match date_str with
    | JStr raw =>
        let date_str := strip (lower raw) in
        if String.eqb date_str "today" then Some (date_of (now env))
        else if String.eqb date_str "tomorrow" then Some (date_of (now env + days 1))
        else if String.eqb date_str "yesterday" then Some (date_of (now env - days 1))
        else
          match try_formats env date_str date_formats with
          | Some d => Some d
          | None => dateutil_parse env date_str
          end
    | _ => None
    end.

(** [hour, minute = map(int, time_str.split(':'))] *)
Definition hour_minute (time_str : string) : option (Z * Z) :=
  match split ":" time_str with
  | [h; m] =>
      match Py.int h, Py.int m with
      | Some hour, Some minute => Some (hour, minute)
      | _, _ => None
      end
  | _ => None
  end.

(** [datetime.min.time().replace(hour=hour, minute=minute)]; [None] is
    the [ValueError] for a field out of range. *)
Definition time_replace (hour minute : Z) : option (Z * Z) :=
  if (0 <=? hour) && (hour <=? 23) && (0 <=? minute) && (minute <=? 59)
  then Some (hour, minute) else None.

(** [_parse_time_component(time_str)]: the hour and minute of the
    resulting [time]. *)
Definition _parse_time_component (time_str : json) : option (Z * Z) :=
  if negb (truthy time_str) then None
  else
    match time_str with
    | JStr raw =>
        let time_str := strip (lower raw) in
        if contains "pm" time_str || contains "am" time_str then
          let is_pm := contains "pm" time_str in
          let time_str := strip (replace "am" "" (replace "pm" "" time_str)) in
          match
            (if contains ":" time_str then hour_minute time_str
             else match Py.int time_str with
                  | Some hour => Some (hour, 0)
                  | None => None
                  end)
          with
          | None => None
          | Some (hour, minute) =>
              let hour :=
                if is_pm && negb (hour =? 12) then hour + 12
                else if negb is_pm && (hour =? 12) then 0
                else hour in
              time_replace hour minute
          end
        else if contains ":" time_str then
          match hour_minute time_str with
          | Some (hour, minute) => time_replace hour minute
          | None => None
          end
        else
          match Py.int time_str with
          | Some hour => time_replace hour 0
          | None => None
          end
    | _ => None
    end.

(** [datetime.combine(date, time)] *)
Definition combine (date : Z) (time : Z * Z) : datetime :=
  at_ date (fst time) (snd time).

(** [_parse_datetime(date_str, time_str)] *)
Definition _parse_datetime (env : DateEnv) (date_str time_str : json)
  : option datetime :=
  match _parse_date_component env date_str with
  | None => None
  | Some target_date =>
      match _parse_time_component time_str with
      | None => None
      | Some target_time => Some (combine target_date target_time)
      end
  end.

(** *** Dispatch *)

Definition need_date_and_time_to_book : string :=
  "I need both a date and time to book an appointment. Please provide both.".
Definition need_date_and_time_to_check : string :=
  "Please provide both a date and time to check availability.".
Definition could_not_understand_booking : string :=
  "I couldn't understand the date and time. Please provide them in a clear format like 'tomorrow at 2 PM' or 'October 27th at 2:00 PM'.".
Definition could_not_understand_check : string :=
  "I couldn't understand the date and time format.".
Definition cancellation_not_implemented : string :=
  "Appointment cancellation is not yet implemented. Please specify which appointment you'd like to cancel.".
Definition modification_not_implemented : string :=
  "Appointment modification is not yet implemented. Please specify which appointment you'd like to modify.".
Definition capability_summary : string :=
  "I can help you book appointments, check availability, suggest times, or manage your calendar. What would you like to do?".

Section Handlers.

Variable env : DateEnv.
Variable st : CalendarStore.
(** The two handlers the properties below do not look into. *)
Variable _handle_time_suggestions : gmap string json -> Cal Reply.
Variable _handle_list_appointments : gmap string json -> Cal Reply.

(** [_handle_booking(entities)] *)
Definition _handle_booking (entities : gmap string json) : Cal Reply :=
  let title := get_default entities "title" (JStr "Appointment") in
  let date := get entities "date" in
  let time := get entities "time" in
  let duration := get_default entities "duration" (JInt 60) in
  let description := get_default entities "description" (JStr "") in
  if negb (truthy date) || negb (truthy time) then
    ret (Fixed need_date_and_time_to_book)
  else
    match _parse_datetime env date time with
    | None => ret (Fixed could_not_understand_booking)
    | Some booking_datetime =>
        book_appointment st title booking_datetime
          (if truthy duration then duration else JInt 60) description
    end.

(** [_handle_availability_check(entities)] *)
Definition _handle_availability_check (entities : gmap string json) : Cal Reply :=
  let date := get entities "date" in
  let time := get entities "time" in
  if negb (truthy date) || negb (truthy time) then
    ret (Fixed need_date_and_time_to_check)
  else
    match _parse_datetime env date time with
    | None => ret (Fixed could_not_understand_check)
    | Some check_datetime => Tools.check_availability st check_datetime 60
    end.

Definition _handle_cancellation (entities : gmap string json) : Cal Reply :=
  ret (Fixed cancellation_not_implemented).

Definition _handle_modification (entities : gmap string json) : Cal Reply :=
  ret (Fixed modification_not_implemented).

(** The intent switch of [_use_tools]: the value stored under
    ['tool_results']. *)
Definition _use_tools (intent : string) (entities : gmap string json) : Cal Reply :=
  if String.eqb intent "book_appointment" then _handle_booking entities
  else if String.eqb intent "check_availability" then _handle_availability_check entities
  else if String.eqb intent "suggest_times" then _handle_time_suggestions entities
  else if String.eqb intent "list_appointments" then _handle_list_appointments entities
  else if String.eqb intent "cancel_appointment" then _handle_cancellation entities
  else if String.eqb intent "modify_appointment" then _handle_modification entities
  else ret (Fixed capability_summary).

End Handlers.

End Agent.

(** ** Vocabulary of the specification, and the scenarios it names *)
Module Spec.
Import Clock Config Json Store CalendarService Tools.

(** Busy times in ascending order of start. *)
Definition by_start (a b : datetime * datetime) : Prop := fst a <= fst b.

(** [x] is a whole number of slot lengths after one of the [anchors]. *)
Definition anchored (slot : timedelta) (anchors : list datetime) (x : datetime) : Prop :=
  exists a k, In a anchors /\ 0 <= k /\ x = a + k * slot.

(** The slot starting at [s] keeps the buffer on both sides of [b]. *)
Definition clear_of (slot buffer : timedelta) (s : datetime)
    (b : datetime * datetime) : Prop :=
  s + slot + buffer <= fst b \/ snd b + buffer <= s.

(** The half-open intervals [[a, b)] and [[c, d)] share an instant. *)
Definition intersects (a b c d : datetime) : Prop :=
  exists t, (a <= t /\ t < b) /\ (c <= t /\ t < d).

(** The event occupies part of the window [[s, e)]. *)
Definition overlaps_window (s e : datetime) (ev : Event) : Prop :=
  exists bs be, ev_start ev = Some bs /\ ev_end ev = Some be /\ bs < e /\ s < be.

Definition busy_event (status : string) (bs be : datetime) : Event :=
  {| ev_status := Some status; ev_summary := None;
     ev_start := Some bs; ev_end := Some be |}.

(** A store holding the given events: listing a window answers the events
    that occupy part of it; nothing can be inserted. *)
Definition overlapsb (s e : datetime) (ev : Event) : bool :=
  match ev_start ev, ev_end ev with
  | Some bs, Some be => (bs <? e) && (s <? be)
  | _, _ => false
  end.

Definition store_holding (content : list Event) : CalendarStore :=
  {| events_list := fun s e => Ok (List.filter (overlapsb s e) content);
     events_insert := fun _ => Raised |}.

(** A store whose every call fails. *)
Definition failing_store : CalendarStore :=
  {| events_list := fun _ _ => Raised; events_insert := fun _ => Raised |}.

(** Scenario A: a Monday (ordinal offset 7) with one confirmed event from
    10:00 to 11:00. *)
Definition monday : Z := 7.
Definition scenario_A : CalendarStore :=
  store_holding [busy_event "confirmed" (at_ monday 10 0) (at_ monday 11 0)].

(** Slot alignment as the specification words it: every slot starts a
    whole number of durations after the start of the business window. *)
Definition aligned_to_business_start (cfg : Settings) (st : CalendarStore)
    (fuel : nat) (date : datetime) (duration_minutes : Z) : Prop :=
  forall start_of_day slots,
    replace_hour date (BUSINESS_START_HOUR cfg) = Some start_of_day ->
    result (available_slot_times cfg st fuel date duration_minutes) = Some slots ->
    forall s, In s slots ->
      exists k, 0 <= k /\ s = start_of_day + k * minutes duration_minutes.

(** The first slot of the first day, among the [horizon] days from
    [preferred_date] on, on which the engine offers anything. *)
Definition first_slot_within (horizon : Z) (cfg : Settings) (st : CalendarStore)
    (fuel : nat) (preferred_date : datetime) (duration_minutes : Z)
    (answer : NextSlot) : Prop :=
  match answer with
  | NextAvailable next_slot search_date =>
      exists i rest,
        0 <= i < horizon /\ search_date = preferred_date + days i /\
        result (get_available_slots cfg st fuel search_date duration_minutes)
          = Some (next_slot :: rest) /\
        forall j, 0 <= j < i ->
          result (get_available_slots cfg st fuel (preferred_date + days j)
                    duration_minutes) = Some []
  | NoneInNext7Days =>
      forall i, 0 <= i < horizon ->
        result (get_available_slots cfg st fuel (preferred_date + days i)
                  duration_minutes) = Some []
  end.

(** The next-available search as the specification words it: the horizon
    is the configured number of days. *)
Definition searches_configured_horizon (cfg : Settings) (st : CalendarStore)
    (fuel : nat) (preferred_date : datetime) (duration_minutes : Z) : Prop :=
  forall answer,
    result (find_next_available_slot cfg st fuel preferred_date duration_minutes)
      = Some answer ->
    first_slot_within (AVAILABILITY_SEARCH_DAYS cfg) cfg st fuel preferred_date
      duration_minutes answer.

(** [needle] occurs in [hay]. *)
Definition occurs (needle hay : string) : Prop :=
  exists before after, hay = (before ++ needle ++ after)%string.

(** Every character of [s] passes the test [P]. *)
Fixpoint all_chars (P : ascii -> bool) (s : string) : bool :=
  match s with
  | EmptyString => true
  | String c s' => P c && all_chars P s'
  end.

(** The number a string of decimal digits denotes, continuing from [acc]. *)
Fixpoint digits_value (acc : Z) (s : string) : Z :=
  match s with
  | EmptyString => acc
  | String c s' => digits_value (10 * acc + Py.digit_value c) s'
  end.

(** The field is absent from the entity bag, or present and null. *)
Definition missing (entities : gmap string json) (key : string) : Prop :=
  entities !! key = None \/ entities !! key = Some JNull.

(** A store in which one confirmed event fills the week that starts on
    [monday]. *)
Definition week_taken : CalendarStore :=
  store_holding [busy_event "confirmed" (at_ monday 0 0) (at_ (monday + 7) 0 0)].

(** The event has a status other than ['cancelled']. *)
Definition live (ev : Event) : Prop := ev_status ev <> Some "cancelled"%string.

(** What a returned slot text names: the instant of the day of [date] at
    the hour and minute the text shows. *)
Definition slot_named (date : datetime) (text : string) (s : datetime) : Prop :=
  exists h m,
    0 <= h < 24 /\ 0 <= m < 60 /\
    text = strftime_I_M_p (at_ 0 h m) /\ s = midnight date + at_ 0 h m.

(** Slot non-overlap as the specification words it, of the slots
    [get_available_slots] returns: none intersects a listed event that is
    not cancelled, the end of the event moved forward by the buffer. *)
Definition returned_slots_clear (cfg : Settings) (st : CalendarStore)
    (fuel : nat) (date : datetime) (duration_minutes : Z) : Prop :=
  forall start_of_day end_of_day events slots,
    replace_hour date (BUSINESS_START_HOUR cfg) = Some start_of_day ->
    replace_hour date (BUSINESS_END_HOUR cfg) = Some end_of_day ->
    events_list st start_of_day end_of_day = Ok events ->
    result (get_available_slots cfg st fuel date duration_minutes) = Some slots ->
    forall text s e bs be,
      In text slots -> slot_named date text s ->
      In e events -> live e -> ev_start e = Some bs -> ev_end e = Some be ->
      ~ intersects s (s + minutes duration_minutes) bs
          (be + minutes (BOOKING_BUFFER_MINUTES cfg)).

(** A confirmed meeting on the Monday of the scenarios that ends half a
    minute before 10:45. *)
Definition meeting_off_the_minute : CalendarStore :=
  store_holding
    [busy_event "confirmed" (at_ monday 10 0) (at_ monday 10 44 + 30 * 1000000)].

(** Availability symmetry as the specification words it: for the list the
    store returns for the window, the answer is [False] exactly when a
    listed event that is not cancelled overlaps the window. *)
Definition false_iff_live_overlap (st : CalendarStore) (s e : datetime) : Prop :=
  forall events,
    events_list st s e = Ok events ->
    (result (CalendarService.check_availability st s e) = false <->
     exists ev, In ev events /\ live ev /\ overlaps_window s e ev).

(** A store that answers every listing with the same events, whatever the
    window asked for. *)
Definition store_listing (content : list Event) : CalendarStore :=
  {| events_list := fun _ _ => Ok content;
     events_insert := fun _ => Raised |}.

(** [str(z)] *)
Definition signed (z : Z) : string :=
  if z <? 0 then String "-" (Py.decimal (Z.to_nat (- z)))
  else Py.decimal (Z.to_nat z).

(** The characters of a time without its meridiem: digits, the sign and
    the colon. *)
Definition time_char (c : ascii) : bool :=
  Py.is_digit c || Ascii.eqb c "-" || Ascii.eqb c ":".

(** The hour in 24-hour terms after the shift the meridiem asks for. *)
Definition shifted (is_pm : bool) (hour : Z) : Z :=
  if is_pm then (if hour =? 12 then 12 else hour + 12)
  else (if hour =? 12 then 0 else hour).

(** Rejection of out-of-range hours as the specification words it, for the
    forms with a meridiem: an hour that is not on the 12-hour clock is
    rejected. *)
Definition rejects_hours_off_the_clock : Prop :=
  forall (h : nat) (meridiem : string),
    meridiem = "am"%string \/ meridiem = "pm"%string ->
    ~ (1 <= h <= 12)%nat ->
    Agent._parse_time_component (JStr (Py.decimal h ++ " " ++ meridiem)) = None.

End Spec.

(** ** Further parts of the service, the tools and the agent *)

(** *** [GoogleCalendarService._parse_datetime]: the text of an event's
    start or end *)
Module EventTime.
Import Py Clock.

(** [s.endswith(c)] for a one-character [c]. *)
Fixpoint ends_with (c : ascii) (s : string) : bool :=
  match s with
  | EmptyString => false
  | String x s' =>
      match s' with
      | EmptyString => Ascii.eqb x c
      | String _ _ => ends_with c s'
      end
  end.

(** [s[:-1]] *)
Fixpoint drop_last (s : string) : string :=
  match s with
  | EmptyString => EmptyString
  | String x s' =>
      match s' with
      | EmptyString => EmptyString
      | String _ _ => String x (drop_last s')
      end
  end.

(** [s.count(c)] for a one-character [c]. *)
Fixpoint count_char (c : ascii) (s : string) : nat :=
  match s with
  | EmptyString => 0%nat
  | String x s' => ((if Ascii.eqb x c then 1 else 0) + count_char c s')%nat
  end.

(** [s.split(sep)[0]] *)
Definition before_first (sep : ascii) (s : string) : string :=
  match split sep s with
  | h :: _ => h
  | [] => EmptyString
  end.

(** [s.rsplit(sep, 1)[0]]: the text before the last [sep], or all of [s]
    when there is none. *)
Fixpoint before_last (sep : ascii) (s : string) : string :=
  match s with
  | EmptyString => EmptyString
  | String x s' =>
      if contains (String sep EmptyString) s' then String x (before_last sep s')
      else if Ascii.eqb x sep then EmptyString
      else s
  end.

(** The three branches that remove the timezone from [dt_str]. *)
Definition strip_offset (dt_str : string) : string :=
  if ends_with "Z" dt_str then drop_last dt_str
  else if contains "+" dt_str then before_first "+" dt_str
  else if (2 <? count_char "-" dt_str)%nat then before_last "-" dt_str
  else dt_str.

(** The value under ['start'] or ['end']: the texts under ['dateTime'] and
    ['date'], when present. *)
Record DateTimeObj := {
  dateTime : option string;
  date : option string
}.

(** [_parse_datetime(datetime_obj)], given [datetime.fromisoformat] ([None]
    when it raises). *)
Definition _parse_datetime (fromisoformat : string -> option datetime)
    (datetime_obj : DateTimeObj) : option datetime :=
  match dateTime datetime_obj with
  | Some dt_str => fromisoformat (strip_offset dt_str)
  | None =>
      match date datetime_obj with
      | Some d => fromisoformat d
      | None => None
      end
  end.

End EventTime.

(** *** [CalendarTools.suggest_available_times] and its handler *)
Module Suggest.
Import Py Clock Config Json Store CalendarService Tools Agent.

(** What [suggest_available_times] answers: that the day has nothing, or
    the lines it lists. *)
Inductive Suggestions :=
| NoSlotsFound (date : datetime)
| SlotsFound (date : datetime) (suggestions : list string).

(** [suggest_available_times(date, duration_minutes, num_suggestions)] *)
Definition suggest_available_times (cfg : Settings) (st : CalendarStore)
    (fuel : nat) (date : datetime) (duration_minutes : Z) (num_suggestions : Z)
  : Cal (option Suggestions) :=
  (let* available_slots := get_available_slots cfg st fuel date duration_minutes in
   match available_slots with
   | None => ret None
   | Some [] => ret (Some (NoSlotsFound date))
   | Some slots => ret (Some (SlotsFound date (slice_to num_suggestions slots)))
   end)%cal.

(** [_parse_date(date_str)]: the parsed day at 00:00. *)
Definition _parse_date (env : DateEnv) (date_str : json) : option datetime :=
  match _parse_date_component env date_str with
  | Some target_date => Some (combine target_date (0, 0))
  | None => None
  end.

Definition need_date_to_suggest : string :=
  "Please provide a date to suggest available times.".
Definition could_not_understand_date : string :=
  "I couldn't understand the date format.".

(** What [_handle_time_suggestions] answers: one of its two fixed texts, or
    what the tool answered. *)
Inductive SuggestionReply :=
| Asked (text : string)
| Offered (s : Suggestions).

(** [_handle_time_suggestions(entities)]: the tool is called with its
    default duration (60) and number of suggestions (5). *)
Definition _handle_time_suggestions (env : DateEnv) (cfg : Settings)
    (st : CalendarStore) (fuel : nat) (entities : gmap string json)
  : Cal (option SuggestionReply) :=
  let date := get entities "date" in
  if negb (truthy date) then ret (Some (Asked need_date_to_suggest))
  else
    match _parse_date env date with
    | None => ret (Some (Asked could_not_understand_date))
    | Some target_date =>
        (let* r := suggest_available_times cfg st fuel target_date 60 5 in
         ret (option_map Offered r))%cal
    end.

End Suggest.

(** *** Listing appointments: the two queries of the service, the tool and
    its handler *)
Module Listing.
Import Py Clock Json Store CalendarService Tools Agent.

(** One entry of what a query returns, as far as [list_appointments] reads
    it: the text under ['title'] and the instant rendered under
    ['start_time'] ([None] for ['Unknown']). *)
Record Appointment := {
  title : string;
  start_time : option datetime
}.

(** The loop over the listed events, the same in the two queries. *)
Fixpoint appointments_of (events : list Event) : list Appointment :=
  match events with
  | [] => []
  | event :: rest =>
      if not_cancelled event then
        {| title := match ev_summary event with
                    | Some summary => summary
                    | None => "Untitled"%string
                    end;
           start_time := ev_start event |} :: appointments_of rest
      else appointments_of rest
  end.

(** [get_appointments_for_date(date)]: the day from 00:00:00 to
    23:59:59.999999; the [except] branches return the empty list. *)
Definition get_appointments_for_date (st : CalendarStore) (date : datetime)
  : Cal (list Appointment) :=
  let start_of_day := midnight date in
  let end_of_day := midnight date + (US_PER_DAY - 1) in
  (let* events_result := list_events st start_of_day end_of_day in
   match events_result with
   | Ok events => ret (appointments_of events)
   | Raised => ret []
   end)%cal.

(** [get_upcoming_appointments(days_ahead)] *)
Definition get_upcoming_appointments (env : DateEnv) (st : CalendarStore)
    (days_ahead : Z) : Cal (list Appointment) :=
  let now := now env in
  let future_date := now + days days_ahead in
  (let* events_result := list_events st now future_date in
   match events_result with
   | Ok events => ret (appointments_of events)
   | Raised => ret []
   end)%cal.

(** What the answer of [list_appointments] is about: a day, or what is
    upcoming. *)
Inductive Period :=
| OnDate (target_date : datetime)
| Upcoming.

(** The three answers of [list_appointments]: nothing found, the lines, or
    the text of its [except] branch. *)
Inductive Listed :=
| NoAppointments (date_str : Period)
| Appointments (date_str : Period) (appointments : list Appointment)
| ListingError.

Definition listed (date_str : Period) (appointments : list Appointment) : Listed :=
  match appointments with
  | [] => NoAppointments date_str
  | _ => Appointments date_str appointments
  end.

(** [list_appointments(date)], on the value found under ['date'];
    [dateutil.parser.parse] raises on what is not a string.  Only the day of
    what it returns is used: the query replaces the time of day. *)
Definition list_appointments (env : DateEnv) (st : CalendarStore) (date : json)
  : Cal Listed :=
  if truthy date then
    match date with
    | JStr raw =>
        match dateutil_parse env raw with
        | Some day =>
            let target_date := at_ day 0 0 in
            (let* appointments := get_appointments_for_date st target_date in
             ret (listed (OnDate target_date) appointments))%cal
        | None => ret ListingError
        end
    | _ => ret ListingError
    end
  else
    (let* appointments := get_upcoming_appointments env st 7 in
     ret (listed Upcoming appointments))%cal.

(** [_handle_list_appointments(entities)] *)
Definition _handle_list_appointments (env : DateEnv) (st : CalendarStore)
    (entities : gmap string json) : Cal Listed :=
  let date := get entities "date" in
  list_appointments env st date.

End Listing.

(** *** [CalendarAgent._clean_json_response] *)
Module Clean.
Import Py Re.

(** [re.sub(fence + r'\s*', '', s)]: every occurrence of [fence], with the
    white space that follows it, is removed, left to right.  [skip] counts
    the characters of [fence] still to drop; [eating] tells that the white
    space after an occurrence is being dropped. *)
Fixpoint sub_fence (fence : string) (skip : nat) (eating : bool) (s : string)
  : string :=
  match s with
  | EmptyString => EmptyString
  | String c s' =>
      match skip with
      | S k => sub_fence fence k true s'
      | O =>
          if eating && is_space c then sub_fence fence 0 true s'
          else if starts_with fence s
          then sub_fence fence (String.length fence - 1) true s'
          else String c (sub_fence fence 0 false s')
      end
  end.

Definition remove_fence (fence s : string) : string := sub_fence fence 0 false s.

Definition any_char (c : ascii) : bool := true.

(** [\{.*\}] under [re.DOTALL] (the braces have no case, so comparing
    them without regard to case changes nothing). *)
Definition brace_span : regex :=
  cat [Lit "{"; Chars any_char 0 None; Lit "}"].

(** [_clean_json_response(text)] *)
Definition _clean_json_response (text : string) : string :=
  let text := remove_fence "```json" text in
  let text := remove_fence "```" text in
  let text := strip text in
  match search brace_span text with
  | Some json_match => group0 json_match
  | None => text
  end.

End Clean.

(** *** The graph of [CalendarAgent]: its nodes and [process_message] *)
Module Graph.
Import Py Re Json Store Tools Agent Clean.

(** What the language model is asked: the three prompts, by what they
    interpolate. *)
Inductive Prompt :=
| AskIntent (user_message : string)
| AskEntities (user_message : string) (intent : option string)
| AskResponse (user_message : string) (intent : option string)
              (tool_results : option Reply).

(** What [json.loads] does with a text: it returns the value, raises
    [JSONDecodeError] on a text that is not JSON, or raises another
    exception (a [RecursionError] on deeply nested brackets). *)
Inductive Loaded :=
| Value (v : json)
| NotJson
| LoadFailed.

(** The surroundings of a run: [self.llm.invoke(prompt).content], with the
    exception it may raise, and [json.loads]. *)
Record Env := {
  llm_invoke : Prompt -> response string;
  json_loads : string -> Loaded
}.

(** The three texts an [except] branch of a node stores under ['error']. *)
Inductive Failure :=
| FailedToUnderstand
| FailedToExtract
| ErrorExecuting.

(** The value under ['entities']: what [json.loads] gave, or the bag of the
    fallback. *)
Inductive Entities :=
| Parsed (v : json)
| Fallback (bag : gmap string json).

(** The text under ['response']. *)
Inductive Text :=
| Phrased (content : string)
| Verbatim (tool_results : option Reply)
| Issue (error : Failure).

Record State := {
  user_message : string;
  intent : option string;
  entities : Entities;
  tool_results : option Reply;
  response : option Text;
  error : option Failure
}.

Definition initial_state (message : string) : State :=
  {| user_message := message; intent := None; entities := Parsed (JDict []);
     tool_results := None; response := None; error := None |}.

Definition set_intent (state : State) (v : string) : State :=
  {| user_message := user_message state; intent := Some v;
     entities := entities state; tool_results := tool_results state;
     response := response state; error := error state |}.
Definition set_entities (state : State) (v : Entities) : State :=
  {| user_message := user_message state; intent := intent state;
     entities := v; tool_results := tool_results state;
     response := response state; error := error state |}.
Definition set_tool_results (state : State) (v : Reply) : State :=
  {| user_message := user_message state; intent := intent state;
     entities := entities state; tool_results := Some v;
     response := response state; error := error state |}.
Definition set_response (state : State) (v : Text) : State :=
  {| user_message := user_message state; intent := intent state;
     entities := entities state; tool_results := tool_results state;
     response := Some v; error := error state |}.
Definition set_error (state : State) (v : Failure) : State :=
  {| user_message := user_message state; intent := intent state;
     entities := entities state; tool_results := tool_results state;
     response := response state; error := Some v |}.

(** [state.get("error")] is truthy. *)
Definition has_error (state : State) : bool :=
  match error state with Some _ => true | None => false end.

(** [_understand_intent(state)] *)
Definition _understand_intent (env : Env) (state : State) : State :=
  match llm_invoke env (AskIntent (user_message state)) with
  | Ok content => set_intent state (lower (strip content))
  | Raised => set_error state FailedToUnderstand
  end.

(** [_extract_entities(state)]: only [JSONDecodeError] leads to the
    fallback; any other exception reaches the outer [except]. *)
Definition _extract_entities (env : Env) (state : State) : State :=
  if has_error state then state
  else
    match llm_invoke env (AskEntities (user_message state) (intent state)) with
    | Raised => set_error state FailedToExtract
    | Ok content =>
        let entities_text := _clean_json_response (strip content) in
        match json_loads env entities_text with
        | Value v => set_entities state (Parsed v)
        | NotJson =>
            match _simple_entity_extraction (user_message state) with
            | Ok bag => set_entities state (Fallback bag)
            | Raised => set_error state FailedToExtract
            end
        | LoadFailed => set_error state FailedToExtract
        end
    end.

(** A Python [dict] from the pairs of a JSON object: a later pair replaces
    an earlier one with the same key. *)
Definition dict_of (pairs : list (string * json)) : gmap string json :=
  fold_left (fun d kv => <[fst kv := snd kv]> d) pairs ∅.

Section Run.

Variable env : Env.
Variable dates : DateEnv.
Variable st : CalendarStore.
(** The two handlers that are parameters of [_use_tools]. *)
Variable _handle_time_suggestions : gmap string json -> Cal Reply.
Variable _handle_list_appointments : gmap string json -> Cal Reply.

(** The handlers on a value that is not a [dict]: the four that call
    [entities.get] end in their [except] branch, the others do not look at
    the entities. *)
Definition tools_on_non_dict (intent : string) : Cal Reply :=
  if String.eqb intent "book_appointment" then ret (ToolError "Error booking appointment")
  else if String.eqb intent "check_availability" then ret (ToolError "Error checking availability")
  else if String.eqb intent "suggest_times" then ret (ToolError "Error suggesting times")
  else if String.eqb intent "list_appointments" then ret (ToolError "Error listing appointments")
  else Agent._use_tools dates st _handle_time_suggestions _handle_list_appointments
         intent ∅.

(** [_use_tools(state)]; no handler raises, so the [except] branch of the
    node is never entered.  An intent that was never set compares unequal
    to every name. *)
Definition _use_tools (state : State) : Cal State :=
  if has_error state then ret state
  else
    let intent := match intent state with Some i => i | None => EmptyString end in
    (let* result :=
       match entities state with
       | Fallback bag =>
           Agent._use_tools dates st _handle_time_suggestions
             _handle_list_appointments intent bag
       | Parsed (JDict pairs) =>
           Agent._use_tools dates st _handle_time_suggestions
             _handle_list_appointments intent (dict_of pairs)
       | Parsed _ => tools_on_non_dict intent
       end in
     ret (set_tool_results state result))%cal.

(** [_generate_response(state)] *)
Definition _generate_response (state : State) : State :=
  if has_error state then state
  else
    match llm_invoke env (AskResponse (user_message state) (intent state)
                            (tool_results state)) with
    | Ok content => set_response state (Phrased content)
    | Raised => set_response state (Verbatim (tool_results state))
    end.

(** [_handle_error(state)] *)
Definition _handle_error (state : State) : State :=
  match error state with
  | Some e => set_response state (Issue e)
  | None => state
  end.

(** The compiled graph: [understand_intent], [extract_entities], then
    [handle_error] or [use_tools], then [handle_error] or
    [generate_response]. *)
Definition graph (initial : State) : Cal State :=
  let state := _understand_intent env initial in
  let state := _extract_entities env state in
  if has_error state then ret (_handle_error state)
  else
    (let* state := _use_tools state in
     if has_error state then ret (_handle_error state)
     else ret (_generate_response state))%cal.

(** What [process_message] returns: the apology around the error, or the
    value under ['response'].  That key is in the state from the start, so
    [result.get("response", ...)] never gives its default text: it gives
    what is under the key, [None] included. *)
Inductive Answer :=
| Apology (error : Failure)
| Said (text : Text)
| SaidNone.

(** [process_message(message)] *)
Definition process_message (message : string) : Cal Answer :=
  (let* result := graph (initial_state message) in
   match error result with
   | Some e => ret (Apology e)
   | None =>
       match response result with
       | Some text => ret (Said text)
       | None => ret SaidNone
       end
   end)%cal.

End Run.

End Graph.

(** *** Further vocabulary *)
Module Vocabulary.
Import Py Clock Json Store.

(** Each instant of the list is at least [gap] before every later one. *)
Definition spaced (gap : timedelta) (l : list datetime) : Prop :=
  StronglySorted (fun a b => a + gap <= b) l.

(** The slots emitted so far are apart and all end before the cursor. *)
Definition apart_before (gap : timedelta) (cur : datetime) (acc : list datetime) : Prop :=
  spaced gap acc /\ Forall (fun a => a + gap <= cur) acc.

(** The text [strftime('%I:%M %p')] gives for the hour [h] and minute [m]. *)
Definition clock_text (h m : Z) : string :=
  let h12 := if h mod 12 =? 0 then 12 else h mod 12 in
  (two_digits h12 ++ ":" ++ two_digits m ++ " "
     ++ (if (h <? 12)%Z then "AM" else "PM"))%string.

(** [_parse_time_component] reads the text for [h] and [m] back as [h:m]. *)
Definition reads_back (h m : Z) : bool :=
  match Agent._parse_time_component (JStr (clock_text h m)) with
  | Some (h', m') => (h' =? h) && (m' =? m)
  | None => false
  end.

(** A language model that answers the intent prompt with [intent] and the
    entity prompt with [entities], and raises on the response prompt, beside
    a [json.loads] that finds no text to be JSON. *)
Definition scripted (intent entities : response string) : Graph.Env :=
  {| Graph.llm_invoke := fun prompt =>
       match prompt with
       | Graph.AskIntent _ => intent
       | Graph.AskEntities _ _ => entities
       | Graph.AskResponse _ _ _ => Raised
       end;
     Graph.json_loads := fun _ => Graph.NotJson |}.

(** The clock at 08:00 of the Monday of the scenarios, with no date format
    that reads anything. *)
Definition monday_morning : Agent.DateEnv :=
  {| Agent.now := at_ Spec.monday 8 0;
     Agent.strptime := fun _ _ => None;
     Agent.dateutil_parse := fun _ => None |}.

(** A handler that is never reached in the scenarios. *)
Definition unused_handler (entities : gmap string json) : Cal Tools.Reply :=
  ret (Tools.Other "").

(** The character [c] does not occur in [s]. *)
Definition lacks (c : ascii) (s : string) : bool :=
  Spec.all_chars (fun x => negb (Ascii.eqb c x)) s.

(** What follows the last [c] of [s]; [None] when [s] has no [c]. *)
Fixpoint after_last (c : ascii) (s : string) : option string :=
  match s with
  | EmptyString => None
  | String x s' =>
      match after_last c s' with
      | Some r => Some r
      | None => if Ascii.eqb c x then Some s' else None
      end
  end.

(** Two busy times that start together stand next to each other in the
    other order. *)
Inductive swap_ties : list (datetime * datetime) -> list (datetime * datetime) -> Prop :=
| swap_refl l : swap_ties l l
| swap_here x y l : fst x = fst y -> swap_ties (x :: y :: l) (y :: x :: l)
| swap_skip x l l' : swap_ties l l' -> swap_ties (x :: l) (x :: l')
| swap_trans l1 l2 l3 : swap_ties l1 l2 -> swap_ties l2 l3 -> swap_ties l1 l3.

(** Two answers of the store that list the same events, in any order. *)
Definition same_events (r r' : response (list Event)) : Prop :=
  match r, r' with
  | Ok l, Ok l' => Permutation l l'
  | Raised, Raised => True
  | _, _ => False
  end.

End Vocabulary.

(** * Properties *)

(** ** Sorting of the busy times *)
Section SortFacts.
Import Clock CalendarService Spec.

Lemma insert_by_start_perm x l : Permutation (insert_by_start x l) (x :: l).
Proof.
  induction l as [|y l IH]; simpl; [reflexivity|].
  destruct (fst x <=? fst y); [reflexivity|].
  rewrite IH. apply perm_swap.
Qed.

Lemma sort_by_start_perm l : Permutation (sort_by_start l) l.
Proof.
  induction l as [|x l IH]; simpl; [constructor|].
  rewrite insert_by_start_perm. now constructor.
Qed.

Lemma insert_by_start_sorted x l :
  StronglySorted by_start l -> StronglySorted by_start (insert_by_start x l).
Proof.
  induction 1 as [|y l Hl IH Hy]; simpl.
  - repeat constructor.
  - destruct (Z.leb_spec (fst x) (fst y)) as [Hle|Hgt].
    + constructor; [now constructor|].
      constructor; [exact Hle|].
      eapply List.Forall_impl; [|exact Hy].
      intros b Hb. unfold by_start in *. lia.
    + constructor; [exact IH|].
      eapply Permutation_Forall; [symmetry; apply insert_by_start_perm|].
      constructor; [unfold by_start; lia | exact Hy].
Qed.

Lemma sort_by_start_sorted l : StronglySorted by_start (sort_by_start l).
Proof.
  induction l as [|x l IH]; simpl; [constructor|].
  now apply insert_by_start_sorted.
Qed.

Lemma in_sort_by_start b l : In b (sort_by_start l) <-> In b l.
Proof.
  split; apply Permutation_in; [|symmetry]; apply sort_by_start_perm.
Qed.

(** Every event that is not cancelled and carries two instants is among
    the busy times. *)
Lemma in_busy_times_of events e bs be :
  In e events -> not_cancelled e = true ->
  Store.ev_start e = Some bs -> Store.ev_end e = Some be ->
  In (bs, be) (busy_times_of events).
Proof.
  induction events as [|e' events IH]; simpl; [tauto|].
  intros [->|Hin] Hnc Hs He.
  - rewrite Hnc, Hs, He. now left.
  - specialize (IH Hin Hnc Hs He).
    destruct (not_cancelled e'); [|exact IH].
    destruct (Store.ev_start e'), (Store.ev_end e'); simpl; auto.
Qed.

Lemma busy_times_of_in events b :
  In b (busy_times_of events) ->
  exists e, In e events /\ not_cancelled e = true /\
            Store.ev_start e = Some (fst b) /\ Store.ev_end e = Some (snd b).
Proof.
  induction events as [|e' events IH]; simpl; [tauto|].
  destruct (not_cancelled e') eqn:Hnc.
  - destruct (Store.ev_start e') as [s|] eqn:Hs, (Store.ev_end e') as [t|] eqn:He;
      simpl; intros H;
      try (destruct (IH H) as (e & ? & ?); exists e; tauto).
    destruct H as [<-|H].
    + exists e'. simpl. tauto.
    + destruct (IH H) as (e & ? & ?); exists e; tauto.
  - intros H. destruct (IH H) as (e & ? & ?); exists e; tauto.
Qed.

End SortFacts.

(** ** The slot loops *)
Section LoopFacts.
Import Clock CalendarService.

(** What a finished [while] loop did: it appended the [n] instants
    [cur, cur+step, ...], each passing the test, and stopped at the first
    instant failing it. *)
Lemma emit_while_spec fuel cond step :
  forall cur acc cur' acc',
    emit_while fuel cond step cur acc = Some (cur', acc') ->
    exists n : nat,
      cur' = cur + Z.of_nat n * step /\
      acc' = acc ++ List.map (fun i => cur + Z.of_nat i * step) (seq 0 n) /\
      (forall i, (i < n)%nat -> cond (cur + Z.of_nat i * step) = true) /\
      cond cur' = false.
Proof.
  induction fuel as [|fuel IH]; intros cur acc cur' acc'; simpl;
    destruct (cond cur) eqn:Hc; try discriminate.
  - intros [= <- <-]. exists 0%nat. simpl.
    rewrite app_nil_r, Z.add_0_r. repeat split; auto. intros; lia.
  - intros H. apply IH in H as (n & -> & -> & Hall & Hstop).
    exists (S n). repeat split.
    + lia.
    + rewrite <- app_assoc. simpl. f_equal. f_equal; [f_equal; lia|].
      rewrite <- seq_shift, map_map. apply map_ext. intros; lia.
    + intros [|i] Hi.
      * simpl. now rewrite Z.add_0_r.
      * replace (cur + Z.of_nat (S i) * step)
          with (cur + step + Z.of_nat i * step) by lia.
        apply Hall. lia.
    + replace (cur + Z.of_nat (S n) * step)
        with (cur + step + Z.of_nat n * step) by lia. exact Hstop.
  - intros [= <- <-]. exists 0%nat. simpl.
    rewrite app_nil_r, Z.add_0_r. repeat split; auto. intros; lia.
Qed.

(** More fuel does not change a result. *)
Lemma emit_while_mono cond step fuel :
  forall fuel' cur acc r,
    emit_while fuel cond step cur acc = Some r -> (fuel <= fuel')%nat ->
    emit_while fuel' cond step cur acc = Some r.
Proof.
  induction fuel as [|fuel IH]; intros fuel' cur acc r; simpl.
  - destruct (cond cur) eqn:Hc; [discriminate|].
    intros H _. destruct fuel'; simpl; now rewrite Hc.
  - destruct (cond cur) eqn:Hc.
    + intros H Hle. destruct fuel' as [|fuel']; [lia|].
      simpl. rewrite Hc. apply IH; [exact H | lia].
    + intros H _. destruct fuel'; simpl; now rewrite Hc.
Qed.

(** A loop whose test bounds the cursor by [lim] ends when the step is
    positive. *)
Lemma emit_while_total cond step lim :
  0 < step -> (forall c, cond c = true -> c <= lim) ->
  forall fuel cur acc,
    (Z.to_nat (lim - cur) < fuel)%nat ->
    exists r, emit_while fuel cond step cur acc = Some r.
Proof.
  intros Hstep Hlim. induction fuel as [|fuel IH]; intros cur acc Hf; [lia|].
  simpl. destruct (cond cur) eqn:Hc; [|eauto].
  destruct (cond (cur + step)) eqn:Hc'.
  - apply IH. apply Hlim in Hc, Hc'. lia.
  - destruct fuel; simpl; rewrite Hc'; eauto.
Qed.

Lemma slots_before_mono slot buffer fuel fuel' bs cur acc r :
  slots_before fuel slot buffer bs cur acc = Some r -> (fuel <= fuel')%nat ->
  slots_before fuel' slot buffer bs cur acc = Some r.
Proof.
  unfold slots_before. destruct (slot + buffer <=? bs - cur); [|auto].
  apply emit_while_mono.
Qed.

Lemma slots_before_total slot buffer bs cur acc :
  0 < slot -> exists fuel r, slots_before fuel slot buffer bs cur acc = Some r.
Proof.
  intros Hslot. unfold slots_before.
  destruct (slot + buffer <=? bs - cur); [|exists 0%nat; eauto].
  exists (S (Z.to_nat (bs - slot - buffer - cur))).
  apply (emit_while_total _ slot (bs - slot - buffer) Hslot); [|lia].
  intros c Hc. apply Z.leb_le in Hc. lia.
Qed.

Lemma walk_busy_mono slot buffer fuel fuel' busy :
  (fuel <= fuel')%nat ->
  forall cur acc r,
    walk_busy fuel slot buffer busy cur acc = Some r ->
    walk_busy fuel' slot buffer busy cur acc = Some r.
Proof.
  intros Hle. induction busy as [|[bs be] busy IH]; intros cur acc r; simpl; [auto|].
  destruct (slots_before fuel slot buffer bs cur acc) as [[c a]|] eqn:He; [|discriminate].
  rewrite (slots_before_mono _ _ _ _ _ _ _ _ He Hle). apply IH.
Qed.

Lemma walk_busy_total slot buffer busy :
  0 < slot ->
  forall cur acc, exists fuel r, walk_busy fuel slot buffer busy cur acc = Some r.
Proof.
  intros Hslot. induction busy as [|[bs be] busy IH]; intros cur acc; simpl.
  - exists 0%nat. eauto.
  - destruct (slots_before_total slot buffer bs cur acc Hslot) as (f1 & [c a] & He).
    destruct (IH (Z.max c (be + buffer)) a) as (f2 & r & Hw).
    exists (Nat.max f1 f2), r.
    rewrite (slots_before_mono _ _ _ _ _ _ _ _ He (Nat.le_max_l _ _)).
    eapply walk_busy_mono; [apply Nat.le_max_r | exact Hw].
Qed.

End LoopFacts.

(** ** Where slots start, and what they stay clear of *)
Section WalkFacts.
Import Clock CalendarService Spec.

Variables slot buffer : timedelta.

Lemma anchored_step anchors x n :
  anchored slot anchors x -> anchored slot anchors (x + Z.of_nat n * slot).
Proof.
  intros (a & k & Ha & Hk & ->). exists a, (k + Z.of_nat n).
  repeat split; [auto|lia|lia].
Qed.

Lemma emit_while_anchored anchors fuel cond cur acc cur' acc' :
  emit_while fuel cond slot cur acc = Some (cur', acc') ->
  anchored slot anchors cur -> (forall s, In s acc -> anchored slot anchors s) ->
  anchored slot anchors cur' /\ (forall s, In s acc' -> anchored slot anchors s).
Proof.
  intros H Hcur Hacc.
  apply emit_while_spec in H as (n & -> & -> & _ & _). split.
  - now apply anchored_step.
  - intros s Hs. apply in_app_or in Hs as [Hs|Hs]; [auto|].
    apply in_map_iff in Hs as (i & <- & _). now apply anchored_step.
Qed.

Lemma walk_busy_anchored anchors fuel busy :
  (forall b, In b busy -> In (snd b + buffer) anchors) ->
  forall cur acc cur' acc',
    walk_busy fuel slot buffer busy cur acc = Some (cur', acc') ->
    anchored slot anchors cur -> (forall s, In s acc -> anchored slot anchors s) ->
    anchored slot anchors cur' /\ (forall s, In s acc' -> anchored slot anchors s).
Proof.
  induction busy as [|[bs be] busy IH]; intros Hb cur acc cur' acc'; simpl.
  - intros [= <- <-]; auto.
  - destruct (slots_before fuel slot buffer bs cur acc) as [[c a]|] eqn:He;
      [|discriminate].
    intros Hw Hcur Hacc.
    assert (Hca : anchored slot anchors c /\ (forall s, In s a -> anchored slot anchors s)).
    { unfold slots_before in He. destruct (slot + buffer <=? bs - cur).
      - eapply emit_while_anchored; eauto.
      - injection He as <- <-. auto. }
    destruct Hca as [Hc Ha].
    eapply IH; [ | exact Hw | | exact Ha].
    + intros b Hin. apply Hb. now right.
    + destruct (Z.max_spec c (be + buffer)) as [[_ ->]|[_ ->]]; [|exact Hc].
      exists (be + buffer), 0. repeat split; [|lia|lia].
      apply (Hb (bs, be)). now left.
Qed.

Hypothesis slot_pos : 0 < slot.

Lemma slots_before_clear fuel bs cur acc c a :
  slots_before fuel slot buffer bs cur acc = Some (c, a) ->
  cur <= c /\
  (forall s, In s a -> In s acc \/ (cur <= s /\ s + slot + buffer <= bs)).
Proof.
  unfold slots_before. destruct (slot + buffer <=? bs - cur).
  - intros He. apply emit_while_spec in He as (n & -> & -> & Hall & _). split; [nia|].
    intros s Hs. apply in_app_or in Hs as [Hs|Hs]; [now left|right].
    apply in_map_iff in Hs as (i & <- & Hi). apply in_seq in Hi.
    specialize (Hall i ltac:(lia)). apply Z.leb_le in Hall. nia.
  - intros [= <- <-]. split; [lia|auto].
Qed.

Lemma walk_busy_clear fuel busy :
  StronglySorted by_start busy ->
  forall cur acc cur' acc',
    walk_busy fuel slot buffer busy cur acc = Some (cur', acc') ->
    cur <= cur' /\
    (forall b, In b busy -> snd b + buffer <= cur') /\
    (forall s, In s acc' ->
       In s acc \/ (cur <= s /\ forall b, In b busy -> clear_of slot buffer s b)).
Proof.
  induction 1 as [|[bs be] busy Hsorted IH Hhead]; intros cur acc cur' acc'; simpl.
  - intros [= <- <-]. repeat split; [lia|tauto|auto].
  - destruct (slots_before fuel slot buffer bs cur acc) as [[c a]|] eqn:He;
      [|discriminate].
    intros Hw. apply slots_before_clear in He as [Hc Ha].
    apply IH in Hw as (Hle & Hends & Hacc).
    split; [lia|]. split.
    + intros b [<-|Hb]; [simpl; lia | auto].
    + intros s Hs. destruct (Hacc s Hs) as [Hin|[Hs1 Hs2]].
      * destruct (Ha s Hin) as [?|[? ?]]; [now left|right].
        split; [assumption|]. intros b [<-|Hb]; [left; simpl; lia|].
        left. rewrite List.Forall_forall in Hhead.
        specialize (Hhead b Hb). unfold by_start in Hhead. simpl in Hhead. lia.
      * right. split; [lia|]. intros b [<-|Hb]; [right; simpl; lia | auto].
Qed.

End WalkFacts.

(** ** The availability engine *)
Section EngineFacts.
Import Clock Config Store CalendarService Spec.

Lemma firstn_incl {A} k (l : list A) x : In x (firstn k l) -> In x l.
Proof.
  intros H. rewrite <- (firstn_skipn k l). apply in_or_app. now left.
Qed.

Lemma slice_to_In {A} n (l : list A) x : In x (slice_to n l) -> In x l.
Proof.
  unfold slice_to. destruct (0 <=? n); apply firstn_incl.
Qed.

Lemma slice_to_all {A} n (l : list A) :
  Z.of_nat (List.length l) <= n -> slice_to n l = l.
Proof.
  intros H. unfold slice_to. destruct (Z.leb_spec 0 n); [|lia].
  apply firstn_all2. lia.
Qed.

(** The answer of the engine does not depend on the calls logged before. *)
Lemma available_slot_times_fst cfg st fuel date dur log :
  fst (available_slot_times cfg st fuel date dur log)
  = result (available_slot_times cfg st fuel date dur).
Proof.
  unfold result, run, available_slot_times.
  destruct (replace_hour date (BUSINESS_START_HOUR cfg)),
    (replace_hour date (BUSINESS_END_HOUR cfg)); try reflexivity.
  destruct (negb (is_business_day cfg date)); [reflexivity|].
  unfold bind, list_events. destruct (events_list st _ _); reflexivity.
Qed.

Lemma get_available_slots_fst cfg st fuel date dur log :
  fst (get_available_slots cfg st fuel date dur log)
  = option_map (List.map strftime_I_M_p)
      (result (available_slot_times cfg st fuel date dur)).
Proof.
  unfold get_available_slots, bind.
  rewrite <- (available_slot_times_fst cfg st fuel date dur log).
  destruct (available_slot_times cfg st fuel date dur log). reflexivity.
Qed.

(** A non-empty answer comes from the slot walk on a business day. *)
Lemma available_slot_times_inv cfg st fuel date dur slots :
  result (available_slot_times cfg st fuel date dur) = Some slots ->
  slots = [] \/
  exists start_of_day end_of_day events,
    replace_hour date (BUSINESS_START_HOUR cfg) = Some start_of_day /\
    replace_hour date (BUSINESS_END_HOUR cfg) = Some end_of_day /\
    is_business_day cfg date = true /\
    events_list st start_of_day end_of_day = Ok events /\
    slot_starts cfg fuel start_of_day end_of_day dur events = Some slots.
Proof.
  unfold result, run, available_slot_times.
  destruct (replace_hour date (BUSINESS_START_HOUR cfg)) as [sod|];
    [|intros [= <-]; now left].
  destruct (replace_hour date (BUSINESS_END_HOUR cfg)) as [eod|];
    [|intros [= <-]; now left].
  destruct (is_business_day cfg date) eqn:Hday; simpl;
    [|intros [= <-]; now left].
  unfold bind, list_events.
  destruct (events_list st sod eod) as [events|] eqn:Hev; simpl;
    [|intros [= <-]; now left].
  intros H. right. exists sod, eod, events. auto.
Qed.

Lemma available_slot_times_business cfg st fuel date dur sod eod events :
  replace_hour date (BUSINESS_START_HOUR cfg) = Some sod ->
  replace_hour date (BUSINESS_END_HOUR cfg) = Some eod ->
  is_business_day cfg date = true ->
  events_list st sod eod = Ok events ->
  result (available_slot_times cfg st fuel date dur)
  = slot_starts cfg fuel sod eod dur events.
Proof.
  intros Hs He Hd Hev. unfold result, run, available_slot_times.
  rewrite Hs, He, Hd. simpl. unfold bind, list_events. now rewrite Hev.
Qed.

Lemma slot_starts_mono cfg fuel fuel' sod eod dur events r :
  slot_starts cfg fuel sod eod dur events = Some r -> (fuel <= fuel')%nat ->
  slot_starts cfg fuel' sod eod dur events = Some r.
Proof.
  unfold slot_starts. intros H Hle.
  destruct (walk_busy fuel _ _ _ _ _) as [[c a]|] eqn:Hw; [|discriminate].
  rewrite (walk_busy_mono _ _ _ _ _ Hle _ _ _ Hw).
  destruct (emit_while fuel _ _ c a) as [[c' a']|] eqn:He; [|discriminate].
  now rewrite (emit_while_mono _ _ _ _ _ _ _ He Hle).
Qed.

Lemma slot_starts_total cfg sod eod dur events :
  0 < dur -> exists fuel r, slot_starts cfg fuel sod eod dur events = Some r.
Proof.
  intros Hdur. unfold slot_starts.
  assert (Hslot : 0 < minutes dur) by (unfold minutes, US_PER_MINUTE; lia).
  destruct (walk_busy_total (minutes dur) (minutes (BOOKING_BUFFER_MINUTES cfg))
              (sort_by_start (busy_times_of events)) Hslot sod [])
    as (f1 & [c a] & Hw).
  destruct (emit_while_total (fun x => x + minutes dur <=? eod) (minutes dur)
              (eod - minutes dur) Hslot) with
      (fuel := S (Z.to_nat (eod - minutes dur - c))) (cur := c) (acc := a)
    as [[c' a'] He]; [intros x Hx; apply Z.leb_le in Hx; lia | lia |].
  exists (Nat.max f1 (S (Z.to_nat (eod - minutes dur - c)))). eexists.
  rewrite (walk_busy_mono _ _ _ _ _ (Nat.le_max_l _ _) _ _ _ Hw).
  now rewrite (emit_while_mono _ _ _ _ _ _ _ He (Nat.le_max_r _ _)).
Qed.

(** With a positive duration the engine answers, given enough fuel, and
    any further fuel leaves the answer unchanged. *)
Lemma available_slot_times_total cfg st date dur :
  0 < dur ->
  exists fuel slots,
    forall fuel', (fuel <= fuel')%nat ->
      result (available_slot_times cfg st fuel' date dur) = Some slots.
Proof.
  intros Hdur. unfold result, run, available_slot_times.
  destruct (replace_hour date (BUSINESS_START_HOUR cfg)) as [sod|];
    [|exists 0%nat, []; reflexivity].
  destruct (replace_hour date (BUSINESS_END_HOUR cfg)) as [eod|];
    [|exists 0%nat, []; reflexivity].
  destruct (negb (is_business_day cfg date)); [exists 0%nat, []; reflexivity|].
  unfold bind, list_events.
  destruct (events_list st sod eod) as [events|]; simpl;
    [|exists 0%nat, []; reflexivity].
  destruct (slot_starts_total cfg sod eod dur events Hdur) as (fuel & r & Hr).
  exists fuel, r. intros fuel' Hle. eapply slot_starts_mono; eauto.
Qed.

(** Every slot start is anchored at the start of the business window or
    at the buffered end of a busy time. *)
Lemma slot_starts_anchored cfg fuel sod eod dur events slots :
  slot_starts cfg fuel sod eod dur events = Some slots ->
  forall s, In s slots ->
    anchored (minutes dur)
      (sod :: List.map (fun b => snd b + minutes (BOOKING_BUFFER_MINUTES cfg))
                (busy_times_of events)) s.
Proof.
  unfold slot_starts. intros H s Hs.
  destruct (walk_busy fuel _ _ _ _ _) as [[c a]|] eqn:Hw; [|discriminate].
  destruct (emit_while fuel _ _ c a) as [[c' a']|] eqn:He; [|discriminate].
  injection H as <-. apply slice_to_In in Hs.
  eapply walk_busy_anchored in Hw as [Hc Ha].
  - eapply emit_while_anchored in He as [_ Ha']; eauto.
  - intros b Hb. right. apply in_map_iff. exists b. split; [reflexivity|].
    now apply in_sort_by_start.
  - exists sod, 0. repeat split; [now left|lia|lia].
  - intros ? [].
Qed.

(** Every slot keeps the buffer on both sides of every busy time. *)
Lemma slot_starts_clear cfg fuel sod eod dur events slots :
  0 < dur ->
  slot_starts cfg fuel sod eod dur events = Some slots ->
  forall s b, In s slots -> In b (busy_times_of events) ->
    clear_of (minutes dur) (minutes (BOOKING_BUFFER_MINUTES cfg)) s b.
Proof.
  unfold slot_starts. intros Hdur H s b Hs Hb.
  assert (Hslot : 0 < minutes dur) by (unfold minutes, US_PER_MINUTE; lia).
  destruct (walk_busy fuel _ _ _ _ _) as [[c a]|] eqn:Hw; [|discriminate].
  destruct (emit_while fuel _ _ c a) as [[c' a']|] eqn:He; [|discriminate].
  injection H as <-. apply slice_to_In in Hs.
  apply in_sort_by_start in Hb.
  apply (walk_busy_clear _ _ Hslot) in Hw as (_ & Hends & Hacc);
    [|apply sort_by_start_sorted].
  apply emit_while_spec in He as (n & _ & -> & _ & _).
  apply in_app_or in Hs as [Hs|Hs].
  - destruct (Hacc s Hs) as [[]|[_ Hclear]]. now apply Hclear.
  - apply in_map_iff in Hs as (i & <- & _). right.
    specialize (Hends b Hb). nia.
Qed.

End EngineFacts.

(** ** Claims about the availability engine *)
Section AvailabilityClaims.
Import Clock Config Json Store CalendarService Agent Spec Vocabulary.

Lemma midnight_mod t : midnight t mod US_PER_DAY = 0.
Proof. unfold midnight. apply Z_mod_mult. Qed.

Lemma hour_midnight t x : hour (midnight t + x) = hour x.
Proof.
  unfold hour, midnight. now rewrite Z.add_comm, Z_mod_plus_full.
Qed.

Lemma minute_midnight t x : minute (midnight t + x) = minute x.
Proof.
  unfold minute, midnight.
  replace (t / US_PER_DAY * US_PER_DAY) with (t / US_PER_DAY * 24 * US_PER_HOUR)
    by (unfold US_PER_DAY; lia).
  now rewrite Z.add_comm, Z_mod_plus_full.
Qed.

Lemma strftime_midnight t x :
  strftime_I_M_p (midnight t + x) = strftime_I_M_p x.
Proof.
  unfold strftime_I_M_p. now rewrite hour_midnight, minute_midnight.
Qed.

Lemma emit_while_true fuel cond step cur acc :
  cond cur = true ->
  emit_while (S fuel) cond step cur acc
  = emit_while fuel cond step (cur + step) (acc ++ [cur]).
Proof. intros H. simpl. now rewrite H. Qed.

Lemma emit_while_false fuel cond step cur acc :
  cond cur = false -> emit_while fuel cond step cur acc = Some (cur, acc).
Proof. intros H. destruct fuel; simpl; now rewrite H. Qed.

Ltac numerals :=
  unfold at_, minutes, US_PER_DAY, US_PER_HOUR, US_PER_MINUTE in *.

Ltac loop_on := rewrite emit_while_true by (cbv beta; apply Z.leb_le; numerals; lia).
Ltac loop_off := rewrite emit_while_false by (cbv beta; apply Z.leb_gt; numerals; lia).

(** C1 (Scenario A).  On a business day, with business hours 09:00-17:00,
    a 15 minute buffer, 60 minute slots and room for at least five
    suggestions, when the store lists for the business window events whose
    only busy time is 10:00-11:00, [get_available_slots] returns exactly
    the five slots starting 11:15, 12:15, 13:15, 14:15 and 15:15, in that
    order (five iterations of a loop are enough). *)
Theorem scenario_A_free_slots cfg st fuel date events :
  BUSINESS_START_HOUR cfg = 9 -> BUSINESS_END_HOUR cfg = 17 ->
  BOOKING_BUFFER_MINUTES cfg = 15 -> 5 <= MAX_SUGGESTIONS cfg ->
  is_business_day cfg date = true ->
  events_list st (midnight date + at_ 0 9 0) (midnight date + at_ 0 17 0) = Ok events ->
  busy_times_of events = [(midnight date + at_ 0 10 0, midnight date + at_ 0 11 0)] ->
  (5 <= fuel)%nat ->
  result (available_slot_times cfg st fuel date 60)
    = Some [midnight date + at_ 0 11 15; midnight date + at_ 0 12 15;
            midnight date + at_ 0 13 15; midnight date + at_ 0 14 15;
            midnight date + at_ 0 15 15] /\
  result (get_available_slots cfg st fuel date 60)
    = Some ["11:15 AM"; "12:15 PM"; "01:15 PM"; "02:15 PM"; "03:15 PM"]%string.
Proof.
  intros Hstart Hend Hbuf Hmax Hday Hev Hbusy Hfuel.
  assert (Htimes : result (available_slot_times cfg st fuel date 60)
    = Some [midnight date + at_ 0 11 15; midnight date + at_ 0 12 15;
            midnight date + at_ 0 13 15; midnight date + at_ 0 14 15;
            midnight date + at_ 0 15 15]).
  { rewrite (available_slot_times_business cfg st fuel date 60
               (midnight date + at_ 0 9 0) (midnight date + at_ 0 17 0) events);
      [ | rewrite Hstart; reflexivity | rewrite Hend; reflexivity | exact Hday | exact Hev ].
    unfold slot_starts. rewrite Hbusy, Hbuf. simpl sort_by_start.
    do 5 (destruct fuel as [|fuel]; [lia|]).
    generalize (midnight date). intros D.
    unfold walk_busy, slots_before.
    replace (minutes 60 + minutes 15 <=? D + at_ 0 10 0 - (D + at_ 0 9 0))
      with false by (symmetry; apply Z.leb_gt; numerals; lia).
    rewrite Z.max_r by (numerals; lia).
    do 5 loop_on. loop_off.
    rewrite slice_to_all by (simpl; lia). simpl. f_equal.
    do 4 (f_equal; [numerals; lia|]). f_equal. numerals; lia. }
  split; [exact Htimes|].
  unfold result, run in *. rewrite get_available_slots_fst.
  unfold result, run. rewrite Htimes. simpl.
  rewrite !strftime_midnight. reflexivity.
Qed.

Lemma scenario_A_free_slots_witness :
  result (available_slot_times settings scenario_A 10 (at_ monday 13 22) 60)
    = Some [midnight (at_ monday 13 22) + at_ 0 11 15;
            midnight (at_ monday 13 22) + at_ 0 12 15;
            midnight (at_ monday 13 22) + at_ 0 13 15;
            midnight (at_ monday 13 22) + at_ 0 14 15;
            midnight (at_ monday 13 22) + at_ 0 15 15] /\
  result (get_available_slots settings scenario_A 10 (at_ monday 13 22) 60)
    = Some ["11:15 AM"; "12:15 PM"; "01:15 PM"; "02:15 PM"; "03:15 PM"]%string.
Proof.
  apply (scenario_A_free_slots settings scenario_A 10 (at_ monday 13 22)
           [busy_event "confirmed" (at_ monday 10 0) (at_ monday 11 0)]);
    try reflexivity; try (vm_compute; discriminate); lia.
Defined.

(** *** What the returned texts name *)

Lemma not_cancelled_live e : not_cancelled e = true <-> live e.
Proof.
  unfold not_cancelled, live. destruct (ev_status e) as [status|].
  - destruct (String.eqb_spec status "cancelled") as [->|Hne]; cbn.
    + split; [discriminate | intros H; now contradiction H].
    + split; [intros _ [= H]; now apply Hne | reflexivity].
  - split; [discriminate | reflexivity].
Qed.

Lemma replace_hour_inv date h t :
  replace_hour date h = Some t ->
  0 <= h <= 23 /\ t = midnight date + h * US_PER_HOUR.
Proof.
  unfold replace_hour.
  destruct (Z.leb_spec 0 h), (Z.leb_spec h 23); cbn; try discriminate.
  intros [= <-]. split; [lia | reflexivity].
Qed.

(** The texts returned are those of the instants. *)
Lemma returned_texts cfg st fuel date dur slots :
  result (get_available_slots cfg st fuel date dur) = Some slots ->
  exists times,
    result (available_slot_times cfg st fuel date dur) = Some times /\
    slots = List.map strftime_I_M_p times.
Proof.
  unfold result at 1, run. rewrite get_available_slots_fst.
  destruct (result (available_slot_times cfg st fuel date dur)) as [times|];
    [|discriminate].
  intros [= <-]. eauto.
Qed.

Lemma whole_minutes_anchored dur anchors s :
  (forall a, In a anchors -> a mod US_PER_MINUTE = 0) ->
  anchored (minutes dur) anchors s -> s mod US_PER_MINUTE = 0.
Proof.
  intros Hanchors (a & k & Ha & _ & ->). specialize (Hanchors a Ha).
  unfold minutes. rewrite Z.mul_assoc, Z_mod_plus_full. exact Hanchors.
Qed.

(** With the busy ends on whole minutes, so are the slots. *)
Lemma slot_starts_whole_minutes cfg fuel date h sod eod dur events slots :
  replace_hour date h = Some sod ->
  (forall b, In b (busy_times_of events) -> snd b mod US_PER_MINUTE = 0) ->
  slot_starts cfg fuel sod eod dur events = Some slots ->
  forall s, In s slots -> s mod US_PER_MINUTE = 0.
Proof.
  intros Hsod Hends H s Hs.
  pose proof (slot_starts_anchored _ _ _ _ _ _ _ H s Hs) as Hanchored.
  apply (whole_minutes_anchored dur _ s) in Hanchored; [assumption|].
  intros a [<-|Ha].
  - apply replace_hour_inv in Hsod as [_ ->]. unfold midnight. numerals.
    Z.div_mod_to_equations. lia.
  - apply in_map_iff in Ha as (b & <- & Hb). specialize (Hends b Hb).
    unfold minutes. rewrite Z_mod_plus_full. exact Hends.
Qed.

Lemma clock_text_reads_back h m :
  0 <= h < 24 -> 0 <= m < 60 ->
  _parse_time_component (JStr (clock_text h m)) = Some (h, m).
Proof.
  intros Hh Hm.
  assert (Hall : forallb (fun h => forallb (fun m => reads_back (Z.of_nat h) (Z.of_nat m))
                                     (seq 0 60)) (seq 0 24) = true)
    by (vm_compute; reflexivity).
  rewrite forallb_forall in Hall.
  specialize (Hall (Z.to_nat h) ltac:(apply in_seq; lia)).
  rewrite forallb_forall in Hall.
  specialize (Hall (Z.to_nat m) ltac:(apply in_seq; lia)).
  rewrite !Z2Nat.id in Hall by lia. unfold reads_back in Hall.
  destruct (_parse_time_component (JStr (clock_text h m))) as [[h' m']|];
    [|discriminate].
  apply andb_true_iff in Hall as [H1 H2].
  apply Z.eqb_eq in H1, H2. now subst.
Qed.

Lemma hour_range t : 0 <= hour t < 24.
Proof. unfold hour. numerals. Z.div_mod_to_equations. lia. Qed.

Lemma minute_range t : 0 <= minute t < 60.
Proof. unfold minute. numerals. Z.div_mod_to_equations. lia. Qed.

(** [_parse_time_component] reads the text of an instant back as its hour
    and minute. *)
Lemma strftime_reads_back t :
  _parse_time_component (JStr (strftime_I_M_p t)) = Some (hour t, minute t).
Proof.
  change (strftime_I_M_p t) with (clock_text (hour t) (minute t)).
  apply clock_text_reads_back; [apply hour_range | apply minute_range].
Qed.


(** An instant on a whole minute is its midnight plus its hour and minute. *)
Lemma whole_minute_instant s :
  s mod US_PER_MINUTE = 0 -> s = midnight s + at_ 0 (hour s) (minute s).
Proof.
  intros Hs. unfold midnight, hour, minute. numerals.
  Z.div_mod_to_equations. lia.
Qed.

Lemma same_midnight date lo s :
  0 <= lo -> midnight date + lo <= s -> s < midnight date + US_PER_DAY ->
  midnight s = midnight date.
Proof.
  unfold midnight. numerals. intros Hlo Hle Hlt. Z.div_mod_to_equations. lia.
Qed.


(** The walk stays inside the business window. *)
Lemma slots_before_window slot buffer fuel bs lim cur acc c a :
  0 < slot -> 0 <= buffer -> bs <= lim ->
  slots_before fuel slot buffer bs cur acc = Some (c, a) ->
  cur <= c /\ forall s, In s a -> In s acc \/ (cur <= s /\ s + slot <= lim).
Proof.
  intros Hslot Hbuf Hbs H.
  apply (slots_before_clear slot buffer Hslot) in H as [Hc Ha].
  split; [exact Hc|]. intros s Hs.
  destruct (Ha s Hs) as [?|[? ?]]; [now left | right; lia].
Qed.

Lemma walk_busy_window slot buffer fuel lim busy :
  0 < slot -> 0 <= buffer ->
  (forall b, In b busy -> fst b <= lim) ->
  forall cur acc cur' acc',
    walk_busy fuel slot buffer busy cur acc = Some (cur', acc') ->
    cur <= cur' /\
    forall s, In s acc' -> In s acc \/ (cur <= s /\ s + slot <= lim).
Proof.
  intros Hslot Hbuf. induction busy as [|[bs be] busy IH];
    intros Hlim cur acc cur' acc'; simpl.
  - intros [= <- <-]. split; [lia | auto].
  - destruct (slots_before fuel slot buffer bs cur acc) as [[c a]|] eqn:He;
      [|discriminate].
    intros Hw.
    apply (slots_before_window slot buffer fuel bs lim) in He as [Hc Ha];
      [|assumption|assumption|apply (Hlim (bs, be)); now left].
    apply IH in Hw as [Hle Hacc]; [|intros b Hb; apply Hlim; now right].
    split; [lia|]. intros s Hs.
    destruct (Hacc s Hs) as [Hin|[? ?]]; [|right; lia].
    destruct (Ha s Hin) as [?|[? ?]]; [now left | right; lia].
Qed.

Lemma slot_starts_window cfg fuel sod eod dur events times :
  0 < dur -> 0 <= BOOKING_BUFFER_MINUTES cfg ->
  (forall b, In b (busy_times_of events) -> fst b <= eod) ->
  slot_starts cfg fuel sod eod dur events = Some times ->
  forall s, In s times -> sod <= s /\ s + minutes dur <= eod.
Proof.
  intros Hdur Hbuf Hlim H s Hs.
  assert (Hslot : 0 < minutes dur) by (unfold minutes, US_PER_MINUTE; lia).
  assert (Hbuffer : 0 <= minutes (BOOKING_BUFFER_MINUTES cfg))
    by (unfold minutes, US_PER_MINUTE; lia).
  unfold slot_starts in H.
  destruct (walk_busy fuel _ _ _ _ _) as [[c a]|] eqn:Hw; [|discriminate].
  destruct (emit_while fuel _ _ c a) as [[c' a']|] eqn:He; [|discriminate].
  injection H as <-. apply slice_to_In in Hs.
  apply (walk_busy_window _ _ _ eod _ Hslot Hbuffer) in Hw as [Hc Ha];
    [|intros b Hb; apply Hlim; now apply in_sort_by_start].
  apply emit_while_spec in He as (n & _ & -> & Hall & _).
  apply in_app_or in Hs as [Hs|Hs].
  - destruct (Ha s Hs) as [[]|?]. assumption.
  - apply in_map_iff in Hs as (i & <- & Hi). apply in_seq in Hi.
    specialize (Hall i ltac:(lia)). apply Z.leb_le in Hall. split; [nia | lia].
Qed.

(** C2, as stated, fails on Scenario A: the slot at 11:15 is returned,
    and 11:15 is not a whole number of hours after 09:00. *)
Lemma slot_alignment_fails_on_scenario_A :
  ~ aligned_to_business_start settings scenario_A 10 (at_ monday 13 22) 60.
Proof.
  intros H.
  destruct (H (at_ monday 9 0)
              [at_ monday 11 15; at_ monday 12 15; at_ monday 13 15;
               at_ monday 14 15; at_ monday 15 15]
              eq_refl eq_refl (at_ monday 11 15) (or_introl eq_refl))
    as (k & Hk & Heq).
  numerals. unfold monday in Heq. lia.
Qed.

(** C2, amended.  Every text [get_available_slots] returns is the text, by
    hour and minute, of an instant [s] that lies a whole number [k >= 0] of
    slot durations after an anchor, which is either the start of the
    business window or the end, moved forward by the buffer, of a busy
    interval: a listed event that is not cancelled and whose start and end
    were both read.  The text drops the seconds of [s]; when the busy
    intervals end on whole minutes [s] has none. *)
Theorem slots_start_at_anchor_plus_durations cfg st fuel date dur slots text :
  result (get_available_slots cfg st fuel date dur) = Some slots ->
  In text slots ->
  exists start_of_day end_of_day events s k,
    replace_hour date (BUSINESS_START_HOUR cfg) = Some start_of_day /\
    replace_hour date (BUSINESS_END_HOUR cfg) = Some end_of_day /\
    events_list st start_of_day end_of_day = Ok events /\
    text = strftime_I_M_p s /\
    _parse_time_component (JStr text) = Some (hour s, minute s) /\
    0 <= k /\
    (s = start_of_day + k * minutes dur \/
     exists e busy_start busy_end,
       In e events /\ live e /\
       ev_start e = Some busy_start /\ ev_end e = Some busy_end /\
       s = busy_end + minutes (BOOKING_BUFFER_MINUTES cfg) + k * minutes dur) /\
    ((forall e busy_start busy_end,
        In e events -> live e ->
        ev_start e = Some busy_start -> ev_end e = Some busy_end ->
        busy_end mod US_PER_MINUTE = 0) ->
     s mod US_PER_MINUTE = 0).
Proof.
  intros Hres Htext.
  apply returned_texts in Hres as (times & Hres & ->).
  apply in_map_iff in Htext as (s & <- & Hs).
  apply available_slot_times_inv in Hres as [->|Hres]; [destruct Hs|].
  destruct Hres as (sod & eod & events & Hsod & Heod & _ & Hev & Hslots).
  destruct (slot_starts_anchored _ _ _ _ _ _ _ Hslots s Hs)
    as (a & k & Ha & Hk & Heq).
  exists sod, eod, events, s, k.
  split; [exact Hsod|]. split; [exact Heod|]. split; [exact Hev|].
  split; [reflexivity|]. split; [apply strftime_reads_back|].
  split; [exact Hk|]. split.
  - destruct Ha as [<-|Ha]; [now left|right].
    apply in_map_iff in Ha as ([bs be] & <- & Hb).
    apply busy_times_of_in in Hb as (e & He & Hnc & Hstart & Hend).
    exists e, bs, be. cbn [fst snd] in *.
    repeat split; auto. now apply not_cancelled_live.
  - intros Hwhole.
    apply (slot_starts_whole_minutes cfg fuel date _ sod eod dur events _ Hsod)
      with (s := s) in Hslots; [exact Hslots | | exact Hs].
    intros b Hb. apply busy_times_of_in in Hb as (e & He & Hnc & Hstart & Hend).
    apply (Hwhole e (fst b) (snd b)); auto. now apply not_cancelled_live.
Qed.

Lemma slots_start_at_anchor_plus_durations_witness :
  exists start_of_day end_of_day events s k,
    replace_hour (at_ monday 13 22) (BUSINESS_START_HOUR settings) = Some start_of_day /\
    replace_hour (at_ monday 13 22) (BUSINESS_END_HOUR settings) = Some end_of_day /\
    events_list scenario_A start_of_day end_of_day = Ok events /\
    "11:15 AM"%string = strftime_I_M_p s /\
    _parse_time_component (JStr "11:15 AM") = Some (hour s, minute s) /\
    0 <= k /\
    (s = start_of_day + k * minutes 60 \/
     exists e busy_start busy_end,
       In e events /\ live e /\
       ev_start e = Some busy_start /\ ev_end e = Some busy_end /\
       s = busy_end + minutes (BOOKING_BUFFER_MINUTES settings) + k * minutes 60) /\
    ((forall e busy_start busy_end,
        In e events -> live e ->
        ev_start e = Some busy_start -> ev_end e = Some busy_end ->
        busy_end mod US_PER_MINUTE = 0) ->
     s mod US_PER_MINUTE = 0).
Proof.
  apply (slots_start_at_anchor_plus_durations settings scenario_A 10
           (at_ monday 13 22) 60
           ["11:15 AM"; "12:15 PM"; "01:15 PM"; "02:15 PM"; "03:15 PM"]%string);
    [reflexivity | left; reflexivity].
Defined.


(** C3 (defect).  With the default settings and one confirmed meeting
    from 10:00 to 10:44:30 on a business day, the walk resumes at 10:59:30,
    the end of the meeting moved forward by the 15 minutes of buffer, and
    the slots it computes keep clear of the meeting.  What
    [get_available_slots] returns for the first of them is the text
    ['10:59 AM'], its seconds dropped: the slot that text names, from
    10:59 to 11:59, meets the meeting's end moved forward by the buffer
    (at 10:59:00).  The claim fails on the returned slots. *)
Theorem returned_slot_starts_inside_buffer :
  result (available_slot_times settings meeting_off_the_minute 10 (at_ monday 8 0) 60)
  = Some [at_ monday 10 59 + 30 * 1000000; at_ monday 11 59 + 30 * 1000000;
          at_ monday 12 59 + 30 * 1000000; at_ monday 13 59 + 30 * 1000000;
          at_ monday 14 59 + 30 * 1000000; at_ monday 15 59 + 30 * 1000000] /\
  result (get_available_slots settings meeting_off_the_minute 10 (at_ monday 8 0) 60)
  = Some ["10:59 AM"; "11:59 AM"; "12:59 PM"; "01:59 PM"; "02:59 PM";
          "03:59 PM"]%string /\
  slot_named (at_ monday 8 0) "10:59 AM" (at_ monday 10 59) /\
  intersects (at_ monday 10 59) (at_ monday 10 59 + minutes 60)
    (at_ monday 10 0)
    (at_ monday 10 44 + 30 * 1000000 + minutes (BOOKING_BUFFER_MINUTES settings)) /\
  ~ returned_slots_clear settings meeting_off_the_minute 10 (at_ monday 8 0) 60.
Proof.
  assert (Hnamed : slot_named (at_ monday 8 0) "10:59 AM" (at_ monday 10 59))
    by (exists 10, 59; repeat split; try lia; reflexivity).
  assert (Hmeets : intersects (at_ monday 10 59) (at_ monday 10 59 + minutes 60)
                     (at_ monday 10 0)
                     (at_ monday 10 44 + 30 * 1000000
                      + minutes (BOOKING_BUFFER_MINUTES settings)))
    by (exists (at_ monday 10 59); vm_compute; repeat split; discriminate).
  split; [reflexivity|]. split; [reflexivity|].
  split; [exact Hnamed|]. split; [exact Hmeets|].
  intros H.
  apply (H (at_ monday 9 0) (at_ monday 17 0)
           [busy_event "confirmed" (at_ monday 10 0) (at_ monday 10 44 + 30 * 1000000)]
           ["10:59 AM"; "11:59 AM"; "12:59 PM"; "01:59 PM"; "02:59 PM"; "03:59 PM"]%string
           eq_refl eq_refl eq_refl eq_refl
           "10:59 AM"%string (at_ monday 10 59)
           (busy_event "confirmed" (at_ monday 10 0) (at_ monday 10 44 + 30 * 1000000))
           (at_ monday 10 0) (at_ monday 10 44 + 30 * 1000000)).
  - left. reflexivity.
  - exact Hnamed.
  - left. reflexivity.
  - discriminate.
  - reflexivity.
  - reflexivity.
  - exact Hmeets.
Qed.



Lemma no_conflict_false_iff events :
  no_conflict events = false <-> exists ev, In ev events /\ not_cancelled ev = true.
Proof.
  induction events as [|e events IH]; simpl.
  - split; [discriminate | intros (? & [] & _)].
  - destruct (not_cancelled e) eqn:Hnc.
    + split; [intros _; exists e; auto | reflexivity].
    + rewrite IH. split.
      * intros (ev & Hin & H). exists ev. auto.
      * intros (ev & [<-|Hin] & H); [congruence | exists ev; auto].
Qed.

Lemma no_conflict_false_iff_live events :
  no_conflict events = false <-> exists ev, In ev events /\ live ev.
Proof.
  rewrite no_conflict_false_iff. split; intros (ev & Hin & H); exists ev;
    (split; [exact Hin | now apply not_cancelled_live]).
Qed.

(** C4, as stated, fails on a listing that holds a confirmed event lying
    outside the window asked for: [check_availability] answers [False] for
    13:00-14:00 although no listed event overlaps that window. *)
Lemma listed_event_outside_window_blocks :
  ~ false_iff_live_overlap
      (store_listing [busy_event "confirmed" (at_ monday 10 0) (at_ monday 11 0)])
      (at_ monday 13 0) (at_ monday 14 0).
Proof.
  intros H.
  destruct (proj1 (H [busy_event "confirmed" (at_ monday 10 0) (at_ monday 11 0)]
                     eq_refl) eq_refl)
    as (ev & [<-|[]] & _ & bs & be & [= <-] & [= <-] & _ & Hlate).
  vm_compute in Hlate. discriminate Hlate.
Qed.

(** C4, amended.  When the store answers the query for the window
    [[s, e)] with a list of events, [check_availability] returns [False]
    exactly when one of the listed events has a status other than
    ['cancelled']: it tests the status alone and leaves the overlap to the
    query.  So it returns [True] when no event is listed and when every
    listed event is cancelled; and when the listed events all occupy part
    of the window, it returns [False] exactly when a listed event that is
    not cancelled overlaps [[s, e)]. *)
Theorem check_availability_false_iff_conflict st s e events :
  events_list st s e = Ok events ->
  (result (check_availability st s e) = false <->
   exists ev, In ev events /\ live ev) /\
  (events = [] -> result (check_availability st s e) = true) /\
  ((forall ev, In ev events -> ev_status ev = Some "cancelled"%string) ->
   result (check_availability st s e) = true) /\
  ((forall ev, In ev events -> overlaps_window s e ev) ->
   (result (check_availability st s e) = false <->
    exists ev, In ev events /\ live ev /\ overlaps_window s e ev)).
Proof.
  intros Hev.
  assert (Hres : result (check_availability st s e) = no_conflict events).
  { unfold result, run, check_availability, bind, list_events. now rewrite Hev. }
  rewrite Hres. split; [apply no_conflict_false_iff_live|].
  split; [intros ->; reflexivity|]. split.
  - intros Hall. destruct (no_conflict events) eqn:Hnc; [reflexivity|].
    apply no_conflict_false_iff_live in Hnc as (ev & Hin & Hlive).
    now contradiction Hlive; apply Hall.
  - intros Hcontract. rewrite no_conflict_false_iff_live. split.
    + intros (ev & Hin & Hlive). exists ev. auto.
    + intros (ev & Hin & Hlive & _). exists ev. auto.
Qed.

(** Scenario B: with the meeting of Scenario A in the store, 10:30-11:30
    is not available. *)
Lemma check_availability_false_iff_conflict_witness :
  (result (check_availability scenario_A (at_ monday 10 30) (at_ monday 11 30)) = false <->
   exists ev,
     In ev [busy_event "confirmed" (at_ monday 10 0) (at_ monday 11 0)] /\ live ev) /\
  ([busy_event "confirmed" (at_ monday 10 0) (at_ monday 11 0)] = [] ->
   result (check_availability scenario_A (at_ monday 10 30) (at_ monday 11 30)) = true) /\
  ((forall ev,
      In ev [busy_event "confirmed" (at_ monday 10 0) (at_ monday 11 0)] ->
      ev_status ev = Some "cancelled"%string) ->
   result (check_availability scenario_A (at_ monday 10 30) (at_ monday 11 30)) = true) /\
  ((forall ev,
      In ev [busy_event "confirmed" (at_ monday 10 0) (at_ monday 11 0)] ->
      overlaps_window (at_ monday 10 30) (at_ monday 11 30) ev) ->
   (result (check_availability scenario_A (at_ monday 10 30) (at_ monday 11 30)) = false <->
    exists ev,
      In ev [busy_event "confirmed" (at_ monday 10 0) (at_ monday 11 0)] /\
      live ev /\ overlaps_window (at_ monday 10 30) (at_ monday 11 30) ev)).
Proof.
  apply (check_availability_false_iff_conflict scenario_A
           (at_ monday 10 30) (at_ monday 11 30)
           [busy_event "confirmed" (at_ monday 10 0) (at_ monday 11 0)]).
  reflexivity.
Defined.

End AvailabilityClaims.

(** ** Claims about the tools and the dispatcher *)
Section ToolClaims.
Import Clock Config Json Store CalendarService Tools Agent Spec.

Lemma get_available_slots_result cfg st fuel date dur log :
  fst (get_available_slots cfg st fuel date dur log)
  = result (get_available_slots cfg st fuel date dur).
Proof.
  unfold result, run. now rewrite !get_available_slots_fst.
Qed.

Lemma get_available_slots_total cfg st date dur :
  0 < dur ->
  exists fuel slots,
    forall fuel', (fuel <= fuel')%nat ->
      result (get_available_slots cfg st fuel' date dur) = Some slots.
Proof.
  intros Hdur.
  destruct (available_slot_times_total cfg st date dur Hdur) as (fuel & slots & H).
  exists fuel, (List.map strftime_I_M_p slots). intros fuel' Hle.
  unfold result, run. rewrite get_available_slots_fst, (H fuel' Hle). reflexivity.
Qed.

(** The scan over the days [a, a+1, ..., a+n-1] after the preferred date. *)
Lemma scan_days_spec cfg st fuel date dur n :
  forall a log answer,
    fst (scan_days cfg st fuel date dur (List.map Z.of_nat (seq a n)) log)
      = Some answer ->
    match answer with
    | NextAvailable next_slot search_date =>
        exists i rest,
          Z.of_nat a <= i < Z.of_nat a + Z.of_nat n /\
          search_date = date + days i /\
          result (get_available_slots cfg st fuel search_date dur)
            = Some (next_slot :: rest) /\
          forall j, Z.of_nat a <= j < i ->
            result (get_available_slots cfg st fuel (date + days j) dur) = Some []
    | NoneInNext7Days =>
        forall i, Z.of_nat a <= i < Z.of_nat a + Z.of_nat n ->
          result (get_available_slots cfg st fuel (date + days i) dur) = Some []
    end.
Proof.
  induction n as [|n IH]; intros a log answer; simpl.
  - intros [= <-]. intros i Hi. lia.
  - unfold bind at 1.
    pose proof (get_available_slots_result cfg st fuel
                  (date + days (Z.of_nat a)) dur log) as Hfst.
    destruct (get_available_slots cfg st fuel (date + days (Z.of_nat a)) dur log)
      as [[[|next_slot rest]|] log'] eqn:Hget; simpl in Hfst.
    + intros H. apply IH in H. destruct answer as [next_slot search_date|].
      * destruct H as (i & rest & Hi & Hd & Hr & Hbefore).
        exists i, rest. repeat split; [lia|lia|exact Hd|exact Hr|].
        intros j Hj. destruct (Z.eq_dec j (Z.of_nat a)) as [->|Hne];
          [now rewrite <- Hfst | apply Hbefore; lia].
      * intros i Hi. destruct (Z.eq_dec i (Z.of_nat a)) as [->|Hne];
          [now rewrite <- Hfst | apply H; lia].
    + intros [= <-]. exists (Z.of_nat a), rest.
      repeat split; [lia|lia|now rewrite <- Hfst|]. intros j Hj. lia.
    + discriminate.
Qed.

Lemma scan_days_total cfg st date dur indices :
  0 < dur ->
  exists fuel answer,
    forall fuel' log, (fuel <= fuel')%nat ->
      fst (scan_days cfg st fuel' date dur indices log) = Some answer.
Proof.
  intros Hdur. induction indices as [|i indices IH]; simpl.
  - exists 0%nat, NoneInNext7Days. reflexivity.
  - destruct (get_available_slots_total cfg st (date + days i) dur Hdur)
      as (f1 & slots & H1).
    destruct IH as (f2 & answer & H2).
    destruct slots as [|next_slot rest].
    + exists (Nat.max f1 f2), answer. intros fuel' log Hle. unfold bind.
      pose proof (get_available_slots_result cfg st fuel' (date + days i) dur log) as Hfst.
      rewrite (H1 fuel') in Hfst by lia.
      destruct (get_available_slots cfg st fuel' (date + days i) dur log) as [r log'].
      simpl in Hfst. subst r. apply H2. lia.
    + exists f1, (NextAvailable next_slot (date + days i)). intros fuel' log Hle.
      unfold bind.
      pose proof (get_available_slots_result cfg st fuel' (date + days i) dur log) as Hfst.
      rewrite (H1 fuel') in Hfst by lia.
      destruct (get_available_slots cfg st fuel' (date + days i) dur log) as [r log'].
      simpl in Hfst. subst r. reflexivity.
Qed.

(** C6, as stated, fails: with the configured horizon of 30 days and the
    first week taken, the search reports that nothing was found although
    the eighth day, well inside the horizon, has free slots. *)
Lemma configured_horizon_not_searched :
  ~ searches_configured_horizon settings week_taken 10 (at_ monday 0 0) 60.
Proof.
  intros H.
  assert (Hnone : result (find_next_available_slot settings week_taken 10
                            (at_ monday 0 0) 60) = Some NoneInNext7Days)
    by (vm_compute; reflexivity).
  specialize (H _ Hnone 7 ltac:(simpl; lia)).
  vm_compute in H. discriminate.
Qed.

(** C6, amended.  [find_next_available_slot] scans the seven consecutive
    days that start at the preferred date (the configured search horizon
    is not consulted), answers with the first slot of the first of these
    days for which [get_available_slots] returns a non-empty list, and
    answers that nothing was found only when all seven days came back
    empty.  For a positive duration it does answer, given enough fuel. *)
Theorem next_available_scans_seven_days cfg st fuel date dur :
  (forall answer,
     result (find_next_available_slot cfg st fuel date dur) = Some answer ->
     first_slot_within 7 cfg st fuel date dur answer) /\
  (0 < dur ->
   exists fuel0 answer, forall fuel', (fuel0 <= fuel')%nat ->
     result (find_next_available_slot cfg st fuel' date dur) = Some answer).
Proof.
  split.
  - intros answer H. unfold result, run, find_next_available_slot, range in H.
    apply scan_days_spec in H. destruct answer; exact H.
  - intros Hdur.
    destruct (scan_days_total cfg st date dur (range 7) Hdur) as (fuel0 & answer & H).
    exists fuel0, answer. intros fuel' Hle. apply H, Hle.
Qed.

Lemma next_available_scans_seven_days_witness :
  first_slot_within 7 settings scenario_A 10 (at_ monday 0 0) 60
    (NextAvailable "11:15 AM" (at_ monday 0 0)) /\
  exists fuel0 answer, forall fuel', (fuel0 <= fuel')%nat ->
    result (find_next_available_slot settings scenario_A fuel' (at_ monday 0 0) 60)
    = Some answer.
Proof.
  split.
  - apply (proj1 (next_available_scans_seven_days settings scenario_A 10
                    (at_ monday 0 0) 60)).
    reflexivity.
  - apply (proj2 (next_available_scans_seven_days settings scenario_A 10
                    (at_ monday 0 0) 60)).
    lia.
Defined.

Lemma missing_not_truthy entities key :
  missing entities key -> truthy (get entities key) = false.
Proof. unfold get. now intros [->| ->]. Qed.

(** C9.  When the date or the time is absent from the entity bag or null,
    dispatching [book_appointment] or [check_availability] answers with
    the fixed request for both a date and a time, and the log of store
    calls comes back unchanged: no call of any kind was made. *)
Theorem missing_date_or_time_asks_for_both
    env st suggest listing intent entities log :
  intent = "book_appointment"%string \/ intent = "check_availability"%string ->
  missing entities "date" \/ missing entities "time" ->
  _use_tools env st suggest listing intent entities log
  = (Fixed (if String.eqb intent "book_appointment"
            then need_date_and_time_to_book
            else need_date_and_time_to_check), log).
Proof.
  intros Hintent Hmissing.
  assert (Hor : negb (truthy (get entities "date"))
                || negb (truthy (get entities "time")) = true).
  { destruct Hmissing as [H|H]; apply missing_not_truthy in H; rewrite H;
      [reflexivity | apply orb_true_r]. }
  destruct Hintent as [-> | ->]; unfold _use_tools; simpl;
    [unfold _handle_booking | unfold _handle_availability_check];
    now rewrite Hor.
Qed.

Lemma missing_date_or_time_asks_for_both_witness :
  _use_tools {| now := at_ monday 8 0; strptime := fun _ _ => None;
                dateutil_parse := fun _ => None |}
    scenario_A (fun _ => ret (Other "")) (fun _ => ret (Other ""))
    "book_appointment" (<["time" := JStr "14:00"]> ∅) []
  = (Fixed need_date_and_time_to_book, []).
Proof.
  apply (missing_date_or_time_asks_for_both
           {| now := at_ monday 8 0; strptime := fun _ _ => None;
              dateutil_parse := fun _ => None |}
           scenario_A (fun _ => ret (Other "")) (fun _ => ret (Other ""))
           "book_appointment" (<["time" := JStr "14:00"]> ∅) []).
  - left. reflexivity.
  - left. left. reflexivity.
Defined.

(** C10.  When listing the window [[s, e)] makes the store raise,
    [check_availability] returns [False] (it has no other way out than a
    boolean), and a booking for that window answers that the slot is not
    available after that one listing call: no insertion is attempted. *)
Theorem store_read_failure_means_not_available st s e :
  events_list st s e = Raised ->
  (forall log, CalendarService.check_availability st s e log
               = (false, log ++ [CallList s e])) /\
  (forall title d description log,
     e = s + minutes d ->
     book_appointment st title s (JInt d) description log
     = (BookingNotAvailable s, log ++ [CallList s e]) /\
     List.filter is_insert (calls (book_appointment st title s (JInt d) description))
     = []).
Proof.
  intros Hraise.
  assert (Hcheck : forall log, CalendarService.check_availability st s e log
                               = (false, log ++ [CallList s e])).
  { intros log. unfold CalendarService.check_availability, bind, list_events.
    now rewrite Hraise. }
  split; [exact Hcheck|].
  intros title d description log ->.
  assert (Hbook : forall log', book_appointment st title s (JInt d) description log'
                  = (BookingNotAvailable s, log' ++ [CallList s (s + minutes d)])).
  { intros log'. unfold book_appointment. simpl. unfold bind at 1.
    now rewrite Hcheck. }
  split; [apply Hbook|].
  unfold calls, run. now rewrite Hbook.
Qed.

Lemma store_read_failure_means_not_available_witness :
  (forall log, CalendarService.check_availability failing_store
                 (at_ monday 10 0) (at_ monday 11 0) log
               = (false, log ++ [CallList (at_ monday 10 0) (at_ monday 11 0)])) /\
  (forall title d description log,
     at_ monday 11 0 = at_ monday 10 0 + minutes d ->
     book_appointment failing_store title (at_ monday 10 0) (JInt d) description log
     = (BookingNotAvailable (at_ monday 10 0),
        log ++ [CallList (at_ monday 10 0) (at_ monday 11 0)]) /\
     List.filter is_insert
       (calls (book_appointment failing_store title (at_ monday 10 0) (JInt d)
                 description))
     = []).
Proof.
  apply (store_read_failure_means_not_available failing_store
           (at_ monday 10 0) (at_ monday 11 0)).
  reflexivity.
Defined.

End ToolClaims.

(** ** Strings: occurrence, and strings of decimal digits *)
Section DigitStrings.
Import Py Spec.

Lemma starts_with_spec p s :
  starts_with p s = true <-> exists after, s = (p ++ after)%string.
Proof.
  revert s. induction p as [|a p IH]; intros s; simpl.
  - split; [intros _; exists s; reflexivity | reflexivity].
  - destruct s as [|b s].
    + split; [discriminate | intros (after & H); discriminate].
    + rewrite andb_true_iff, Ascii.eqb_eq, IH. split.
      * intros (-> & after & ->). exists after. reflexivity.
      * intros (after & [= -> ->]). split; [reflexivity | exists after; reflexivity].
Qed.

(** [contains] decides occurrence as a substring. *)
Lemma contains_spec needle hay :
  contains needle hay = true <-> occurs needle hay.
Proof.
  unfold occurs. induction hay as [|c hay IH].
  - simpl. rewrite orb_false_r, starts_with_spec. split.
    + intros (after & H). exists EmptyString, after. exact H.
    + intros ([|? ?] & after & H); [exists after; exact H | discriminate].
  - change (contains needle (String c hay))
      with (starts_with needle (String c hay) || contains needle hay).
    rewrite orb_true_iff, starts_with_spec, IH. split.
    + intros [(after & H)|(before & after & H)].
      * exists EmptyString, after. exact H.
      * exists (String c before), after. simpl. now rewrite H.
    + intros ([|c' before] & after & H).
      * left. exists after. exact H.
      * right. injection H as -> ->. exists before, after. reflexivity.
Qed.

Lemma digit_facts c :
  is_digit c = true ->
  is_space c = false /\ lower_char c = c /\
  Ascii.eqb c ":" = false /\ Ascii.eqb ":" c = false /\
  Ascii.eqb "p" c = false /\ Ascii.eqb "a" c = false /\
  Ascii.eqb c "-" = false /\ Ascii.eqb c "+" = false.
Proof.
  destruct c as [[] [] [] [] [] [] [] []]; vm_compute; intros H;
    try discriminate H; repeat split; reflexivity.
Qed.

Lemma string_app_cons x a b : (String x a ++ b)%string = String x (a ++ b).
Proof. reflexivity. Qed.

Lemma string_app_assoc a b c :
  ((a ++ b) ++ c)%string = (a ++ (b ++ c))%string.
Proof.
  induction a as [|x a IH]; [reflexivity|].
  now rewrite !string_app_cons, IH.
Qed.

Lemma string_app_nil a : (a ++ EmptyString)%string = a.
Proof.
  induction a as [|x a IH]; [reflexivity|].
  now rewrite string_app_cons, IH.
Qed.

Lemma string_length_app a b :
  String.length (a ++ b)%string = (String.length a + String.length b)%nat.
Proof.
  induction a as [|x a IH]; [reflexivity|].
  rewrite string_app_cons. cbn [String.length]. now rewrite IH.
Qed.

Lemma all_chars_app P a b :
  all_chars P (a ++ b)%string = all_chars P a && all_chars P b.
Proof.
  induction a as [|c a IH]; [reflexivity|].
  rewrite string_app_cons. cbn [all_chars]. now rewrite IH, andb_assoc.
Qed.

Lemma all_chars_impl (P Q : ascii -> bool) s :
  (forall c, P c = true -> Q c = true) ->
  all_chars P s = true -> all_chars Q s = true.
Proof.
  intros HPQ. induction s as [|c s IH]; simpl; [reflexivity|].
  rewrite !andb_true_iff. intros [Hc Hs]. auto.
Qed.

Lemma lower_app a b : lower (a ++ b)%string = (lower a ++ lower b)%string.
Proof.
  induction a as [|c a IH]; [reflexivity|].
  rewrite string_app_cons. cbn [lower]. now rewrite IH.
Qed.

Lemma lower_digits s : all_chars is_digit s = true -> lower s = s.
Proof.
  induction s as [|c s IH]; simpl; [reflexivity|].
  rewrite andb_true_iff. intros [Hc Hs].
  destruct (digit_facts c Hc) as (_ & -> & _). now rewrite IH.
Qed.

Lemma rstrip_no_space s :
  all_chars (fun c => negb (is_space c)) s = true -> rstrip s = s.
Proof.
  induction s as [|c s IH]; simpl; [reflexivity|].
  rewrite andb_true_iff, negb_true_iff. intros [Hc Hs].
  rewrite (IH Hs), Hc. now destruct s.
Qed.

Lemma rstrip_app_keep a b :
  rstrip b <> EmptyString -> rstrip (a ++ b)%string = (a ++ rstrip b)%string.
Proof.
  intros Hb. induction a as [|c a IH]; [reflexivity|].
  change (rstrip (String c (a ++ b)) = String c (a ++ rstrip b))%string.
  simpl rstrip. rewrite IH. destruct (a ++ rstrip b)%string eqn:Hab; [|reflexivity].
  destruct a; [contradiction | discriminate].
Qed.

Lemma rstrip_app_drop a b :
  rstrip b = EmptyString -> rstrip (a ++ b)%string = rstrip a.
Proof.
  intros Hb. induction a as [|c a IH]; simpl; [exact Hb | now rewrite IH].
Qed.

Lemma digits_no_space s :
  all_chars is_digit s = true -> all_chars (fun c => negb (is_space c)) s = true.
Proof.
  apply all_chars_impl. intros c Hc.
  destruct (digit_facts c Hc) as (-> & _). reflexivity.
Qed.

(** A needle whose first character does not occur is not contained. *)
Lemma contains_without_first f needle s :
  all_chars (fun c => negb (Ascii.eqb f c)) s = true ->
  contains (String f needle) s = false.
Proof.
  induction s as [|c s IH]; [reflexivity|].
  change (all_chars (fun c => negb (Ascii.eqb f c)) (String c s))
    with (negb (Ascii.eqb f c) && all_chars (fun c => negb (Ascii.eqb f c)) s).
  rewrite andb_true_iff, negb_true_iff. intros [Hc Hs].
  change (contains (String f needle) (String c s))
    with (Ascii.eqb f c && starts_with needle s || contains (String f needle) s).
  now rewrite Hc, (IH Hs).
Qed.

Lemma replace_without_first f old new s t :
  all_chars (fun c => negb (Ascii.eqb f c)) s = true ->
  replace_from (String f old) new 0 (s ++ t)%string
  = (s ++ replace_from (String f old) new 0 t)%string.
Proof.
  induction s as [|c s IH]; [reflexivity|].
  change (all_chars (fun c => negb (Ascii.eqb f c)) (String c s))
    with (negb (Ascii.eqb f c) && all_chars (fun c => negb (Ascii.eqb f c)) s).
  rewrite andb_true_iff, negb_true_iff. intros [Hc Hs].
  change (replace_from (String f old) new 0 (String c s ++ t)%string)
    with (if Ascii.eqb f c && starts_with old (s ++ t)%string
          then (new ++ replace_from (String f old) new
                         (String.length (String f old) - 1) (s ++ t)%string)%string
          else String c (replace_from (String f old) new 0 (s ++ t)%string)).
  rewrite Hc. simpl. now rewrite (IH Hs).
Qed.

Lemma split_without_sep sep s :
  all_chars (fun c => negb (Ascii.eqb c sep)) s = true -> split sep s = [s].
Proof.
  induction s as [|c s IH]; simpl; [reflexivity|].
  rewrite andb_true_iff, negb_true_iff. intros [Hc Hs].
  now rewrite Hc, (IH Hs).
Qed.

Lemma split_at_sep sep s t :
  all_chars (fun c => negb (Ascii.eqb c sep)) s = true ->
  split sep (s ++ String sep t)%string = s :: split sep t.
Proof.
  induction s as [|c s IH]; simpl.
  - intros _. now rewrite Ascii.eqb_refl.
  - rewrite andb_true_iff, negb_true_iff. intros [Hc Hs].
    now rewrite Hc, (IH Hs).
Qed.

Lemma int_digits_value s :
  all_chars is_digit s = true ->
  forall acc, int_digits acc true s = Some (digits_value acc s).
Proof.
  induction s as [|c s IH]; simpl; [reflexivity|].
  rewrite andb_true_iff. intros [Hc Hs] acc. rewrite Hc. apply IH, Hs.
Qed.

Lemma int_space_is_space c : is_int_space c = true -> is_space c = true.
Proof.
  unfold is_int_space, is_space. intros H.
  apply orb_true_iff in H as [H|H]; [now rewrite H|].
  apply Nat.eqb_eq in H. unfold between. rewrite H. apply orb_true_r.
Qed.

Lemma not_space_not_int_space c : is_space c = false -> is_int_space c = false.
Proof.
  intros H. destruct (is_int_space c) eqn:Hc; [|reflexivity].
  apply int_space_is_space in Hc. congruence.
Qed.

Lemma rstrip_int_no_space s :
  all_chars (fun c => negb (is_space c)) s = true -> rstrip_int s = s.
Proof.
  induction s as [|c s IH]; simpl; [reflexivity|].
  rewrite andb_true_iff, negb_true_iff. intros [Hc Hs].
  rewrite (IH Hs), (not_space_not_int_space c Hc). now destruct s.
Qed.

(** [int] reads a non-empty string of digits as the number it denotes. *)
Lemma int_of_digits s :
  all_chars is_digit s = true -> s <> EmptyString ->
  Py.int s = Some (digits_value 0 s).
Proof.
  intros Hs Hne. unfold Py.int.
  destruct s as [|c s]; [contradiction|].
  simpl in Hs. apply andb_true_iff in Hs as [Hc Hs].
  destruct (digit_facts c Hc) as (Hsp & _ & _ & _ & _ & _ & Hminus & Hplus).
  assert (Hstrip : rstrip_int (lstrip_int (String c s)) = String c s).
  { simpl lstrip_int. rewrite (not_space_not_int_space c Hsp).
    apply rstrip_int_no_space. simpl.
    rewrite Hsp. simpl. now apply digits_no_space. }
  rewrite Hstrip.
  assert (Hint : int_digits 0 false (String c s) = Some (digits_value 0 (String c s))).
  { simpl. rewrite Hc. now apply int_digits_value. }
  destruct c as [[] [] [] [] [] [] [] []]; try discriminate Hminus;
    try discriminate Hplus; exact Hint.
Qed.

Lemma digits_value_app a b acc :
  digits_value acc (a ++ b)%string = digits_value (digits_value acc a) b.
Proof.
  revert acc. induction a as [|c a IH]; intros acc; simpl; [reflexivity | apply IH].
Qed.

Lemma digit_char_is_digit d : (d < 10)%nat -> is_digit (digit_char d) = true.
Proof.
  intros H. do 10 (destruct d as [|d]; [reflexivity|]). lia.
Qed.

Lemma digit_char_value d : (d < 10)%nat -> digit_value (digit_char d) = Z.of_nat d.
Proof.
  intros H. do 10 (destruct d as [|d]; [reflexivity|]). lia.
Qed.

Lemma decimal_from_step fuel n tail :
  decimal_from (S fuel) n tail
  = if (n <? 10)%nat then String (digit_char (n mod 10)) tail
    else decimal_from fuel (n / 10) (String (digit_char (n mod 10)) tail).
Proof. reflexivity. Qed.

(** The digits [decimal_from] puts in front of [tail]. *)
Lemma decimal_from_spec fuel :
  forall n tail, (n < fuel)%nat ->
    exists ds,
      decimal_from fuel n tail = (ds ++ tail)%string /\
      all_chars is_digit ds = true /\ ds <> EmptyString /\
      forall acc, digits_value acc ds
                  = acc * 10 ^ Z.of_nat (String.length ds) + Z.of_nat n.
Proof.
  induction fuel as [|fuel IH]; intros n tail Hn; [lia|].
  rewrite decimal_from_step.
  assert (Hmod : (n mod 10 < 10)%nat) by (apply Nat.mod_upper_bound; lia).
  destruct (Nat.ltb_spec n 10) as [Hlt|Hge].
  - exists (String (digit_char (n mod 10)) EmptyString).
    cbn [all_chars digits_value String.length String.append].
    rewrite digit_char_is_digit, digit_char_value by exact Hmod.
    rewrite Nat.mod_small by exact Hlt.
    repeat split; [discriminate|]. intros acc.
    change (10 ^ Z.of_nat 1) with 10. lia.
  - assert (Hdiv : (n / 10 < fuel)%nat).
    { pose proof (Nat.div_lt n 10). lia. }
    destruct (IH (n / 10)%nat (String (digit_char (n mod 10)) tail) Hdiv)
      as (ds & Heq & Hall & Hne & Hval).
    exists (ds ++ String (digit_char (n mod 10)) EmptyString)%string.
    repeat split.
    + rewrite Heq. now rewrite string_app_assoc.
    + rewrite all_chars_app, Hall.
      cbn [all_chars]. now rewrite digit_char_is_digit.
    + destruct ds; [contradiction | discriminate].
    + intros acc. rewrite digits_value_app, Hval.
      cbn [digits_value].
      rewrite digit_char_value by exact Hmod.
      rewrite string_length_app. cbn [String.length].
      rewrite Nat2Z.inj_add, Z.pow_add_r by lia.
      change (10 ^ Z.of_nat 1) with 10.
      pose proof (Nat.div_mod_eq n 10) as Hdm.
      assert (Z.of_nat n = 10 * Z.of_nat (n / 10) + Z.of_nat (n mod 10)) by lia.
      lia.
Qed.

(** [decimal n] is a non-empty string of digits denoting [n]. *)
Lemma decimal_spec n :
  all_chars is_digit (decimal n) = true /\ decimal n <> EmptyString /\
  digits_value 0 (decimal n) = Z.of_nat n.
Proof.
  unfold decimal.
  destruct (decimal_from_spec (S n) n EmptyString ltac:(lia))
    as (ds & Heq & Hall & Hne & Hval).
  assert (Hds : decimal_from (S n) n EmptyString = ds).
  { rewrite Heq. apply string_app_nil. }
  rewrite Hds. repeat split; auto.
Qed.

Lemma int_decimal n : Py.int (decimal n) = Some (Z.of_nat n).
Proof.
  destruct (decimal_spec n) as (Hall & Hne & Hval).
  rewrite int_of_digits by assumption. now rewrite Hval.
Qed.

End DigitStrings.

(** ** Time fragments *)
Section TimeFragments.
Import Py Json Clock Agent Spec.

Lemma strip_id c s :
  is_space c = false -> rstrip (String c s) = String c s ->
  strip (String c s) = String c s.
Proof.
  intros Hc Hr. unfold strip. cbn [lstrip]. now rewrite Hc.
Qed.

Lemma truthy_nonempty s : s <> EmptyString -> truthy (JStr s) = true.
Proof. destruct s; [contradiction | reflexivity]. Qed.

Lemma digits_without f :
  (forall d, is_digit d = true -> Ascii.eqb f d = false) ->
  forall s, all_chars is_digit s = true ->
    all_chars (fun c => negb (Ascii.eqb f c)) s = true.
Proof.
  intros Hf s. apply all_chars_impl. intros d Hd. now rewrite (Hf d Hd).
Qed.

Lemma no_p d : is_digit d = true -> Ascii.eqb "p" d = false.
Proof. intros H. now destruct (digit_facts d H) as (_ & _ & _ & _ & -> & _). Qed.

Lemma no_a d : is_digit d = true -> Ascii.eqb "a" d = false.
Proof. intros H. now destruct (digit_facts d H) as (_ & _ & _ & _ & _ & -> & _). Qed.

Lemma no_colon d : is_digit d = true -> Ascii.eqb ":" d = false.
Proof. intros H. now destruct (digit_facts d H) as (_ & _ & _ & -> & _). Qed.

Lemma digits_without_colon s :
  all_chars is_digit s = true ->
  all_chars (fun c => negb (Ascii.eqb c ":")) s = true.
Proof.
  apply all_chars_impl. intros d Hd.
  now destruct (digit_facts d Hd) as (_ & _ & -> & _).
Qed.

(** A non-empty string that starts with a digit and has no space is left
    alone by [strip]. *)
Lemma strip_spaceless s :
  (exists c t, s = String c t /\ is_digit c = true) ->
  all_chars (fun c => negb (is_space c)) s = true -> strip s = s.
Proof.
  intros (c & t & -> & Hc) Hs. apply strip_id.
  - now destruct (digit_facts c Hc) as (-> & _).
  - now apply rstrip_no_space.
Qed.

Lemma digits_head ds :
  all_chars is_digit ds = true -> ds <> EmptyString ->
  forall rest, exists c t, (ds ++ rest)%string = String c t /\ is_digit c = true.
Proof.
  intros Hall Hne rest. destruct ds as [|c s]; [contradiction|].
  cbn [all_chars] in Hall. apply andb_true_iff in Hall as [Hc _].
  exists c, (s ++ rest)%string. split; [reflexivity | exact Hc].
Qed.

(** Two numbers around a colon are read as hour and minute. *)
Lemma parse_colon hs ms :
  all_chars is_digit hs = true -> hs <> EmptyString ->
  all_chars is_digit ms = true -> ms <> EmptyString ->
  _parse_time_component (JStr (hs ++ ":" ++ ms))
  = time_replace (digits_value 0 hs) (digits_value 0 ms).
Proof.
  intros Hh Hhne Hm Hmne. unfold _parse_time_component.
  assert (Hne : (hs ++ ":" ++ ms)%string <> EmptyString)
    by (destruct hs; [contradiction | discriminate]).
  rewrite truthy_nonempty by exact Hne. cbn [negb].
  rewrite !lower_app, (lower_digits hs), (lower_digits ms) by assumption.
  change (lower ":") with ":"%string.
  assert (Hstrip : strip (hs ++ ":" ++ ms) = (hs ++ ":" ++ ms)%string).
  { apply strip_spaceless; [now apply digits_head|].
    rewrite !all_chars_app, (digits_no_space hs), (digits_no_space ms) by assumption.
    reflexivity. }
  rewrite Hstrip.
  rewrite (contains_without_first "p" "m")
    by (rewrite !all_chars_app, (digits_without "p" no_p hs),
          (digits_without "p" no_p ms) by assumption; reflexivity).
  rewrite (contains_without_first "a" "m")
    by (rewrite !all_chars_app, (digits_without "a" no_a hs),
          (digits_without "a" no_a ms) by assumption; reflexivity).
  cbn [orb].
  replace (contains ":" (hs ++ ":" ++ ms)) with true
    by (symmetry; apply contains_spec; exists hs, ms; reflexivity).
  unfold hour_minute.
  change (hs ++ ":" ++ ms)%string with (hs ++ String ":" ms)%string.
  rewrite split_at_sep by (now apply digits_without_colon).
  rewrite split_without_sep by (now apply digits_without_colon).
  now rewrite !int_of_digits.
Qed.

Lemma time_replace_range hour minute r :
  time_replace hour minute = Some r ->
  r = (hour, minute) /\ (0 <= hour <= 23) /\ (0 <= minute <= 59).
Proof.
  unfold time_replace.
  destruct (Z.leb_spec 0 hour), (Z.leb_spec hour 23), (Z.leb_spec 0 minute),
    (Z.leb_spec minute 59); simpl; intros [= <-]; repeat split; lia.
Qed.

Lemma time_replace_nat (h m : nat) :
  time_replace (Z.of_nat h) (Z.of_nat m)
  = if (h <=? 23)%nat && (m <=? 59)%nat
    then Some (Z.of_nat h, Z.of_nat m) else None.
Proof.
  unfold time_replace.
  destruct (Nat.leb_spec h 23), (Nat.leb_spec m 59);
    destruct (Z.leb_spec 0 (Z.of_nat h)), (Z.leb_spec (Z.of_nat h) 23),
      (Z.leb_spec 0 (Z.of_nat m)), (Z.leb_spec (Z.of_nat m) 59);
    simpl; try reflexivity; lia.
Qed.

(** Whatever [_parse_time_component] returns went through the range check
    of [time.replace]. *)
Lemma parse_time_checked v r :
  _parse_time_component v = Some r ->
  exists hour minute, time_replace hour minute = Some r.
Proof.
  unfold _parse_time_component. intros H.
  repeat match type of H with
         | (if ?b then _ else _) = Some _ => destruct b
         | match ?x with _ => _ end = Some _ => destruct x
         | None = Some _ => discriminate H
         end; eauto.
Qed.

Lemma fmt_02d_spec (n : nat) :
  all_chars is_digit (fmt_02d (Z.of_nat n)) = true /\
  fmt_02d (Z.of_nat n) <> EmptyString /\
  digits_value 0 (fmt_02d (Z.of_nat n)) = Z.of_nat n.
Proof.
  destruct (decimal_spec n) as (Hall & Hne & Hval). unfold fmt_02d.
  destruct (Z.ltb_spec (Z.of_nat n) 0); [lia|].
  rewrite Nat2Z.id.
  destruct (Z.of_nat n <? 10); [|auto].
  cbn [all_chars digits_value]. rewrite Hall. repeat split; [discriminate|].
  exact Hval.
Qed.

Lemma time_char_facts c :
  time_char c = true ->
  is_space c = false /\ lower_char c = c /\
  Ascii.eqb "p" c = false /\ Ascii.eqb "a" c = false.
Proof.
  destruct c as [[] [] [] [] [] [] [] []]; vm_compute; intros H;
    try discriminate H; repeat split; reflexivity.
Qed.

Lemma time_chars_lower s : all_chars time_char s = true -> lower s = s.
Proof.
  induction s as [|c s IH]; simpl; [reflexivity|].
  rewrite andb_true_iff. intros [Hc Hs].
  destruct (time_char_facts c Hc) as (_ & -> & _). now rewrite IH.
Qed.

Lemma time_chars_no_space s :
  all_chars time_char s = true -> all_chars (fun c => negb (is_space c)) s = true.
Proof.
  apply all_chars_impl. intros c Hc.
  now destruct (time_char_facts c Hc) as (-> & _).
Qed.

Lemma time_chars_without_p s :
  all_chars time_char s = true ->
  all_chars (fun c => negb (Ascii.eqb "p" c)) s = true.
Proof.
  apply all_chars_impl. intros c Hc.
  now destruct (time_char_facts c Hc) as (_ & _ & -> & _).
Qed.

Lemma time_chars_without_a s :
  all_chars time_char s = true ->
  all_chars (fun c => negb (Ascii.eqb "a" c)) s = true.
Proof.
  apply all_chars_impl. intros c Hc.
  now destruct (time_char_facts c Hc) as (_ & _ & _ & ->).
Qed.

Lemma time_chars_strip s : all_chars time_char s = true -> strip s = s.
Proof.
  intros Hs. destruct s as [|c s]; [reflexivity|].
  apply strip_id.
  - cbn [all_chars] in Hs. apply andb_true_iff in Hs as [Hc _].
    now destruct (time_char_facts c Hc) as (-> & _).
  - now apply rstrip_no_space, time_chars_no_space.
Qed.

(** What the code does with the text of a time once the meridiem is set
    aside: hour and minute around a colon, or the hour alone. *)
Lemma parse_plain body :
  all_chars time_char body = true -> body <> EmptyString ->
  _parse_time_component (JStr body)
  = match (if contains ":" body then hour_minute body
           else match Py.int body with
                | Some hour => Some (hour, 0)
                | None => None
                end) with
    | Some (hour, minute) => time_replace hour minute
    | None => None
    end.
Proof.
  intros Hbody Hne. unfold _parse_time_component.
  rewrite truthy_nonempty by exact Hne. cbn [negb].
  rewrite time_chars_lower, time_chars_strip by exact Hbody.
  rewrite (contains_without_first "p" "m" body) by (now apply time_chars_without_p).
  rewrite (contains_without_first "a" "m" body) by (now apply time_chars_without_a).
  cbn [orb]. destruct (contains ":" body).
  - now destruct (hour_minute body) as [[h m]|].
  - now destruct (Py.int body).
Qed.

(** The same text followed by a meridiem: the hour is shifted, then the
    range is checked. *)
Lemma parse_meridiem body (is_pm : bool) :
  all_chars time_char body = true -> body <> EmptyString ->
  _parse_time_component (JStr (body ++ (if is_pm then " pm" else " am")))
  = match (if contains ":" body then hour_minute body
           else match Py.int body with
                | Some hour => Some (hour, 0)
                | None => None
                end) with
    | Some (hour, minute) => time_replace (shifted is_pm hour) minute
    | None => None
    end.
Proof.
  intros Hbody Hne. unfold _parse_time_component.
  set (suffix := if is_pm then " pm"%string else " am"%string).
  assert (Hsuffix : lower suffix = suffix /\ rstrip suffix <> EmptyString /\
                    suffix <> EmptyString)
    by (subst suffix; destruct is_pm; repeat split; discriminate).
  destruct Hsuffix as (Hlow & Hkeep & Hsne).
  assert (Hne' : (body ++ suffix)%string <> EmptyString)
    by (destruct body; [contradiction | discriminate]).
  rewrite truthy_nonempty by exact Hne'. cbn [negb].
  rewrite lower_app, time_chars_lower, Hlow by exact Hbody.
  assert (Hstrip : strip (body ++ suffix) = (body ++ suffix)%string).
  { destruct body as [|c body]; [contradiction|].
    cbn [all_chars] in Hbody. apply andb_true_iff in Hbody as [Hc Hrest].
    rewrite string_app_cons. apply strip_id.
    - now destruct (time_char_facts c Hc) as (-> & _).
    - rewrite <- string_app_cons. rewrite rstrip_app_keep by exact Hkeep.
      subst suffix. now destruct is_pm. }
  rewrite Hstrip.
  assert (Hpm : contains "pm" (body ++ suffix) = is_pm).
  { subst suffix. destruct is_pm.
    - apply contains_spec. exists (body ++ " ")%string, EmptyString.
      now rewrite string_app_assoc.
    - apply contains_without_first. rewrite all_chars_app.
      now rewrite (time_chars_without_p body Hbody). }
  assert (Ham : contains "pm" (body ++ suffix) || contains "am" (body ++ suffix) = true).
  { rewrite Hpm. subst suffix. destruct is_pm; [reflexivity|].
    apply contains_spec. exists (body ++ " ")%string, EmptyString.
    now rewrite string_app_assoc. }
  rewrite Ham, Hpm.
  assert (Hreplace : replace "am" "" (replace "pm" "" (body ++ suffix))
                     = (body ++ " ")%string).
  { unfold replace.
    rewrite (replace_without_first "p" "m") by (now apply time_chars_without_p).
    subst suffix. destruct is_pm.
    - change (replace_from "pm" "" 0 " pm") with " "%string.
      rewrite (replace_without_first "a" "m") by (now apply time_chars_without_a).
      reflexivity.
    - change (replace_from "pm" "" 0 " am") with " am"%string.
      rewrite (replace_without_first "a" "m") by (now apply time_chars_without_a).
      reflexivity. }
  rewrite Hreplace.
  assert (Hstrip' : strip (body ++ " ") = body).
  { destruct body as [|c body]; [contradiction|].
    pose proof Hbody as Hall.
    cbn [all_chars] in Hbody. apply andb_true_iff in Hbody as [Hc Hrest].
    unfold strip. rewrite string_app_cons. cbn [lstrip].
    destruct (time_char_facts c Hc) as (-> & _). rewrite <- string_app_cons.
    rewrite rstrip_app_drop by reflexivity.
    now apply rstrip_no_space, time_chars_no_space. }
  rewrite Hstrip'.
  unfold shifted.
  destruct (contains ":" body).
  - destruct (hour_minute body) as [[h m]|]; [|reflexivity].
    destruct is_pm; destruct (Z.eqb_spec h 12) as [->|]; reflexivity.
  - destruct (Py.int body) as [h|]; [|reflexivity].
    destruct is_pm; destruct (Z.eqb_spec h 12) as [->|]; reflexivity.
Qed.

Lemma int_digits_nonempty ds :
  all_chars is_digit ds = true -> ds <> EmptyString ->
  int_digits 0 false ds = Some (digits_value 0 ds).
Proof.
  intros Hds Hne. destruct ds as [|c ds]; [contradiction|].
  cbn [all_chars] in Hds. apply andb_true_iff in Hds as [Hc Hds].
  simpl. rewrite Hc. now apply int_digits_value.
Qed.

(** [int] reads [str(z)] back as [z]. *)
Lemma signed_spec z :
  all_chars time_char (signed z) = true /\ signed z <> EmptyString /\
  contains ":" (signed z) = false /\
  all_chars (fun c => negb (Ascii.eqb c ":")) (signed z) = true /\
  Py.int (signed z) = Some z.
Proof.
  assert (Hdigits : forall ds, all_chars is_digit ds = true ->
                               all_chars time_char ds = true).
  { intros ds. apply all_chars_impl. intros c Hc. unfold time_char. now rewrite Hc. }
  unfold signed. destruct (Z.ltb_spec z 0) as [Hneg|Hpos].
  - destruct (decimal_spec (Z.to_nat (- z))) as (Hall & Hne & Hval).
    split; [cbn [all_chars]; now rewrite (Hdigits _ Hall)|].
    split; [discriminate|].
    split; [apply contains_without_first; cbn [all_chars];
            now rewrite (digits_without ":" no_colon _ Hall)|].
    split; [cbn [all_chars]; now rewrite (digits_without_colon _ Hall)|].
    unfold Py.int. cbn [lstrip_int]. change (is_int_space "-") with false. cbn iota.
    rewrite rstrip_int_no_space
      by (cbn [all_chars]; now rewrite (digits_no_space _ Hall)).
    rewrite (int_digits_nonempty _ Hall Hne), Hval. cbn [option_map].
    f_equal. lia.
  - destruct (decimal_spec (Z.to_nat z)) as (Hall & Hne & Hval).
    split; [now apply Hdigits|]. split; [exact Hne|].
    split; [apply contains_without_first; now apply (digits_without ":" no_colon)|].
    split; [now apply digits_without_colon|].
    rewrite int_of_digits by assumption. rewrite Hval. f_equal. lia.
Qed.

Lemma hour_minute_signed z (m : nat) :
  all_chars time_char (signed z ++ ":" ++ decimal m) = true /\
  (signed z ++ ":" ++ decimal m)%string <> EmptyString /\
  contains ":" (signed z ++ ":" ++ decimal m) = true /\
  hour_minute (signed z ++ ":" ++ decimal m) = Some (z, Z.of_nat m).
Proof.
  destruct (signed_spec z) as (Hall & Hne & _ & Hcolon & Hint).
  destruct (decimal_spec m) as (Hm & Hmne & Hmv).
  split.
  { rewrite !all_chars_app, Hall. cbn [all_chars andb].
    change (time_char ":") with true. cbn [andb].
    apply (all_chars_impl is_digit); [|exact Hm].
    intros c Hc. unfold time_char. now rewrite Hc. }
  split; [destruct (signed z); [contradiction | discriminate]|].
  split; [apply contains_spec; now exists (signed z), (decimal m)|].
  unfold hour_minute.
  change (signed z ++ ":" ++ decimal m)%string
    with (signed z ++ String ":" (decimal m))%string.
  rewrite split_at_sep by exact Hcolon.
  rewrite split_without_sep by (now apply digits_without_colon).
  rewrite Hint, int_of_digits by assumption. now rewrite Hmv.
Qed.

Lemma signed_of_nat (h : nat) : signed (Z.of_nat h) = decimal h.
Proof.
  unfold signed. destruct (Z.ltb_spec (Z.of_nat h) 0); [lia|].
  now rewrite Nat2Z.id.
Qed.

Lemma parse_signed_meridiem z (is_pm : bool) :
  _parse_time_component (JStr (signed z ++ (if is_pm then " pm" else " am")))
  = time_replace (shifted is_pm z) 0.
Proof.
  destruct (signed_spec z) as (Hall & Hne & Hcolon & _ & Hint).
  rewrite parse_meridiem by assumption. now rewrite Hcolon, Hint.
Qed.

(** C7, as stated, fails: with [am] the hour 13, which is not an hour of
    the 12-hour clock, is not rejected but read as 13:00. *)
Lemma thirteen_am_is_not_rejected : ~ rejects_hours_off_the_clock.
Proof.
  intros H.
  specialize (H 13%nat "am"%string (or_introl eq_refl) ltac:(lia)).
  vm_compute in H. discriminate H.
Qed.

(** C7, amended.  [_parse_time_component] reads ['12 PM'] as 12:00 and
    ['12 AM'] as 00:00.  For every integer hour and every minute it takes
    [H:M] literally and a bare number as that hour with zero minutes; with
    [am] or [pm] after it, it first shifts the hour (12 becomes 0 for [am];
    for [pm] every hour but 12 gets 12 added) and hands the result to
    [time.replace], whose range check is the only one: the answer is the
    time when the hour so obtained is in 0..23 and the minute in 0..59, and
    [None] otherwise, never a value brought into range.  So hour 25, minute
    75 and every [pm] hour above 12 give [None], while an [am] hour from 13
    to 23 is read as it is, ['0 pm'] is 12:00 and ['-1 pm'] is 11:00.  A
    null or empty fragment gives [None] at once, and [_parse_datetime]
    yields a datetime exactly when both the date and the time fragment are
    read, and then combines the two. *)
Theorem time_fragments_read_or_rejected :
  _parse_time_component (JStr "12 PM") = Some (12, 0) /\
  _parse_time_component (JStr "12 AM") = Some (0, 0) /\
  (forall hour minute,
     time_replace hour minute
     = if (0 <=? hour) && (hour <=? 23) && (0 <=? minute) && (minute <=? 59)
       then Some (hour, minute) else None) /\
  (forall (z : Z) (m : nat),
     _parse_time_component (JStr (signed z ++ ":" ++ decimal m))
     = time_replace z (Z.of_nat m)) /\
  (forall h m : nat,
     _parse_time_component
       (JStr (fmt_02d (Z.of_nat h) ++ ":" ++ fmt_02d (Z.of_nat m)))
     = if (h <=? 23)%nat && (m <=? 59)%nat
       then Some (Z.of_nat h, Z.of_nat m) else None) /\
  (forall z : Z,
     _parse_time_component (JStr (signed z)) = time_replace z 0) /\
  (forall (z : Z) (is_pm : bool),
     _parse_time_component (JStr (signed z ++ (if is_pm then " pm" else " am")))
     = time_replace (shifted is_pm z) 0) /\
  (forall (z : Z) (m : nat) (is_pm : bool),
     _parse_time_component
       (JStr ((signed z ++ ":" ++ decimal m) ++ (if is_pm then " pm" else " am")))
     = time_replace (shifted is_pm z) (Z.of_nat m)) /\
  (forall h : nat, (13 <= h)%nat ->
     _parse_time_component (JStr (decimal h ++ " pm")) = None) /\
  (forall h : nat, (13 <= h <= 23)%nat ->
     _parse_time_component (JStr (decimal h ++ " am")) = Some (Z.of_nat h, 0)) /\
  (_parse_time_component (JStr "0 pm") = Some (12, 0) /\
   _parse_time_component (JStr "-1 pm") = Some (11, 0) /\
   _parse_time_component (JStr "-11:30 pm") = Some (1, 30)) /\
  (forall v hour minute,
     _parse_time_component v = Some (hour, minute) ->
     0 <= hour <= 23 /\ 0 <= minute <= 59) /\
  (_parse_time_component JNull = None /\
   _parse_time_component (JStr "") = None) /\
  (forall env date_str time_str dt,
     _parse_datetime env date_str time_str = Some dt <->
     exists target_date target_time,
       _parse_date_component env date_str = Some target_date /\
       _parse_time_component time_str = Some target_time /\
       dt = combine target_date target_time).
Proof.
  split; [reflexivity|]. split; [reflexivity|]. split; [reflexivity|].
  split.
  { intros z m. destruct (hour_minute_signed z m) as (Hall & Hne & Hcolon & Hhm).
    rewrite parse_plain by assumption. now rewrite Hcolon, Hhm. }
  split.
  { intros h m.
    destruct (fmt_02d_spec h) as (Hh & Hhne & Hhv).
    destruct (fmt_02d_spec m) as (Hm & Hmne & Hmv).
    rewrite parse_colon by assumption. rewrite Hhv, Hmv. apply time_replace_nat. }
  split.
  { intros z. destruct (signed_spec z) as (Hall & Hne & Hcolon & _ & Hint).
    rewrite parse_plain by assumption. now rewrite Hcolon, Hint. }
  split; [apply parse_signed_meridiem|].
  split.
  { intros z m is_pm.
    destruct (hour_minute_signed z m) as (Hall & Hne & Hcolon & Hhm).
    rewrite parse_meridiem by assumption. now rewrite Hcolon, Hhm. }
  split.
  { intros h Hge. rewrite <- signed_of_nat.
    rewrite (parse_signed_meridiem (Z.of_nat h) true). unfold shifted, time_replace.
    destruct (Z.eqb_spec (Z.of_nat h) 12); [lia|].
    destruct (Z.leb_spec (Z.of_nat h + 12) 23); [lia|].
    now rewrite andb_false_r. }
  split.
  { intros h Hh. rewrite <- signed_of_nat.
    rewrite (parse_signed_meridiem (Z.of_nat h) false). unfold shifted.
    destruct (Z.eqb_spec (Z.of_nat h) 12); [lia|].
    change 0 with (Z.of_nat 0) at 1. rewrite time_replace_nat.
    destruct (Nat.leb_spec h 23); [reflexivity | lia]. }
  split; [repeat split; reflexivity|].
  split.
  { intros v hour minute H.
    apply parse_time_checked in H as (h & m & H).
    apply time_replace_range in H as ([= -> ->] & ? & ?). auto. }
  split; [split; reflexivity|].
  intros env date_str time_str dt. unfold _parse_datetime. split.
  - destruct (_parse_date_component env date_str) as [d|]; [|discriminate].
    destruct (_parse_time_component time_str) as [t|]; [|discriminate].
    intros [= <-]. exists d, t. auto.
  - intros (d & t & -> & -> & ->). reflexivity.
Qed.

Lemma time_fragments_read_or_rejected_witness :
  _parse_time_component (JStr (decimal 13 ++ " pm")) = None /\
  _parse_time_component (JStr (decimal 13 ++ " am")) = Some (Z.of_nat 13, 0) /\
  (0 <= 14 <= 23 /\ 0 <= 30 <= 59).
Proof.
  pose proof time_fragments_read_or_rejected
    as (_ & _ & _ & _ & _ & _ & _ & _ & Hpm & Ham & _ & Hrange & _).
  split; [|split].
  - apply (Hpm 13%nat). lia.
  - apply (Ham 13%nat). lia.
  - apply (Hrange (JStr "14:30") 14 30). reflexivity.
Defined.

(** The range check applies to the hour after the meridiem shift: an
    [am] hour from 13 to 23 is kept as it is, and a negative [pm] hour is
    shifted before it is checked. *)
Remark meridiem_shift_precedes_range_check :
  _parse_time_component (JStr "13 am") = Some (13, 0) /\
  _parse_time_component (JStr "-1 pm") = Some (11, 0) /\
  _parse_time_component (JStr "13 pm") = None /\
  _parse_time_component (JStr "25") = None /\
  _parse_time_component (JStr "10:75") = None /\
  _parse_time_component (JStr "-1") = None.
Proof. vm_compute. repeat split; reflexivity. Qed.

End TimeFragments.

(** ** Matches of the time patterns *)
Section RegexFacts.
Import Py Re Json Store Agent Spec.

Lemma consumed_app g s' : consumed (g ++ s')%string s' = g.
Proof.
  unfold consumed. rewrite string_length_app.
  replace (String.length g + String.length s' - String.length s')%nat
    with (String.length g) by lia.
  induction g as [|c g IH]; [now destruct s'|].
  rewrite string_app_cons. cbn [String.length take]. now rewrite IH.
Qed.

(** What a greedy repetition hands to its continuation: the rest after a
    run of at least [lo] characters of the class. *)
Lemma greedy_inv {R} p s :
  forall lo hi prev (k : option ascii -> string -> option R) x,
    greedy p lo hi prev s k = Some x ->
    exists g s' prev',
      s = (g ++ s')%string /\ all_chars p g = true /\
      (lo <= String.length g)%nat /\ k prev' s' = Some x.
Proof.
  induction s as [|c s IH]; intros lo hi prev k x.
  - cbn [greedy]. destruct (Nat.eqb_spec lo 0) as [->|]; [|discriminate].
    intros H. exists EmptyString, EmptyString, prev. repeat split; auto.
  - cbn [greedy].
    assert (Hstop : (if (lo =? 0)%nat then k prev (String c s) else None) = Some x ->
                    exists g s' prev',
                      String c s = (g ++ s')%string /\ all_chars p g = true /\
                      (lo <= String.length g)%nat /\ k prev' s' = Some x).
    { destruct (Nat.eqb_spec lo 0) as [->|]; [|discriminate].
      intros H. exists EmptyString, (String c s), prev. repeat split; auto. }
    destruct (p c && may_take hi) eqn:Hc; [|exact Hstop].
    destruct (greedy p (Nat.pred lo) (one_less hi) (Some c) s k) as [y|] eqn:Hg;
      [|exact Hstop].
    intros [= ->]. apply IH in Hg as (g & s' & prev' & -> & Hall & Hlo & Hk).
    apply andb_true_iff in Hc as [Hc _].
    exists (String c g), s', prev'. cbn [all_chars String.length].
    rewrite Hc, Hall. repeat split; [lia | exact Hk].
Qed.

(** A match only adds captures, and only for the groups of the pattern. *)
Lemma rmatch_captures {R} r :
  forall prev s cs (k : option ascii -> string -> captures -> option R) x,
    rmatch r prev s cs k = Some x ->
    exists prev' s' new,
      k prev' s' (new ++ cs) = Some x /\
      forall c, In c new -> In (fst c) (group_ids r).
Proof.
  induction r as [| |l|p lo hi| |r1 IH1 r2 IH2|r1 IH1 r2 IH2|r1 IH1|i r1 IH1];
    intros prev s cs k x; cbn [rmatch group_ids].
  - intros H. exists prev, s, []. split; [exact H | intros c []].
  - discriminate.
  - destruct (literal l prev s) as [[prev' s']|]; [|discriminate].
    intros H. exists prev', s', []. split; [exact H | intros c []].
  - intros H. apply greedy_inv in H as (g & s' & prev' & _ & _ & _ & H).
    exists prev', s', []. split; [exact H | intros c []].
  - destruct (at_boundary prev s); [|discriminate].
    intros H. exists prev, s, []. split; [exact H | intros c []].
  - intros H. apply IH1 in H as (p1 & s1 & new1 & H & Hnew1).
    apply IH2 in H as (p2 & s2 & new2 & H & Hnew2).
    exists p2, s2, (new2 ++ new1). rewrite <- app_assoc. split; [exact H|].
    intros c Hc. apply in_or_app. apply in_app_or in Hc as [Hc|Hc]; auto.
  - destruct (rmatch r1 prev s cs k) as [y|] eqn:H1.
    + intros [= ->]. apply IH1 in H1 as (p1 & s1 & new1 & H & Hnew1).
      exists p1, s1, new1. split; [exact H|]. intros c Hc. apply in_or_app. auto.
    + intros H. apply IH2 in H as (p2 & s2 & new2 & H & Hnew2).
      exists p2, s2, new2. split; [exact H|]. intros c Hc. apply in_or_app. auto.
  - destruct (rmatch r1 prev s cs k) as [y|] eqn:H1.
    + intros [= ->]. apply IH1 in H1 as (p1 & s1 & new1 & H & Hnew1).
      exists p1, s1, new1. auto.
    + intros H. exists prev, s, []. split; [exact H | intros c []].
  - intros H. apply IH1 in H as (p1 & s1 & new1 & H & Hnew1).
    exists p1, s1, ((i, consumed s s1) :: new1). split; [exact H|].
    intros c [<-|Hc]; [now left | right; auto].
Qed.

Lemma group_skip i new cs :
  (forall c, In c new -> fst c <> i) -> group i (new ++ cs) = group i cs.
Proof.
  induction new as [|[j g] new IH]; intros Hnew; [reflexivity|].
  cbn [app group]. destruct (Nat.eqb_spec i j) as [->|_].
  - exfalso. apply (Hnew (j, g)); [now left | reflexivity].
  - apply IH. intros c Hc. apply Hnew. now right.
Qed.

(** A group of one or more digits, once matched, is captured as a
    non-empty string of digits. *)
Lemma digit_group_step {R} i lo hi rest prev s cs
    (k : option ascii -> string -> captures -> option R) x :
  (1 <= lo)%nat ->
  rmatch (Seq (Group i (Chars is_digit lo hi)) rest) prev s cs k = Some x ->
  exists g prev' s',
    all_chars is_digit g = true /\ g <> EmptyString /\
    rmatch rest prev' s' ((i, g) :: cs) k = Some x.
Proof.
  intros Hlo. cbn [rmatch]. intros H.
  apply greedy_inv in H as (g & s' & prev' & -> & Hall & Hlen & H).
  rewrite consumed_app in H. exists g, prev', s'. repeat split; auto.
  intros ->. cbn [String.length] in Hlen. lia.
Qed.

Lemma search_from_inv r s :
  forall prev m, search_from r prev s = Some m ->
    exists prev' s', match_here r prev' s' = Some m.
Proof.
  induction s as [|c s IH]; intros prev m; cbn [search_from].
  - destruct (match_here r prev EmptyString) as [m'|] eqn:H; [|discriminate].
    intros [= ->]. eauto.
  - destruct (match_here r prev (String c s)) as [m'|] eqn:H.
    + intros [= ->]. eauto.
    + apply IH.
Qed.

Lemma int_of_digit_group g :
  all_chars is_digit g = true -> g <> EmptyString ->
  exists z, Py.int g = Some z.
Proof. intros Hall Hne. rewrite int_of_digits by assumption. eauto. Qed.

(** In a match of [\b(\d{1,2})...] with no further group 1, [int] of
    group 1 is defined. *)
Lemma hour_group_int rest message m :
  ~ In 1%nat (group_ids rest) ->
  search (Seq WordB (Seq (Group 1 (Chars is_digit 1 (Some 2%nat))) rest)) message
    = Some m ->
  exists hour, group_int 1 m = Ok hour.
Proof.
  intros Hrest H. apply search_from_inv in H as (prev & s & H).
  unfold match_here in H. cbn [rmatch] in H.
  destruct (at_boundary prev s); [|discriminate].
  change (rmatch (Seq (Group 1 (Chars is_digit 1 (Some 2%nat))) rest) prev s []
            (fun _ s' cs => Some {| group0 := consumed s s'; groups := cs |})
          = Some m) in H.
  apply digit_group_step in H as (g & prev' & s' & Hall & Hne & H); [|lia].
  apply rmatch_captures in H as (p2 & s2 & new & [= <-] & Hnew).
  unfold group_int. cbn [groups]. rewrite group_skip.
  - cbn [group Nat.eqb].
    destruct (int_of_digit_group g Hall Hne) as (z & ->). eauto.
  - intros c Hc Heq. apply Hrest. rewrite <- Heq. apply Hnew, Hc.
Qed.

(** In a match of the [H:MM] pattern, [int] of both groups is defined. *)
Lemma full_group_ints message m :
  search time_pattern_full message = Some m ->
  exists hour minute, group_int 1 m = Ok hour /\ group_int 2 m = Ok minute.
Proof.
  intros H. apply search_from_inv in H as (prev & s & H).
  unfold match_here, time_pattern_full, cat, digits, spaces0 in H.
  cbn [fold_right] in H. cbn [rmatch] in H.
  destruct (at_boundary prev s); [|discriminate].
  apply greedy_inv in H as (g1 & s1 & p1 & -> & Hall1 & Hlen1 & H).
  rewrite consumed_app in H.
  destruct (literal ":" p1 s1) as [[p1' s1']|]; [|discriminate].
  apply greedy_inv in H as (g2 & s2 & p2 & -> & Hall2 & Hlen2 & H).
  rewrite consumed_app in H.
  apply greedy_inv in H as (g3 & s3 & p3 & -> & _ & _ & H).
  assert (Hne1 : g1 <> EmptyString)
    by (intros ->; cbn [String.length] in Hlen1; lia).
  assert (Hne2 : g2 <> EmptyString)
    by (intros ->; cbn [String.length] in Hlen2; lia).
  destruct (int_of_digit_group g1 Hall1 Hne1) as (z1 & Hz1).
  destruct (int_of_digit_group g2 Hall2 Hne2) as (z2 & Hz2).
  assert (Hgroups : exists new,
             groups m = new ++ [(2%nat, g2); (1%nat, g1)] /\
             forall c, In c new -> fst c = 3%nat).
  { match type of H with
    | match ?a with Some _ => _ | None => _ end = Some m =>
        destruct a as [y|] eqn:Ha
    end.
    - injection H as ->.
      apply rmatch_captures in Ha as (p4 & s4 & new & Hk & Hnew).
      destruct (at_boundary p4 s4); [|discriminate].
      injection Hk as <-. eexists (_ :: new). split; [reflexivity|].
      intros c [<-|Hc]; [reflexivity|].
      specialize (Hnew c Hc). cbn in Hnew. contradiction.
    - destruct (at_boundary p3 s3); [|discriminate].
      injection H as <-. exists []. split; [reflexivity | intros c []]. }
  destruct Hgroups as (new & Hgroups & Hnew).
  exists z1, z2. unfold group_int. rewrite Hgroups.
  rewrite !group_skip by (intros c Hc; rewrite (Hnew c Hc); discriminate).
  cbn [group Nat.eqb]. now rewrite Hz1, Hz2.
Qed.

(** No match of a time pattern makes [time_of_match] raise. *)
Lemma time_of_match_returns pattern kind message m :
  In (pattern, kind) time_patterns ->
  search pattern message = Some m ->
  exists text, time_of_match kind m = Ok text.
Proof.
  intros Hin Hs.
  destruct Hin as [Hp|[Hp|[Hp|[Hp|[]]]]]; injection Hp as <- <-.
  - apply hour_group_int in Hs as (hour & Hh);
      [|cbn; intros [Heq|[]]; discriminate Heq].
    cbn [time_of_match]. rewrite Hh. eauto.
  - apply hour_group_int in Hs as (hour & Hh);
      [|cbn; intros [Heq|[]]; discriminate Heq].
    cbn [time_of_match]. rewrite Hh. eauto.
  - apply full_group_ints in Hs as (hour & minute & Hh & Hm).
    cbn [time_of_match]. rewrite Hh, Hm. eauto.
  - cbn [time_of_match]. eauto.
Qed.

Lemma extract_time_returns message :
  exists time, extract_time time_patterns message = Ok time.
Proof.
  assert (H : forall patterns,
             (forall pattern kind, In (pattern, kind) patterns ->
                                   In (pattern, kind) time_patterns) ->
             exists time, extract_time patterns message = Ok time).
  { induction patterns as [|[pattern kind] patterns IH]; intros Hsub;
      cbn [extract_time]; [eauto|].
    destruct (search pattern message) as [m|] eqn:Hs.
    - destruct (time_of_match_returns pattern kind message m) as (text & ->);
        [apply Hsub; now left | exact Hs | eauto].
    - apply IH. intros p k Hin. apply Hsub. now right. }
  apply H. auto.
Qed.

End RegexFacts.

(** ** Claims about the fallback extraction *)
Section FallbackClaims.
Import Py Re Json Store Agent Spec.

(** C5 (defect).  On the message ['2:30 pm'] the fallback extraction
    stores ['42:00'] under ['time'], not ['14:30']: the pattern for a bare
    hour with [pm], tried first, matches [30 pm] and adds twelve to 30.
    The branch written for [H:MM am/pm] would have produced ['14:30'] on
    the same text; ['2:30 am'] likewise yields ['30:00']. *)
Theorem minutes_with_meridiem_read_as_hour :
  extract_time time_patterns "2:30 pm" = Ok (Some "42:00"%string) /\
  _simple_entity_extraction "2:30 pm"
    = Ok (<["time"%string := JStr "42:00"]> {["title"%string := JStr "Appointment"]}) /\
  extract_time time_patterns "2:30 am" = Ok (Some "30:00"%string) /\
  option_map group0 (search time_pattern_pm "2:30 pm") = Some "30 pm"%string /\
  option_map (time_of_match Tfull) (search time_pattern_full "2:30 pm")
    = Some (Ok "14:30"%string).
Proof. repeat split; vm_compute; reflexivity. Qed.


Lemma set_if_other key key' v (entities : gmap string json) :
  key <> key' -> set_if key v entities !! key' = entities !! key'.
Proof.
  intros Hne. unfold set_if. destruct v; [|reflexivity].
  now apply lookup_insert_ne.
Qed.

(** The fallback returns, and the title it stores is the first keyword
    found, capitalized, or the generic label. *)
Lemma fallback_title message :
  exists entities,
    _simple_entity_extraction message = Ok entities /\
    entities !! "title"%string
    = Some (JStr (match extract_title title_keywords message with
                  | Some t => t
                  | None => "Appointment"%string
                  end)).
Proof.
  unfold _simple_entity_extraction.
  destruct (extract_time_returns message) as (time & ->).
  destruct (extract_title title_keywords message) as [t|]; cbn [set_if].
  - rewrite lookup_insert_eq. eexists. split; [reflexivity|].
    apply lookup_insert_eq.
  - rewrite !set_if_other by discriminate. rewrite lookup_empty.
    eexists. split; [reflexivity|]. apply lookup_insert_eq.
Qed.


Example fallback_on_empty_message :
  _simple_entity_extraction "" = Ok {["title"%string := JStr "Appointment"]}.
Proof. reflexivity. Qed.

Example fallback_on_booking_request :
  exists bag,
    _simple_entity_extraction "Book a MEETING tomorrow at 2 PM" = Ok bag /\
    bag !! "title"%string = Some (JStr "Meeting") /\
    bag !! "date"%string = Some (JStr "tomorrow") /\
    bag !! "time"%string = Some (JStr "14:00").
Proof. eexists. split; [reflexivity|]. vm_compute. repeat split; reflexivity. Qed.

End FallbackClaims.

(** * Further properties *)

(** ** More about the slots of a day *)
Section SlotFacts.
Import Clock Config Json Store CalendarService Agent Spec Vocabulary.

Lemma firstn_length_le {A} n (l : list A) : (List.length (firstn n l) <= n)%nat.
Proof.
  revert l. induction n as [|n IH]; intros [|x l]; simpl; try lia.
  specialize (IH l). lia.
Qed.

Lemma slot_starts_sliced cfg fuel sod eod dur events slots :
  slot_starts cfg fuel sod eod dur events = Some slots ->
  exists all_slots, slots = slice_to (MAX_SUGGESTIONS cfg) all_slots.
Proof.
  unfold slot_starts.
  destruct (walk_busy fuel _ _ _ _ _) as [[c a]|]; [|discriminate].
  destruct (emit_while fuel _ _ c a) as [[c' a']|]; [|discriminate].
  intros [= <-]. eauto.
Qed.

(** X1.  With a non-negative [MAX_SUGGESTIONS], [get_available_slots]
    never returns more than [MAX_SUGGESTIONS] slots. *)
Theorem slot_count_bounded cfg st fuel date dur slots :
  0 <= MAX_SUGGESTIONS cfg ->
  result (get_available_slots cfg st fuel date dur) = Some slots ->
  Z.of_nat (List.length slots) <= MAX_SUGGESTIONS cfg.
Proof.
  intros Hmax H. apply returned_texts in H as (times & H & ->).
  rewrite length_map.
  apply available_slot_times_inv in H as [->|H]; [simpl; lia|].
  destruct H as (sod & eod & events & _ & _ & _ & _ & H).
  apply slot_starts_sliced in H as (l & ->). unfold slice_to.
  destruct (Z.leb_spec 0 (MAX_SUGGESTIONS cfg)); [|lia].
  pose proof (firstn_length_le (Z.to_nat (MAX_SUGGESTIONS cfg)) l). lia.
Qed.

Lemma slot_count_bounded_witness :
  Z.of_nat (List.length ["11:15 AM"; "12:15 PM"; "01:15 PM"; "02:15 PM"; "03:15 PM"]%string)
  <= MAX_SUGGESTIONS settings.
Proof.
  apply (slot_count_bounded settings scenario_A 10 (at_ monday 13 22) 60);
    [vm_compute; discriminate | reflexivity].
Defined.

Lemma spaced_snoc gap l x :
  spaced gap l -> Forall (fun a => a + gap <= x) l -> spaced gap (l ++ [x]).
Proof.
  unfold spaced. induction 1 as [|a l Hl IH Ha]; intros Hx; simpl.
  - repeat constructor.
  - inversion Hx as [|? ? Hax Hlx]; subst. constructor; [now apply IH|].
    apply Forall_app. split; [exact Ha | now constructor].
Qed.

Lemma spaced_firstn gap n l : spaced gap l -> spaced gap (firstn n l).
Proof.
  unfold spaced. revert l. induction n as [|n IH]; intros l Hl; [constructor|].
  destruct Hl as [|a l Hl Ha]; simpl; [constructor|].
  constructor; [now apply IH|].
  rewrite List.Forall_forall in *. intros b Hb. apply Ha.
  eapply firstn_incl, Hb.
Qed.

Lemma apart_before_later gap cur cur' acc :
  cur <= cur' -> apart_before gap cur acc -> apart_before gap cur' acc.
Proof.
  intros Hle [Hs Hb]. split; [exact Hs|].
  eapply List.Forall_impl; [|exact Hb]. intros a Ha. simpl in Ha. lia.
Qed.

Lemma emit_while_apart cond step :
  0 < step ->
  forall fuel cur acc cur' acc',
    emit_while fuel cond step cur acc = Some (cur', acc') ->
    apart_before step cur acc -> apart_before step cur' acc'.
Proof.
  intros Hstep. induction fuel as [|fuel IH]; intros cur acc cur' acc'; simpl;
    destruct (cond cur); try discriminate; try (intros [= <- <-]; auto).
  intros H [Hs Hb]. apply IH in H; [exact H|]. split.
  - now apply spaced_snoc.
  - apply Forall_app. split.
    + eapply List.Forall_impl; [|exact Hb]. intros a Ha. simpl in Ha. lia.
    + constructor; [lia | constructor].
Qed.

Lemma walk_busy_apart slot buffer fuel busy :
  0 < slot ->
  forall cur acc cur' acc',
    walk_busy fuel slot buffer busy cur acc = Some (cur', acc') ->
    apart_before slot cur acc -> apart_before slot cur' acc'.
Proof.
  intros Hslot. induction busy as [|[bs be] busy IH]; intros cur acc cur' acc'; simpl.
  - intros [= <- <-]; auto.
  - destruct (slots_before fuel slot buffer bs cur acc) as [[c a]|] eqn:He;
      [|discriminate].
    intros Hw Hinv. apply IH in Hw; [exact Hw|].
    apply apart_before_later with (cur := c); [lia|].
    unfold slots_before in He. destruct (slot + buffer <=? bs - cur).
    + eapply emit_while_apart; eauto.
    + now injection He as <- <-.
Qed.

(** X2.  For a positive duration the slots [get_available_slots] returns
    are in ascending order and no two of them overlap: each starts at least
    one duration after every earlier one. *)
Theorem slots_ascending_and_apart cfg st fuel date dur times :
  0 < dur ->
  result (available_slot_times cfg st fuel date dur) = Some times ->
  spaced (minutes dur) times.
Proof.
  intros Hdur H.
  assert (Hslot : 0 < minutes dur) by (unfold minutes, US_PER_MINUTE; lia).
  apply available_slot_times_inv in H as [->|H]; [constructor|].
  destruct H as (sod & eod & events & _ & _ & _ & _ & H).
  unfold slot_starts in H.
  destruct (walk_busy fuel _ _ _ _ _) as [[c a]|] eqn:Hw; [|discriminate].
  destruct (emit_while fuel _ _ c a) as [[c' a']|] eqn:He; [|discriminate].
  injection H as <-.
  apply (walk_busy_apart _ _ _ _ Hslot) in Hw; [|split; constructor].
  apply (emit_while_apart _ _ Hslot) in He as [Hs _]; [|exact Hw].
  unfold slice_to. destruct (0 <=? MAX_SUGGESTIONS cfg); now apply spaced_firstn.
Qed.

Lemma slots_ascending_and_apart_witness :
  spaced (minutes 60)
    [at_ monday 11 15; at_ monday 12 15; at_ monday 13 15;
     at_ monday 14 15; at_ monday 15 15].
Proof.
  apply (slots_ascending_and_apart settings scenario_A 10 (at_ monday 13 22) 60);
    [lia | reflexivity].
Defined.

(** X3.  For a positive duration and a non-negative buffer, when every
    listed busy time starts no later than the end of the business window
    (the store lists the events of that window), every returned slot lies
    inside the business window: it starts at or after the opening and ends
    at or before the closing. *)
Theorem slots_inside_business_window cfg st fuel date dur sod eod events times :
  0 < dur -> 0 <= BOOKING_BUFFER_MINUTES cfg ->
  replace_hour date (BUSINESS_START_HOUR cfg) = Some sod ->
  replace_hour date (BUSINESS_END_HOUR cfg) = Some eod ->
  is_business_day cfg date = true ->
  events_list st sod eod = Ok events ->
  (forall b, In b (busy_times_of events) -> fst b <= eod) ->
  result (available_slot_times cfg st fuel date dur) = Some times ->
  forall s, In s times -> sod <= s /\ s + minutes dur <= eod.
Proof.
  intros Hdur Hbuf Hsod Heod Hday Hev Hlim H.
  rewrite (available_slot_times_business _ _ _ _ _ _ _ _ Hsod Heod Hday Hev) in H.
  exact (slot_starts_window _ _ _ _ _ _ _ Hdur Hbuf Hlim H).
Qed.

Lemma slots_inside_business_window_witness :
  at_ monday 9 0 <= at_ monday 15 15 /\
  at_ monday 15 15 + minutes 60 <= at_ monday 17 0.
Proof.
  refine (slots_inside_business_window settings scenario_A 10 (at_ monday 13 22) 60
            (at_ monday 9 0) (at_ monday 17 0)
            [busy_event "confirmed" (at_ monday 10 0) (at_ monday 11 0)]
            [at_ monday 11 15; at_ monday 12 15; at_ monday 13 15;
             at_ monday 14 15; at_ monday 15 15] _ _ _ _ _ _ _ _
            (at_ monday 15 15) _).
  - lia.
  - vm_compute. discriminate.
  - reflexivity.
  - reflexivity.
  - reflexivity.
  - reflexivity.
  - intros b [<-|[]]. vm_compute. discriminate.
  - reflexivity.
  - do 4 right. left. reflexivity.
Defined.

(** X4.  On a business day for which the store lists no event that counts
    as busy, the slots are the back-to-back ones from the opening on: the
    first [MAX_SUGGESTIONS] of [opening + k * duration] for [k] below the
    number of whole durations that fit in the business window. *)
Theorem free_day_slots cfg st fuel date dur sod eod events times :
  0 < dur ->
  replace_hour date (BUSINESS_START_HOUR cfg) = Some sod ->
  replace_hour date (BUSINESS_END_HOUR cfg) = Some eod ->
  is_business_day cfg date = true ->
  events_list st sod eod = Ok events ->
  busy_times_of events = [] ->
  result (available_slot_times cfg st fuel date dur) = Some times ->
  times = slice_to (MAX_SUGGESTIONS cfg)
            (List.map (fun k => sod + Z.of_nat k * minutes dur)
               (seq 0 (Z.to_nat ((eod - sod) / minutes dur)))).
Proof.
  intros Hdur Hsod Heod Hday Hev Hbusy H.
  assert (Hslot : 0 < minutes dur) by (unfold minutes, US_PER_MINUTE; lia).
  rewrite (available_slot_times_business _ _ _ _ _ _ _ _ Hsod Heod Hday Hev) in H.
  unfold slot_starts in H. rewrite Hbusy in H. simpl in H.
  destruct (emit_while fuel _ _ sod []) as [[c a]|] eqn:He; [|discriminate].
  injection H as <-.
  apply emit_while_spec in He as (n & -> & -> & Hall & Hstop).
  apply Z.leb_gt in Hstop. simpl. f_equal. f_equal. f_equal.
  pose proof (Z.mul_div_le (eod - sod) (minutes dur) Hslot) as Hlo.
  pose proof (Z.mul_succ_div_gt (eod - sod) (minutes dur) Hslot) as Hhi.
  set (q := (eod - sod) / minutes dur) in *.
  destruct n as [|n].
  - assert (q <= 0) by nia. lia.
  - specialize (Hall n ltac:(lia)). apply Z.leb_le in Hall.
    assert (q = Z.of_nat (S n)) by nia. lia.
Qed.

Lemma free_day_slots_witness :
  [at_ monday 9 0; at_ monday 10 0; at_ monday 11 0; at_ monday 12 0;
   at_ monday 13 0; at_ monday 14 0; at_ monday 15 0; at_ monday 16 0]
  = slice_to (MAX_SUGGESTIONS settings)
      (List.map (fun k => at_ monday 9 0 + Z.of_nat k * minutes 60)
         (seq 0 (Z.to_nat ((at_ monday 17 0 - at_ monday 9 0) / minutes 60)))).
Proof.
  refine (free_day_slots settings (store_holding []) 10 (at_ monday 13 22) 60
            (at_ monday 9 0) (at_ monday 17 0) [] _ _ _ _ _ _ _ _).
  - lia.
  - reflexivity.
  - reflexivity.
  - reflexivity.
  - reflexivity.
  - reflexivity.
  - reflexivity.
Defined.

Lemma busy_times_of_app l1 l2 :
  busy_times_of (l1 ++ l2) = busy_times_of l1 ++ busy_times_of l2.
Proof.
  induction l1 as [|e l1 IH]; [reflexivity|].
  cbn [List.app busy_times_of]. rewrite IH.
  destruct (not_cancelled e); [|reflexivity].
  now destruct (ev_start e), (ev_end e).
Qed.

Lemma no_conflict_app l1 l2 :
  no_conflict (l1 ++ l2) = no_conflict l1 && no_conflict l2.
Proof.
  induction l1 as [|e l1 IH]; [reflexivity|].
  cbn [List.app no_conflict]. rewrite IH. now destruct (not_cancelled e).
Qed.

Lemma cancelled_not_live e :
  ev_status e = Some "cancelled"%string -> not_cancelled e = false.
Proof. unfold not_cancelled. now intros ->. Qed.

(** X5.  An event whose status is ['cancelled'] counts for nothing,
    wherever it stands in the listing: the slots and the conflict test of
    [check_availability] are those of the listing without it.  An event
    with any other status, or with none, makes the conflict test answer
    [False]. *)
Theorem cancelled_events_are_ignored cfg fuel sod eod dur before e after :
  (ev_status e = Some "cancelled"%string ->
   slot_starts cfg fuel sod eod dur (before ++ e :: after)
   = slot_starts cfg fuel sod eod dur (before ++ after) /\
   no_conflict (before ++ e :: after) = no_conflict (before ++ after)) /\
  (live e -> no_conflict (before ++ e :: after) = false).
Proof.
  split.
  - intros Hcancelled. apply cancelled_not_live in Hcancelled. split.
    + unfold slot_starts. rewrite !busy_times_of_app. cbn [busy_times_of].
      now rewrite Hcancelled.
    + rewrite !no_conflict_app. cbn [no_conflict]. now rewrite Hcancelled.
  - intros Hlive. apply not_cancelled_live in Hlive.
    rewrite no_conflict_app. cbn [no_conflict]. rewrite Hlive. apply andb_false_r.
Qed.

Lemma cancelled_events_are_ignored_witness :
  slot_starts settings 10 (at_ monday 9 0) (at_ monday 17 0) 60
    ([busy_event "confirmed" (at_ monday 10 0) (at_ monday 11 0)]
     ++ busy_event "cancelled" (at_ monday 13 0) (at_ monday 14 0) :: [])
  = slot_starts settings 10 (at_ monday 9 0) (at_ monday 17 0) 60
      ([busy_event "confirmed" (at_ monday 10 0) (at_ monday 11 0)] ++ []) /\
  no_conflict
    ([busy_event "confirmed" (at_ monday 10 0) (at_ monday 11 0)]
     ++ busy_event "cancelled" (at_ monday 13 0) (at_ monday 14 0) :: [])
  = no_conflict ([busy_event "confirmed" (at_ monday 10 0) (at_ monday 11 0)] ++ []).
Proof.
  apply (proj1 (cancelled_events_are_ignored settings 10 (at_ monday 9 0)
                  (at_ monday 17 0) 60
                  [busy_event "confirmed" (at_ monday 10 0) (at_ monday 11 0)]
                  (busy_event "cancelled" (at_ monday 13 0) (at_ monday 14 0)) [])).
  reflexivity.
Defined.

(** X6.  [get_available_slots] returns the empty list without calling the
    store when the day is not a business day or a business hour setting is
    not an hour of the day, and returns the empty list after its one
    listing call when that call raises. *)
Theorem no_slots_on_closed_day_or_failure cfg st fuel date dur log :
  (is_business_day cfg date = false \/
   replace_hour date (BUSINESS_START_HOUR cfg) = None \/
   replace_hour date (BUSINESS_END_HOUR cfg) = None ->
   get_available_slots cfg st fuel date dur log = (Some [], log)) /\
  (forall sod eod,
     replace_hour date (BUSINESS_START_HOUR cfg) = Some sod ->
     replace_hour date (BUSINESS_END_HOUR cfg) = Some eod ->
     is_business_day cfg date = true ->
     events_list st sod eod = Raised ->
     get_available_slots cfg st fuel date dur log
     = (Some [], log ++ [CallList sod eod])).
Proof.
  unfold get_available_slots, available_slot_times, bind. split.
  - intros H.
    destruct (replace_hour date (BUSINESS_START_HOUR cfg)) as [sod|]; [|reflexivity].
    destruct (replace_hour date (BUSINESS_END_HOUR cfg)) as [eod|]; [|reflexivity].
    destruct H as [->|[H|H]]; [reflexivity | discriminate H | discriminate H].
  - intros sod eod -> -> -> Hraise. cbn [negb]. unfold list_events.
    now rewrite Hraise.
Qed.

Lemma no_slots_on_closed_day_or_failure_witness :
  get_available_slots settings scenario_A 10 (at_ (monday + 5) 10 0) 60 []
  = (Some [], []) /\
  get_available_slots settings failing_store 10 (at_ monday 10 0) 60 []
  = (Some [], [] ++ [CallList (at_ monday 9 0) (at_ monday 17 0)]).
Proof.
  split.
  - apply (proj1 (no_slots_on_closed_day_or_failure settings scenario_A 10
                    (at_ (monday + 5) 10 0) 60 [])).
    left. reflexivity.
  - apply (proj2 (no_slots_on_closed_day_or_failure settings failing_store 10
                    (at_ monday 10 0) 60 [])); reflexivity.
Defined.

(** X7.  The text [get_available_slots] gives for a slot is read back by
    [_parse_time_component] as the hour and minute of that slot, whatever
    the instant. *)
Theorem slot_text_reads_back t :
  _parse_time_component (JStr (strftime_I_M_p t)) = Some (hour t, minute t).
Proof. apply strftime_reads_back. Qed.

Lemma listed_event_overlaps a b content e :
  In e (List.filter (overlapsb a b) content) ->
  In e content /\
  exists bs be, ev_start e = Some bs /\ ev_end e = Some be /\ bs < b /\ a < be.
Proof.
  intros H. apply filter_In in H as [Hin Hov]. split; [exact Hin|].
  unfold overlapsb in Hov.
  destruct (ev_start e) as [bs|], (ev_end e) as [be|]; try discriminate.
  apply andb_true_iff in Hov as [H1 H2].
  apply Z.ltb_lt in H1, H2. exists bs, be. auto.
Qed.

(** X8.  Over a store that answers a listing with the events that occupy
    part of the window, and whose events end on whole minutes, every text
    [get_available_slots] offers for a positive duration is read back by
    [_parse_time_component] as an hour and minute at which, on the day
    asked for, [check_availability] finds that duration free: what is
    suggested can be booked. *)
Theorem offered_slots_pass_availability_check cfg st content fuel date dur slots text :
  0 < dur -> 0 <= BOOKING_BUFFER_MINUTES cfg ->
  (forall a b, events_list st a b = Ok (List.filter (overlapsb a b) content)) ->
  (forall e be, In e content -> ev_end e = Some be -> be mod US_PER_MINUTE = 0) ->
  result (get_available_slots cfg st fuel date dur) = Some slots ->
  In text slots ->
  exists h m,
    _parse_time_component (JStr text) = Some (h, m) /\
    result (CalendarService.check_availability st
              (combine (date_of date) (h, m))
              (combine (date_of date) (h, m) + minutes dur)) = true.
Proof.
  intros Hdur Hbuf Hstore Hwhole Hres Htext.
  assert (Hbuffer : 0 <= minutes (BOOKING_BUFFER_MINUTES cfg))
    by (unfold minutes, US_PER_MINUTE; lia).
  apply returned_texts in Hres as (times & H & ->).
  apply in_map_iff in Htext as (s & <- & Hs).
  apply available_slot_times_inv in H
    as [->|(sod & eod & events & Hsod & Heod & _ & Hev & H)]; [destruct Hs|].
  rewrite Hstore in Hev. injection Hev as <-.
  assert (Hbusy : forall b, In b (busy_times_of (List.filter (overlapsb sod eod) content))
                            -> fst b <= eod /\ snd b mod US_PER_MINUTE = 0).
  { intros b Hb. apply busy_times_of_in in Hb as (e & He & _ & Hbs & Hbe).
    apply listed_event_overlaps in He as (Hin & bs & be & Hbs' & _ & Hlt & _).
    rewrite Hbs in Hbs'. injection Hbs' as ->.
    split; [lia | exact (Hwhole e (snd b) Hin Hbe)]. }
  pose proof (slot_starts_window _ _ _ _ _ _ _ Hdur Hbuf
                (fun b Hb => proj1 (Hbusy b Hb)) H s Hs) as [Hlo Hhi].
  assert (Hminute : s mod US_PER_MINUTE = 0).
  { apply (slot_starts_whole_minutes cfg fuel date _ sod eod dur _ _ Hsod)
      with (s := s) in H; [exact H | | exact Hs].
    intros b Hb. now apply Hbusy. }
  assert (Hsame : midnight s = midnight date).
  { pose proof Hsod as Hsod'. pose proof Heod as Heod'.
    apply replace_hour_inv in Hsod' as [Hh1 Esod].
    apply replace_hour_inv in Heod' as [Hh2 Eeod].
    apply (same_midnight date (BUSINESS_START_HOUR cfg * US_PER_HOUR)).
    - unfold US_PER_HOUR, US_PER_MINUTE. lia.
    - rewrite <- Esod. exact Hlo.
    - unfold minutes in Hhi. rewrite Eeod in Hhi.
      unfold US_PER_DAY, US_PER_HOUR, US_PER_MINUTE in *. lia. }
  exists (hour s), (minute s). split; [apply strftime_reads_back|].
  assert (Hinstant : combine (date_of date) (hour s, minute s) = s).
  { rewrite (whole_minute_instant s Hminute) at 3. rewrite Hsame.
    unfold combine, date_of, midnight, at_. cbn [fst snd]. lia. }
  rewrite Hinstant.
  unfold result, run, CalendarService.check_availability, bind, list_events.
  rewrite Hstore. cbn [fst ret].
  destruct (no_conflict _) eqn:Hnc; [reflexivity | exfalso].
  apply no_conflict_false_iff in Hnc as (e & He & Hlive).
  apply listed_event_overlaps in He as (Hin & bs & be & Hbs & Hbe & Hlt & Hgt).
  assert (Hin' : In (bs, be) (busy_times_of (List.filter (overlapsb sod eod) content))).
  { apply (in_busy_times_of _ e); try assumption.
    apply filter_In. split; [exact Hin|]. unfold overlapsb. rewrite Hbs, Hbe.
    apply andb_true_iff. split; apply Z.ltb_lt; lia. }
  pose proof (slot_starts_clear _ _ _ _ _ _ _ Hdur H s (bs, be) Hs Hin') as Hclear.
  unfold clear_of in Hclear. simpl in Hclear. lia.
Qed.

Lemma offered_slots_pass_availability_check_witness :
  exists h m,
    _parse_time_component (JStr "11:15 AM") = Some (h, m) /\
    result (CalendarService.check_availability scenario_A
              (combine (date_of (at_ monday 8 0)) (h, m))
              (combine (date_of (at_ monday 8 0)) (h, m) + minutes 60)) = true.
Proof.
  refine (offered_slots_pass_availability_check settings scenario_A
            [busy_event "confirmed" (at_ monday 10 0) (at_ monday 11 0)]
            10 (at_ monday 8 0) 60
            ["11:15 AM"; "12:15 PM"; "01:15 PM"; "02:15 PM"; "03:15 PM"]%string
            "11:15 AM"%string _ _ _ _ _ _).
  - lia.
  - vm_compute. discriminate.
  - intros a b. reflexivity.
  - intros e be [<-|[]] [= <-]. reflexivity.
  - reflexivity.
  - left. reflexivity.
Defined.

End SlotFacts.

(** ** The order in which the store lists the events *)
Section OrderFacts.
Import Clock Config Store CalendarService Spec Vocabulary.

Lemma busy_times_of_perm events events' :
  Permutation events events' ->
  Permutation (busy_times_of events) (busy_times_of events').
Proof.
  induction 1 as [|x l l' _ IH|x y l|l l' l'' _ IH1 _ IH2].
  - constructor.
  - cbn [busy_times_of]. destruct (not_cancelled x); [|exact IH].
    destruct (ev_start x), (ev_end x); auto.
  - cbn [busy_times_of].
    destruct (not_cancelled x), (not_cancelled y); try reflexivity;
      destruct (ev_start x), (ev_end x); try reflexivity;
      destruct (ev_start y), (ev_end y); try reflexivity.
    apply perm_swap.
  - now transitivity (busy_times_of l').
Qed.

Lemma swap_ties_sym l l' : swap_ties l l' -> swap_ties l' l.
Proof.
  induction 1 as [l|x y l Hxy|x l l' _ IH|l1 l2 l3 _ IH1 _ IH2].
  - apply swap_refl.
  - apply swap_here. now symmetry.
  - now apply swap_skip.
  - now apply (swap_trans _ l2).
Qed.

(** An element whose start ties with all those before it can be brought
    to the front. *)
Lemma swap_ties_front x a b :
  (forall y, In y a -> fst y = fst x) ->
  swap_ties (a ++ x :: b) (x :: a ++ b).
Proof.
  induction a as [|y a IH]; intros Hties; [apply swap_refl|].
  apply (swap_trans _ (y :: x :: a ++ b)).
  - apply swap_skip, IH. intros z Hz. apply Hties. now right.
  - apply swap_here. apply Hties. now left.
Qed.

Lemma sorted_without x a b :
  StronglySorted by_start (a ++ x :: b) ->
  StronglySorted by_start (a ++ b) /\ forall y, In y a -> by_start y x.
Proof.
  induction a as [|y a IH]; cbn [List.app]; intros Hs.
  - apply StronglySorted_inv in Hs as [Hs _]. split; [exact Hs | intros y []].
  - apply StronglySorted_inv in Hs as [Hs Hall].
    destruct (IH Hs) as [Hs' Hbefore]. split.
    + constructor; [exact Hs'|].
      rewrite List.Forall_forall in *. intros z Hz. apply Hall.
      apply in_app_or in Hz as [Hz|Hz]; apply in_or_app; [now left | right; now right].
    + intros z [<-|Hz]; [|now apply Hbefore].
      rewrite List.Forall_forall in Hall. apply Hall, in_or_app. right. now left.
Qed.

(** Two orderings by start of the same busy times differ only in the
    order of those that start together. *)
Lemma sorted_perm_swap_ties l1 :
  forall l2,
    StronglySorted by_start l1 -> StronglySorted by_start l2 ->
    Permutation l1 l2 -> swap_ties l1 l2.
Proof.
  induction l1 as [|x l1 IH]; intros l2 Hs1 Hs2 Hperm.
  - apply Permutation_nil in Hperm. subst. apply swap_refl.
  - assert (Hin : In x l2) by (apply (Permutation_in _ Hperm); now left).
    apply in_split in Hin as (a & b & ->).
    apply Permutation_cons_app_inv in Hperm.
    apply StronglySorted_inv in Hs1 as [Hs1 Hall].
    destruct (sorted_without x a b Hs2) as [Hs2' Hbefore].
    apply (swap_trans _ (x :: a ++ b)).
    + apply swap_skip, IH; assumption.
    + apply swap_ties_sym, swap_ties_front. intros y Hy.
      specialize (Hbefore y Hy). unfold by_start in *.
      rewrite List.Forall_forall in Hall.
      assert (fst x <= fst y)
        by (apply Hall, (Permutation_in _ (Permutation_sym Hperm)), in_or_app; now left).
      lia.
Qed.

(** Once the slots before a busy start are emitted, a second busy period
    with the same start emits nothing. *)
Lemma slots_before_settled fuel slot buffer bs cur acc c a :
  slots_before fuel slot buffer bs cur acc = Some (c, a) ->
  forall c' a', c <= c' -> slots_before fuel slot buffer bs c' a' = Some (c', a').
Proof.
  unfold slots_before. intros H c' a' Hle.
  assert (Hstop : bs < c + slot + buffer).
  { destruct (Z.leb_spec (slot + buffer) (bs - cur)) as [Hfit|Hfit].
    - apply emit_while_spec in H as (n & _ & _ & _ & Hstop).
      apply Z.leb_gt in Hstop. lia.
    - injection H as <- <-. lia. }
  destruct (Z.leb_spec (slot + buffer) (bs - c')); [lia | reflexivity].
Qed.

Lemma walk_busy_swap_ties fuel slot buffer l l' :
  swap_ties l l' ->
  forall cur acc,
    walk_busy fuel slot buffer l cur acc = walk_busy fuel slot buffer l' cur acc.
Proof.
  induction 1 as [l|[bs e1] [bs' e2] l Hxy|[bs e] l l' _ IH|l1 l2 l3 _ IH1 _ IH2];
    intros cur acc.
  - reflexivity.
  - cbn [fst] in Hxy. subst bs'. cbn [walk_busy].
    destruct (slots_before fuel slot buffer bs cur acc) as [[c a]|] eqn:Hb;
      [|reflexivity].
    rewrite (slots_before_settled _ _ _ _ _ _ _ _ Hb (Z.max c (e1 + buffer)) a)
      by lia.
    rewrite (slots_before_settled _ _ _ _ _ _ _ _ Hb (Z.max c (e2 + buffer)) a)
      by lia.
    f_equal. lia.
  - cbn [walk_busy].
    destruct (slots_before fuel slot buffer bs cur acc) as [[c a]|]; [|reflexivity].
    apply IH.
  - now rewrite IH1.
Qed.

Lemma slot_starts_perm cfg fuel sod eod dur events events' :
  Permutation events events' ->
  slot_starts cfg fuel sod eod dur events = slot_starts cfg fuel sod eod dur events'.
Proof.
  intros Hperm. unfold slot_starts.
  rewrite (walk_busy_swap_ties fuel _ _
             (sort_by_start (busy_times_of events))
             (sort_by_start (busy_times_of events'))); [reflexivity|].
  apply sorted_perm_swap_ties; try apply sort_by_start_sorted.
  rewrite !sort_by_start_perm. now apply busy_times_of_perm.
Qed.

Lemma filter_perm {A} (f : A -> bool) l l' :
  Permutation l l' -> Permutation (List.filter f l) (List.filter f l').
Proof.
  induction 1 as [|x l l' _ IH|x y l|l l' l'' _ IH1 _ IH2]; cbn [List.filter].
  - constructor.
  - destruct (f x); auto.
  - destruct (f x), (f y); try reflexivity. apply perm_swap.
  - now transitivity (List.filter f l').
Qed.

(** X9.  The slots of a day do not depend on the order in which the store
    lists the events: two stores whose listings hold the same events, in
    any order, get the same answer from [get_available_slots]. *)
Theorem slots_do_not_depend_on_listing_order cfg st st' fuel date dur :
  (forall a b, same_events (events_list st a b) (events_list st' a b)) ->
  result (get_available_slots cfg st fuel date dur)
  = result (get_available_slots cfg st' fuel date dur).
Proof.
  intros Hsame. unfold result, run. rewrite !get_available_slots_fst. f_equal.
  unfold result, run, available_slot_times.
  destruct (replace_hour date (BUSINESS_START_HOUR cfg)) as [sod|]; [|reflexivity].
  destruct (replace_hour date (BUSINESS_END_HOUR cfg)) as [eod|]; [|reflexivity].
  destruct (negb (is_business_day cfg date)); [reflexivity|].
  unfold bind, list_events. specialize (Hsame sod eod). unfold same_events in Hsame.
  destruct (events_list st sod eod) as [l|], (events_list st' sod eod) as [l'|];
    try contradiction; cbn [fst ret]; [|reflexivity].
  now apply slot_starts_perm.
Qed.

Lemma slots_do_not_depend_on_listing_order_witness :
  result (get_available_slots settings
            (store_holding [busy_event "confirmed" (at_ monday 10 0) (at_ monday 11 0);
                            busy_event "confirmed" (at_ monday 10 0) (at_ monday 12 0);
                            busy_event "confirmed" (at_ monday 14 0) (at_ monday 15 0)])
            10 (at_ monday 8 0) 60)
  = result (get_available_slots settings
              (store_holding [busy_event "confirmed" (at_ monday 14 0) (at_ monday 15 0);
                              busy_event "confirmed" (at_ monday 10 0) (at_ monday 12 0);
                              busy_event "confirmed" (at_ monday 10 0) (at_ monday 11 0)])
              10 (at_ monday 8 0) 60).
Proof.
  apply slots_do_not_depend_on_listing_order.
  intros a b. cbn [same_events store_holding events_list].
  apply filter_perm.
  apply (perm_trans (perm_swap _ _ _)).
  apply (perm_trans (perm_skip _ (perm_swap _ _ _))).
  apply perm_swap.
Defined.

End OrderFacts.

(** ** The tools and their handlers *)
Section ToolFacts.
Import Py Clock Config Json Store CalendarService Tools Agent Spec Suggest Vocabulary.

Lemma check_availability_run st s e log :
  CalendarService.check_availability st s e log
  = (match events_list st s e with Ok events => no_conflict events | Raised => false end,
     log ++ [CallList s e]).
Proof.
  unfold CalendarService.check_availability, bind, list_events.
  now destruct (events_list st s e).
Qed.

(** X10.  When [find_next_available_slot] names a slot, the day it names is
    a business day, and the text is that of the first instant the engine
    offers for that day. *)
Theorem next_available_day_is_business_day cfg st fuel date dur next_slot search_date :
  result (find_next_available_slot cfg st fuel date dur)
  = Some (NextAvailable next_slot search_date) ->
  is_business_day cfg search_date = true /\
  exists t rest,
    result (available_slot_times cfg st fuel search_date dur) = Some (t :: rest) /\
    next_slot = strftime_I_M_p t.
Proof.
  intros H. unfold result at 1, run, find_next_available_slot, range in H.
  apply scan_days_spec in H as (i & rest & _ & _ & Hslots & _).
  unfold result at 1, run in Hslots. rewrite get_available_slots_fst in Hslots.
  destruct (result (available_slot_times cfg st fuel search_date dur))
    as [[|t times]|] eqn:Htimes; try discriminate.
  injection Hslots as <- _. split; [|now exists t, times].
  apply available_slot_times_inv in Htimes as [Hnil|(? & ? & ? & _ & _ & Hday & _)];
    [discriminate | exact Hday].
Qed.

Lemma next_available_day_is_business_day_witness :
  is_business_day settings (at_ (monday + 5) 0 0 + days 2) = true /\
  exists t rest,
    result (available_slot_times settings scenario_A 10
              (at_ (monday + 5) 0 0 + days 2) 60) = Some (t :: rest) /\
    "09:00 AM"%string = strftime_I_M_p t.
Proof.
  apply (next_available_day_is_business_day settings scenario_A 10
           (at_ (monday + 5) 0 0) 60). reflexivity.
Defined.

Lemma book_appointment_trace st title start_time duration_minutes description :
  let booking :=
    book_appointment st title start_time duration_minutes description in
  (forall body, In (CallInsert body) (calls booking) ->
     exists delta events,
       timedelta_minutes
         (match duration_minutes with JNull => JInt 60 | v => v end) = Some delta /\
       events_list st start_time (start_time + delta) = Ok events /\
       no_conflict events = true /\
       body = {| ne_summary := title; ne_description := description;
                 ne_start := start_time; ne_end := start_time + delta |} /\
       calls booking = [CallList start_time (start_time + delta); CallInsert body]) /\
  (forall t s d status link,
     result booking = Booked t s d status link ->
     exists body created,
       In (CallInsert body) (calls booking) /\
       events_insert st body = Ok created /\
       link = cr_htmlLink created /\ t = title /\ s = start_time).
Proof.
  cbv zeta. unfold calls, result, run, book_appointment.
  destruct (timedelta_minutes _) as [delta|] eqn:Hdelta;
    [|cbn [fst snd ret]; split; [intros b [] | discriminate]].
  unfold bind. rewrite !check_availability_run.
  destruct (events_list st start_time (start_time + delta)) as [events|] eqn:Hev;
    [|cbn; split; [intros b [Hb|[]]; discriminate Hb | discriminate]].
  destruct (no_conflict events) eqn:Hnc;
    [|cbn; split; [intros b [Hb|[]]; discriminate Hb | discriminate]].
  cbn [negb]. unfold create_event, insert_event.
  set (body := {| ne_summary := title; ne_description := description;
                  ne_start := start_time; ne_end := start_time + delta |}).
  destruct (events_insert st body) as [created|] eqn:Hins; cbn [fst snd ret app];
    (split;
     [ intros b [Hb|[Hb|[]]]; [discriminate Hb|]; injection Hb as <-;
       exists delta, events; auto
     | intros t s d status link Hr; try discriminate Hr ]).
  injection Hr as <- <- _ _ <-. exists body, created.
  repeat split; auto. right. now left.
Qed.

(** X11.  [book_appointment] writes to the store at most once, and only
    after one listing of exactly the requested window came back with no
    live event; what it inserts carries the given title and description
    over that window; and it confirms a booking only when the store
    accepted that insertion. *)
Theorem booking_store_calls st title start_time duration_minutes description :
  let booking :=
    book_appointment st title start_time duration_minutes description in
  (forall body, In (CallInsert body) (calls booking) ->
     exists delta events,
       timedelta_minutes
         (match duration_minutes with JNull => JInt 60 | v => v end) = Some delta /\
       events_list st start_time (start_time + delta) = Ok events /\
       no_conflict events = true /\
       body = {| ne_summary := title; ne_description := description;
                 ne_start := start_time; ne_end := start_time + delta |} /\
       calls booking = [CallList start_time (start_time + delta); CallInsert body]) /\
  (forall t s d status link,
     result booking = Booked t s d status link ->
     exists body created,
       In (CallInsert body) (calls booking) /\
       events_insert st body = Ok created /\
       link = cr_htmlLink created /\ t = title /\ s = start_time).
Proof. apply book_appointment_trace. Qed.

Lemma booking_store_calls_witness :
  exists delta events,
    timedelta_minutes (JInt 60) = Some delta /\
    events_list scenario_A (at_ monday 13 0) (at_ monday 13 0 + delta) = Ok events /\
    no_conflict events = true /\
    {| ne_summary := JStr "Review"; ne_description := JStr "";
       ne_start := at_ monday 13 0; ne_end := at_ monday 14 0 |}
    = {| ne_summary := JStr "Review"; ne_description := JStr "";
         ne_start := at_ monday 13 0; ne_end := at_ monday 13 0 + delta |} /\
    calls (book_appointment scenario_A (JStr "Review") (at_ monday 13 0)
             JNull (JStr ""))
    = [CallList (at_ monday 13 0) (at_ monday 13 0 + delta);
       CallInsert {| ne_summary := JStr "Review"; ne_description := JStr "";
                     ne_start := at_ monday 13 0; ne_end := at_ monday 14 0 |}].
Proof.
  apply (proj1 (booking_store_calls scenario_A (JStr "Review") (at_ monday 13 0)
                  JNull (JStr ""))).
  right. left. reflexivity.
Defined.

Lemma booking_handler_trace env st entities body :
  In (CallInsert body) (calls (_handle_booking env st entities)) ->
  exists t delta,
    _parse_datetime env (get entities "date") (get entities "time") = Some t /\
    timedelta_minutes
      (if truthy (get_default entities "duration" (JInt 60))
       then get_default entities "duration" (JInt 60) else JInt 60) = Some delta /\
    (truthy (get_default entities "duration" (JInt 60)) = false ->
     delta = minutes 60) /\
    body = {| ne_summary := get_default entities "title" (JStr "Appointment");
              ne_description := get_default entities "description" (JStr "");
              ne_start := t; ne_end := t + delta |}.
Proof.
  unfold _handle_booking.
  destruct (negb (truthy (get entities "date")) || negb (truthy (get entities "time")));
    [intros []|].
  destruct (_parse_datetime env _ _) as [t|]; [|intros []].
  set (duration := if truthy (get_default entities "duration" (JInt 60))
                   then get_default entities "duration" (JInt 60) else JInt 60).
  intros Hin.
  apply (proj1 (book_appointment_trace st _ t duration _)) in Hin
    as (delta & events & Hdelta & _ & _ & -> & _).
  assert (Hsame : match duration with JNull => JInt 60 | v => v end = duration).
  { subst duration.
    destruct (get_default entities "duration" (JInt 60)) as [|b|z|s|l|l];
      try reflexivity; now destruct (truthy _). }
  rewrite Hsame in Hdelta.
  exists t, delta. repeat split; auto.
  intros Hfalsy. subst duration. rewrite Hfalsy in Hdelta.
  now injection Hdelta as <-.
Qed.

(** X12.  Whatever the entity bag holds, the booking handler inserts
    nothing unless both fragments were read as one instant [t]; what it
    inserts then starts at [t], carries the title of the bag (or
    ['Appointment'] when the bag has none) and its description (or the
    empty text), and lasts the duration under ['duration'], 60 minutes when
    that entry is absent, null, zero or otherwise falsy. *)
Theorem booking_handler_inserts_parsed_window env st entities body :
  In (CallInsert body) (calls (_handle_booking env st entities)) ->
  exists t delta,
    _parse_datetime env (get entities "date") (get entities "time") = Some t /\
    timedelta_minutes
      (if truthy (get_default entities "duration" (JInt 60))
       then get_default entities "duration" (JInt 60) else JInt 60) = Some delta /\
    (truthy (get_default entities "duration" (JInt 60)) = false ->
     delta = minutes 60) /\
    body = {| ne_summary := get_default entities "title" (JStr "Appointment");
              ne_description := get_default entities "description" (JStr "");
              ne_start := t; ne_end := t + delta |}.
Proof. apply booking_handler_trace. Qed.

Lemma booking_handler_inserts_parsed_window_witness :
  exists t delta,
    _parse_datetime monday_morning
      (get (<["date" := JStr "Today"]> (<["time" := JStr "1 pm"]> ∅)) "date")
      (get (<["date" := JStr "Today"]> (<["time" := JStr "1 pm"]> ∅)) "time")
    = Some t /\
    timedelta_minutes
      (if truthy (get_default (<["date" := JStr "Today"]> (<["time" := JStr "1 pm"]> ∅))
                    "duration" (JInt 60))
       then get_default (<["date" := JStr "Today"]> (<["time" := JStr "1 pm"]> ∅))
              "duration" (JInt 60)
       else JInt 60) = Some delta /\
    (truthy (get_default (<["date" := JStr "Today"]> (<["time" := JStr "1 pm"]> ∅))
               "duration" (JInt 60)) = false ->
     delta = minutes 60) /\
    {| ne_summary := JStr "Appointment"; ne_description := JStr "";
       ne_start := at_ monday 13 0; ne_end := at_ monday 14 0 |}
    = {| ne_summary :=
           get_default (<["date" := JStr "Today"]> (<["time" := JStr "1 pm"]> ∅))
             "title" (JStr "Appointment");
         ne_description :=
           get_default (<["date" := JStr "Today"]> (<["time" := JStr "1 pm"]> ∅))
             "description" (JStr "");
         ne_start := t; ne_end := t + delta |}.
Proof.
  apply (booking_handler_inserts_parsed_window monday_morning scenario_A
           (<["date" := JStr "Today"]> (<["time" := JStr "1 pm"]> ∅))).
  right. left. reflexivity.
Defined.

Lemma fallback_bag_keys message bag key :
  _simple_entity_extraction message = Ok bag ->
  key <> "date"%string -> key <> "time"%string -> key <> "title"%string ->
  bag !! key = None.
Proof.
  unfold _simple_entity_extraction. intros H Hd Ht Htitle.
  destruct (extract_time time_patterns message) as [time|]; [|discriminate].
  destruct (_ !! "title"%string); injection H as <-;
    rewrite ?lookup_insert_ne by congruence;
    rewrite !set_if_other by congruence; apply lookup_empty.
Qed.

(** X13.  The bag of the fallback extraction never has a duration or a
    description, so a booking made from it, when one is inserted, always
    lasts 60 minutes from the instant read, with the empty description and
    a text as title. *)
Theorem fallback_booking_lasts_an_hour env st message bag body :
  _simple_entity_extraction message = Ok bag ->
  In (CallInsert body) (calls (_handle_booking env st bag)) ->
  ne_end body = ne_start body + minutes 60 /\
  ne_description body = JStr "" /\
  exists title, ne_summary body = JStr title.
Proof.
  intros Hbag Hin.
  pose proof (fallback_bag_keys message bag "duration" Hbag
                ltac:(discriminate) ltac:(discriminate) ltac:(discriminate)) as Hdur.
  pose proof (fallback_bag_keys message bag "description" Hbag
                ltac:(discriminate) ltac:(discriminate) ltac:(discriminate)) as Hdesc.
  apply booking_handler_trace in Hin as (t & delta & _ & Hdelta & _ & ->).
  unfold get_default in *. rewrite Hdur in Hdelta. rewrite Hdesc.
  cbn in Hdelta. injection Hdelta as <-. cbn [ne_start ne_end ne_description ne_summary].
  repeat split.
  destruct (fallback_title message) as (bag' & Hbag' & Htitle).
  rewrite Hbag in Hbag'. injection Hbag' as <-. rewrite Htitle. eauto.
Qed.

Lemma fallback_booking_lasts_an_hour_witness :
  ne_end {| ne_summary := JStr "Meeting"; ne_description := JStr "";
            ne_start := at_ (monday + 1) 14 0; ne_end := at_ (monday + 1) 15 0 |}
  = ne_start {| ne_summary := JStr "Meeting"; ne_description := JStr "";
                ne_start := at_ (monday + 1) 14 0;
                ne_end := at_ (monday + 1) 15 0 |} + minutes 60 /\
  ne_description {| ne_summary := JStr "Meeting"; ne_description := JStr "";
                    ne_start := at_ (monday + 1) 14 0;
                    ne_end := at_ (monday + 1) 15 0 |} = JStr "" /\
  exists title,
    ne_summary {| ne_summary := JStr "Meeting"; ne_description := JStr "";
                  ne_start := at_ (monday + 1) 14 0;
                  ne_end := at_ (monday + 1) 15 0 |} = JStr title.
Proof.
  apply (fallback_booking_lasts_an_hour monday_morning scenario_A
           "Book a meeting tomorrow at 2 pm"
           (<["title" := JStr "Meeting"]>
              (<["time" := JStr "14:00"]> (<["date" := JStr "tomorrow"]> ∅)))).
  - vm_compute. reflexivity.
  - right. left. reflexivity.
Defined.

(** X14.  The availability handler never writes to the store, whatever the
    entity bag holds: it makes no call at all, or the one listing of the 60
    minutes from the instant the two fragments were read as (an entry under
    ['duration'] plays no part). *)
Theorem availability_handler_only_reads env st entities :
  calls (_handle_availability_check env st entities) = [] \/
  exists t,
    _parse_datetime env (get entities "date") (get entities "time") = Some t /\
    calls (_handle_availability_check env st entities)
    = [CallList t (t + minutes 60)].
Proof.
  unfold _handle_availability_check.
  destruct (negb (truthy (get entities "date")) || negb (truthy (get entities "time")));
    [now left|].
  destruct (_parse_datetime env _ _) as [t|]; [|now left].
  right. exists t. split; [reflexivity|].
  unfold calls, run, Tools.check_availability, bind.
  rewrite check_availability_run.
  now destruct (events_list st t (t + minutes 60)) as [events|];
    [destruct (no_conflict events)|].
Qed.

Lemma filter_insert_listing log a b :
  List.filter is_insert (log ++ [CallList a b]) = List.filter is_insert log.
Proof. rewrite List.filter_app. cbn. apply app_nil_r. Qed.

Lemma get_available_slots_log cfg st fuel date dur log :
  List.filter is_insert (snd (get_available_slots cfg st fuel date dur log))
  = List.filter is_insert log.
Proof.
  unfold get_available_slots, available_slot_times, bind.
  destruct (replace_hour date (BUSINESS_START_HOUR cfg)); [|reflexivity].
  destruct (replace_hour date (BUSINESS_END_HOUR cfg)); [|reflexivity].
  destruct (negb (is_business_day cfg date)); [reflexivity|].
  unfold bind, list_events.
  destruct (events_list st _ _); cbn [snd ret]; apply filter_insert_listing.
Qed.

Lemma suggestions_never_insert env cfg st fuel entities log :
  List.filter is_insert
    (snd (Suggest._handle_time_suggestions env cfg st fuel entities log))
  = List.filter is_insert log.
Proof.
  unfold Suggest._handle_time_suggestions.
  destruct (negb (truthy (get entities "date"))); [reflexivity|].
  destruct (_parse_date env (get entities "date")) as [target_date|]; [|reflexivity].
  unfold suggest_available_times, bind.
  pose proof (get_available_slots_log cfg st fuel target_date 60 log) as Hlog.
  destruct (get_available_slots cfg st fuel target_date 60 log) as [[[|slot slots]|] log'];
    exact Hlog.
Qed.




End ToolFacts.

(** ** The graph of the agent *)
Section GraphFacts.
Import Py Clock Json Store Tools Agent Spec Clean Graph Vocabulary.

Lemma use_tools_keeps_error dates st suggest listing state log :
  error (fst (Graph._use_tools dates st suggest listing state log)) = error state.
Proof.
  unfold Graph._use_tools. destruct (has_error state); [reflexivity|].
  unfold bind. now destruct (match entities state with _ => _ end log).
Qed.

Lemma use_tools_result dates st suggest listing state log :
  has_error state = false ->
  exists reply,
    tool_results (fst (Graph._use_tools dates st suggest listing state log))
    = Some reply /\
    response (fst (Graph._use_tools dates st suggest listing state log))
    = response state /\
    user_message (fst (Graph._use_tools dates st suggest listing state log))
    = user_message state /\
    intent (fst (Graph._use_tools dates st suggest listing state log))
    = intent state.
Proof.
  intros Hno. unfold Graph._use_tools. rewrite Hno. unfold bind.
  destruct (match entities state with _ => _ end log) as [reply log'].
  exists reply. auto.
Qed.

(** X16.  Whatever the language model, [json.loads], the handlers and the
    store do, [process_message] returns the apology for an error, the text
    the model phrased, or the tool result as it is: never [None], never the
    text [_handle_error] writes, and never a missing tool result. *)
Theorem process_message_answers env dates st suggest listing message :
  (exists e, result (process_message env dates st suggest listing message) = Apology e) \/
  (exists content, result (process_message env dates st suggest listing message) = Said (Phrased content)) \/
  (exists reply, result (process_message env dates st suggest listing message) = Said (Verbatim (Some reply))).
Proof.
  unfold result, run, process_message, bind, graph.
  set (s2 := _extract_entities env (_understand_intent env (initial_state message))).
  destruct (has_error s2) eqn:Herr.
  - unfold has_error in Herr. unfold _handle_error, ret.
    destruct (error s2) as [e|] eqn:He; [|discriminate].
    cbn. rewrite He. left. now exists e.
  - unfold bind.
    pose proof (use_tools_keeps_error dates st suggest listing s2 []) as Hkeep.
    destruct (use_tools_result dates st suggest listing s2 [] Herr) as (reply & Htool & _).
    destruct (Graph._use_tools dates st suggest listing s2 []) as [s3 log].
    cbn [fst] in Hkeep, Htool.
    assert (Herr3 : has_error s3 = false)
      by (unfold has_error in *; now rewrite Hkeep).
    rewrite Herr3. unfold ret, _generate_response. rewrite Herr3, Htool.
    unfold has_error in Herr3.
    destruct (llm_invoke env _) as [content|]; cbn;
      destruct (error s3); try discriminate; cbn; eauto.
Qed.

(** X17.  When the language model raises on the intent prompt, or on the
    entity prompt, [process_message] apologises with the text of that
    node, and no call to the calendar store is made. *)
Theorem model_failure_apologises_without_calendar env dates st suggest listing message log :
  (llm_invoke env (AskIntent message) = Raised ->
   process_message env dates st suggest listing message log = (Apology FailedToUnderstand, log)) /\
  (forall content,
     llm_invoke env (AskIntent message) = Ok content ->
     llm_invoke env (AskEntities message (Some (lower (strip content)))) = Raised ->
     process_message env dates st suggest listing message log = (Apology FailedToExtract, log)).
Proof.
  unfold process_message, bind, graph, _understand_intent. cbn.
  split.
  - intros ->. reflexivity.
  - intros content -> Hraise. unfold _extract_entities. cbn. now rewrite Hraise.
Qed.

Lemma model_failure_apologises_without_calendar_witness :
  process_message (scripted Raised Raised) monday_morning scenario_A
    unused_handler unused_handler "Book a meeting tomorrow at 2 pm" []
  = (Apology FailedToUnderstand, []) /\
  process_message (scripted (Ok "book_appointment") Raised) monday_morning
    scenario_A unused_handler unused_handler "Book a meeting tomorrow at 2 pm" []
  = (Apology FailedToExtract, []).
Proof.
  split.
  - apply (proj1 (model_failure_apologises_without_calendar
                    (scripted Raised Raised) monday_morning scenario_A
                    unused_handler unused_handler
                    "Book a meeting tomorrow at 2 pm" [])).
    reflexivity.
  - apply (proj2 (model_failure_apologises_without_calendar
                    (scripted (Ok "book_appointment") Raised) monday_morning
                    scenario_A unused_handler unused_handler
                    "Book a meeting tomorrow at 2 pm" [])
             "book_appointment"); reflexivity.
Defined.

(** X18.  When [json.loads] raises [JSONDecodeError] on the model's entity
    text, once cleaned, the dispatch runs on the bag of the fallback
    extraction of the user's message under the intent the model gave: the
    answer is what the model phrases from that tool result, or the tool
    result itself when the model raises on the response prompt; a
    [JSONDecodeError] alone never ends in an apology.  Any other exception
    of [json.loads] (a [RecursionError] on deeply nested brackets) does:
    the answer is then the apology of the node, and no call to the
    calendar store is made. *)
Theorem malformed_json_dispatches_on_fallback env dates st suggest listing message c1 c2 log :
  llm_invoke env (AskIntent message) = Ok c1 ->
  llm_invoke env (AskEntities message (Some (lower (strip c1)))) = Ok c2 ->
  (json_loads env (_clean_json_response (strip c2)) = NotJson ->
   forall bag,
     _simple_entity_extraction message = Ok bag ->
     process_message env dates st suggest listing message log
     = let (reply, log') :=
         Agent._use_tools dates st suggest listing (lower (strip c1)) bag log in
       (Said match llm_invoke env (AskResponse message (Some (lower (strip c1)))
                                 (Some reply)) with
             | Ok content => Phrased content
             | Raised => Verbatim (Some reply)
             end, log')) /\
  (json_loads env (_clean_json_response (strip c2)) = LoadFailed ->
   process_message env dates st suggest listing message log
   = (Apology FailedToExtract, log)).
Proof.
  intros H1 H2.
  unfold process_message, bind, graph, _understand_intent. cbn.
  rewrite H1. unfold _extract_entities. cbn. rewrite H2. split.
  - intros H3 bag H4. rewrite H3, H4. cbn.
    unfold Graph._use_tools. cbn. unfold bind.
    destruct (Agent._use_tools dates st suggest listing (lower (strip c1)) bag log)
      as [reply log']. cbn.
    unfold _generate_response. cbn.
    now destruct (llm_invoke env (AskResponse message _ _)).
  - intros H3. rewrite H3. reflexivity.
Qed.

Lemma malformed_json_dispatches_on_fallback_witness :
  process_message (scripted (Ok " Book_Appointment ") (Ok "no json here"))
    monday_morning scenario_A unused_handler unused_handler
    "Book a meeting tomorrow at 2 pm" []
  = (Said (Verbatim (Some (ToolError "book"))),
     [CallList (at_ (monday + 1) 14 0) (at_ (monday + 1) 15 0);
      CallInsert {| ne_summary := JStr "Meeting"; ne_description := JStr "";
                    ne_start := at_ (monday + 1) 14 0;
                    ne_end := at_ (monday + 1) 15 0 |}]).
Proof.
  refine (proj1 (malformed_json_dispatches_on_fallback
                   (scripted (Ok " Book_Appointment ") (Ok "no json here"))
                   monday_morning scenario_A unused_handler unused_handler
                   "Book a meeting tomorrow at 2 pm" " Book_Appointment "
                   "no json here" [] _ _)
            _
            (<["title" := JStr "Meeting"]>
               (<["time" := JStr "14:00"]> (<["date" := JStr "tomorrow"]> ∅)))
            _).
  - reflexivity.
  - reflexivity.
  - reflexivity.
  - vm_compute. reflexivity.
Defined.

Lemma answer_keeps_log (s : State) (log : list StoreCall) :
  snd (let (a, log') := ret s log in
       match error a with
       | Some e => ret (Apology e)
       | None => match response a with
                 | Some text => ret (Said text)
                 | None => ret SaidNone
                 end
       end log') = log.
Proof.
  unfold ret. destruct (error s); [reflexivity|]. now destruct (response s).
Qed.

(** Outside the four intents whose handler may reach the calendar, the
    dispatch leaves the log as it is. *)
Lemma non_calendar_intent_fixed dates st suggest listing intent entities log :
  intent <> "book_appointment"%string -> intent <> "check_availability"%string ->
  intent <> "suggest_times"%string -> intent <> "list_appointments"%string ->
  snd (Agent._use_tools dates st suggest listing intent entities log) = log.
Proof.
  intros H1 H2 H3 H4. unfold Agent._use_tools.
  apply String.eqb_neq in H1, H2, H3, H4. rewrite H1, H2, H3, H4.
  now repeat destruct (String.eqb intent _).
Qed.

(** X19.  When the intent the model names (stripped and lowered) is none of
    [book_appointment], [check_availability], [suggest_times] and
    [list_appointments], [process_message] makes no call to the calendar
    store, whatever the model answers on the entity prompt and whatever
    the two free handlers would do. *)
Theorem other_intents_never_reach_calendar env dates st suggest listing message content log :
  llm_invoke env (AskIntent message) = Ok content ->
  lower (strip content) <> "book_appointment"%string ->
  lower (strip content) <> "check_availability"%string ->
  lower (strip content) <> "suggest_times"%string ->
  lower (strip content) <> "list_appointments"%string ->
  snd (process_message env dates st suggest listing message log) = log.
Proof.
  intros Hintent H1 H2 H3 H4.
  unfold process_message, bind, graph, _understand_intent. cbn.
  rewrite Hintent.
  set (s1 := set_intent (initial_state message) (lower (strip content))).
  assert (Hi : forall s, intent s = Some (lower (strip content)) ->
                         has_error s = false ->
                         snd (Graph._use_tools dates st suggest listing s log) = log).
  { intros s Hs Hno. unfold Graph._use_tools. rewrite Hno, Hs. unfold bind.
    destruct (entities s) as [[| | | | |pairs]|bag];
      try (pose proof (non_calendar_intent_fixed dates st suggest listing (lower (strip content)) ∅ log
                         H1 H2 H3 H4) as Hfix;
           unfold tools_on_non_dict;
           apply String.eqb_neq in H1, H2, H3, H4; rewrite H1, H2, H3, H4;
           destruct (Agent._use_tools _ _ _ _ _ _ log); exact Hfix).
    - pose proof (non_calendar_intent_fixed dates st suggest listing (lower (strip content)) (dict_of pairs)
                    log H1 H2 H3 H4) as Hfix.
      destruct (Agent._use_tools _ _ _ _ _ _ log); exact Hfix.
    - pose proof (non_calendar_intent_fixed dates st suggest listing (lower (strip content)) bag
                    log H1 H2 H3 H4) as Hfix.
      destruct (Agent._use_tools _ _ _ _ _ _ log); exact Hfix. }
  set (s2 := _extract_entities env s1).
  assert (Hint2 : intent s2 = Some (lower (strip content))).
  { subst s2. unfold _extract_entities. cbn.
    destruct (llm_invoke env (AskEntities _ _)); [|reflexivity].
    destruct (json_loads env _); [reflexivity | | reflexivity].
    now destruct (_simple_entity_extraction message). }
  destruct (has_error s2) eqn:Herr.
  { apply answer_keeps_log. }
  specialize (Hi s2 Hint2 Herr). unfold bind.
  destruct (Graph._use_tools dates st suggest listing s2 log) as [s3 log'].
  cbn [snd] in Hi. subst log'.
  destruct (has_error s3); apply answer_keeps_log.
Qed.

Lemma other_intents_never_reach_calendar_witness :
  snd (process_message (scripted (Ok "cancel_appointment") (Ok "{}"))
         monday_morning scenario_A unused_handler unused_handler
         "Cancel my meeting tomorrow at 2 pm" []) = [].
Proof.
  apply (other_intents_never_reach_calendar
           (scripted (Ok "cancel_appointment") (Ok "{}"))
           monday_morning scenario_A unused_handler unused_handler
           "Cancel my meeting tomorrow at 2 pm" "cancel_appointment" []);
    [reflexivity | | | |]; intros H; vm_compute in H; discriminate H.
Defined.

End GraphFacts.

(** ** Listing appointments, and which intent may write *)
Section ListingFacts.
Import Py Clock Config Json Store CalendarService Tools Agent Spec Suggest Listing
  Graph Vocabulary.

Lemma appointments_of_spec events line :
  In line (appointments_of events) <->
  exists event,
    In event events /\ not_cancelled event = true /\
    line = {| title := match ev_summary event with
                       | Some summary => summary
                       | None => "Untitled"%string
                       end;
              start_time := ev_start event |}.
Proof.
  induction events as [|e events IH]; cbn [appointments_of].
  - split; [intros [] | intros (? & [] & _)].
  - destruct (not_cancelled e) eqn:Hnc.
    + split.
      * intros [<-|Hin].
        -- exists e. split; [now left | now split].
        -- apply IH in Hin as (event & Hin & Hlive & ->).
           exists event. split; [now right | now split].
      * intros (event & [<-|Hin] & Hlive & ->); [now left | right].
        apply IH. exists event. now repeat split.
    + rewrite IH. split.
      * intros (event & Hin & Hlive & ->).
        exists event. split; [now right | now split].
      * intros (event & [<-|Hin] & Hlive & ->); [congruence|].
        exists event. now repeat split.
Qed.

Lemma listed_inv period appointments p lines :
  listed period appointments = Appointments p lines ->
  p = period /\ lines = appointments /\ appointments <> [].
Proof.
  destruct appointments; [discriminate|]. cbn. intros [= <- <-]. now repeat split.
Qed.

(** What [list_appointments] did when it answers with lines: it listed one
    window and shows the events of that listing that are not cancelled. *)
Lemma list_appointments_lines env st date log p lines :
  fst (list_appointments env st date log) = Appointments p lines ->
  exists a b events,
    events_list st a b = Ok events /\
    snd (list_appointments env st date log) = log ++ [CallList a b] /\
    lines = appointments_of events /\ lines <> [].
Proof.
  unfold list_appointments, get_appointments_for_date, get_upcoming_appointments,
    bind, list_events.
  destruct (truthy date).
  - destruct date as [|b|z|raw|l|l]; try discriminate.
    destruct (dateutil_parse env raw) as [day|]; [|discriminate].
    destruct (events_list st _ _) as [events|] eqn:Hev; cbn [fst snd ret];
      [|discriminate].
    intros H. apply listed_inv in H as (_ & -> & Hne). eauto 7.
  - destruct (events_list st _ _) as [events|] eqn:Hev; cbn [fst snd ret];
      [|discriminate].
    intros H. apply listed_inv in H as (_ & -> & Hne). eauto 7.
Qed.

Lemma list_appointments_log env st date log :
  snd (list_appointments env st date log) = log \/
  exists a b, snd (list_appointments env st date log) = log ++ [CallList a b].
Proof.
  unfold list_appointments, get_appointments_for_date, get_upcoming_appointments,
    bind, list_events.
  destruct (truthy date).
  - destruct date as [|b|z|raw|l|l]; try (now left).
    destruct (dateutil_parse env raw) as [day|]; [|now left].
    right. destruct (events_list st _ _); cbn [snd ret]; eauto.
  - right. destruct (events_list st _ _); cbn [snd ret]; eauto.
Qed.

Lemma listing_never_inserts env st entities log :
  List.filter is_insert (snd (_handle_list_appointments env st entities log))
  = List.filter is_insert log.
Proof.
  unfold _handle_list_appointments.
  destruct (list_appointments_log env st (get entities "date") log)
    as [->|(a & b & ->)]; [reflexivity | apply filter_insert_listing].
Qed.

(** X20.  The listing handler only reads: it makes at most one listing
    call and no insertion.  The lines it answers with are the events of
    that one listing that are not cancelled, under their summary (or
    ['Untitled']).  When the store raises on every listing, it answers as
    it does over a calendar that lists nothing: the failure is not told
    apart from an empty calendar. *)
Theorem listing_handler_only_reads env st entities :
  (forall log,
     List.filter is_insert (snd (_handle_list_appointments env st entities log))
     = List.filter is_insert log) /\
  (forall p lines,
     result (_handle_list_appointments env st entities) = Appointments p lines ->
     exists a b events,
       events_list st a b = Ok events /\
       calls (_handle_list_appointments env st entities) = [CallList a b] /\
       forall line, In line lines <->
         exists event,
           In event events /\ not_cancelled event = true /\
           line = {| title := match ev_summary event with
                              | Some summary => summary
                              | None => "Untitled"%string
                              end;
                     start_time := ev_start event |}) /\
  ((forall a b, events_list st a b = Raised) ->
   result (_handle_list_appointments env st entities)
   = result (_handle_list_appointments env (store_holding []) entities)).
Proof.
  split; [apply listing_never_inserts|]. split.
  - intros p lines H. unfold result, calls, run, _handle_list_appointments in *.
    apply list_appointments_lines in H as (a & b & events & Hev & Hlog & -> & _).
    exists a, b, events. repeat split; try assumption; apply appointments_of_spec.
  - intros Hraise.
    unfold result, run, _handle_list_appointments, list_appointments,
      get_appointments_for_date, get_upcoming_appointments, bind, list_events.
    destruct (truthy (get entities "date")).
    + destruct (get entities "date") as [|b|z|raw|l|l]; try reflexivity.
      destruct (dateutil_parse env raw); [|reflexivity].
      now rewrite Hraise.
    + now rewrite Hraise.
Qed.

Lemma listing_handler_only_reads_witness :
  result (_handle_list_appointments monday_morning failing_store ∅)
  = result (_handle_list_appointments monday_morning (store_holding []) ∅).
Proof.
  apply (proj2 (proj2 (listing_handler_only_reads monday_morning failing_store ∅))).
  reflexivity.
Defined.

Lemma availability_check_never_inserts env st entities log :
  List.filter is_insert (snd (_handle_availability_check env st entities log))
  = List.filter is_insert log.
Proof.
  unfold _handle_availability_check.
  destruct (negb (truthy (get entities "date")) || negb (truthy (get entities "time")));
    [reflexivity|].
  destruct (_parse_datetime env _ _) as [t|]; [|reflexivity].
  unfold Tools.check_availability, bind. rewrite check_availability_run.
  destruct (match events_list st t (t + minutes 60) with
            | Ok events => no_conflict events
            | Raised => false
            end); apply filter_insert_listing.
Qed.

(** Outside [book_appointment], the dispatch inserts nothing when the two
    free handlers insert nothing. *)
Lemma dispatch_never_inserts dates st suggest listing intent entities log :
  (forall e l, List.filter is_insert (snd (suggest e l)) = List.filter is_insert l) ->
  (forall e l, List.filter is_insert (snd (listing e l)) = List.filter is_insert l) ->
  intent <> "book_appointment"%string ->
  List.filter is_insert
    (snd (Agent._use_tools dates st suggest listing intent entities log))
  = List.filter is_insert log.
Proof.
  intros Hs Hl Hintent. unfold Agent._use_tools.
  apply String.eqb_neq in Hintent. rewrite Hintent.
  destruct (String.eqb intent "check_availability");
    [apply availability_check_never_inserts|].
  destruct (String.eqb intent "suggest_times"); [apply Hs|].
  destruct (String.eqb intent "list_appointments"); [apply Hl|].
  now repeat destruct (String.eqb intent _).
Qed.

Lemma graph_tools_never_insert dates st suggest listing state log :
  (forall e l, List.filter is_insert (snd (suggest e l)) = List.filter is_insert l) ->
  (forall e l, List.filter is_insert (snd (listing e l)) = List.filter is_insert l) ->
  intent state <> Some "book_appointment"%string ->
  List.filter is_insert (snd (Graph._use_tools dates st suggest listing state log))
  = List.filter is_insert log.
Proof.
  intros Hs Hl Hintent. unfold Graph._use_tools.
  destruct (has_error state); [reflexivity|].
  set (name := match intent state with Some i => i | None => EmptyString end).
  assert (Hname : name <> "book_appointment"%string).
  { subst name. destruct (intent state); [congruence | discriminate]. }
  unfold bind.
  pose proof (fun entities =>
                dispatch_never_inserts dates st suggest listing name entities log
                  Hs Hl Hname) as Hdispatch.
  destruct (entities state) as [[| | | | |pairs]|bag];
    try (unfold tools_on_non_dict;
         destruct (String.eqb name "book_appointment"); [reflexivity|];
         destruct (String.eqb name "check_availability"); [reflexivity|];
         destruct (String.eqb name "suggest_times"); [reflexivity|];
         destruct (String.eqb name "list_appointments"); [reflexivity|];
         specialize (Hdispatch ∅);
         destruct (Agent._use_tools _ _ _ _ _ _ log); exact Hdispatch).
  - specialize (Hdispatch (dict_of pairs)).
    destruct (Agent._use_tools _ _ _ _ _ _ log); exact Hdispatch.
  - specialize (Hdispatch bag).
    destruct (Agent._use_tools _ _ _ _ _ _ log); exact Hdispatch.
Qed.

(** X21.  Only a booking writes.  With two free handlers that insert
    nothing (as the suggestion and the listing handler do),
    [process_message] inserts an event into the calendar only when the
    model named the intent [book_appointment]. *)
Theorem only_booking_writes env dates st suggest listing message :
  (forall e l, List.filter is_insert (snd (suggest e l)) = List.filter is_insert l) ->
  (forall e l, List.filter is_insert (snd (listing e l)) = List.filter is_insert l) ->
  List.filter is_insert (calls (process_message env dates st suggest listing message))
  <> [] ->
  exists content,
    llm_invoke env (AskIntent message) = Ok content /\
    lower (strip content) = "book_appointment"%string.
Proof.
  intros Hs Hl Hwrites.
  destruct (llm_invoke env (AskIntent message)) as [content|] eqn:Hintent.
  - exists content. split; [reflexivity|].
    destruct (String.eqb_spec (lower (strip content)) "book_appointment")
      as [Heq|Hne]; [exact Heq | exfalso; apply Hwrites].
    unfold calls, run, process_message, bind, graph, _understand_intent.
    cbn [initial_state user_message]. rewrite Hintent.
    set (s1 := set_intent (initial_state message) (lower (strip content))).
    set (s2 := _extract_entities env s1).
    assert (Hint2 : intent s2 <> Some "book_appointment"%string).
    { subst s2. unfold _extract_entities. cbn.
      destruct (llm_invoke env (AskEntities _ _)); [|cbn; congruence].
      destruct (json_loads env _); [cbn; congruence | | cbn; congruence].
      destruct (_simple_entity_extraction message); cbn; congruence. }
    destruct (has_error s2); [now rewrite answer_keeps_log|].
    unfold bind.
    pose proof (graph_tools_never_insert dates st suggest listing s2 [] Hs Hl Hint2)
      as Hlog.
    destruct (Graph._use_tools dates st suggest listing s2 []) as [s3 log'].
    cbn [snd] in Hlog.
    destruct (has_error s3); now rewrite answer_keeps_log.
  - exfalso. apply Hwrites.
    unfold calls, run, process_message, bind, graph, _understand_intent.
    cbn [initial_state user_message]. now rewrite Hintent.
Qed.

Lemma only_booking_writes_witness :
  exists content,
    llm_invoke (scripted (Ok " Book_Appointment ") (Ok "no json here"))
      (AskIntent "Book a meeting tomorrow at 2 pm") = Ok content /\
    lower (strip content) = "book_appointment"%string.
Proof.
  apply (only_booking_writes
           (scripted (Ok " Book_Appointment ") (Ok "no json here")) monday_morning
           scenario_A
           (fun e => (let* _ := Suggest._handle_time_suggestions monday_morning
                                  settings scenario_A 10 e in
                      ret (Other ""))%cal)
           (fun e => (let* _ := _handle_list_appointments monday_morning scenario_A e in
                      ret (Other ""))%cal)
           "Book a meeting tomorrow at 2 pm").
  - intros e l. unfold bind.
    pose proof (suggestions_never_insert monday_morning settings scenario_A 10 e l)
      as H.
    now destruct (Suggest._handle_time_suggestions _ _ _ _ e l).
  - intros e l. unfold bind.
    pose proof (listing_never_inserts monday_morning scenario_A e l) as H.
    now destruct (_handle_list_appointments _ _ e l).
  - vm_compute. discriminate.
Defined.

End ListingFacts.

(** ** Cleaning the model's entity text *)
Section CleanFacts.
Import Py Re Spec Clean Vocabulary.

Lemma brace_ignores_case c :
  Ascii.eqb (lower_char "{") (lower_char c) = Ascii.eqb "{" c /\
  Ascii.eqb (lower_char "}") (lower_char c) = Ascii.eqb "}" c.
Proof.
  destruct c as [[] [] [] [] [] [] [] []]; split; reflexivity.
Qed.

Lemma literal_close prev c s :
  literal "}" prev (String c s) = if Ascii.eqb "}" c then Some (Some c, s) else None.
Proof.
  cbn [literal]. rewrite (proj2 (brace_ignores_case c)).
  now destruct (Ascii.eqb "}" c).
Qed.

(** The greedy [.*] before [\}] stops at the last closing brace. *)
Lemma greedy_to_last {R} (F : string -> R) rest :
  forall prev,
    greedy any_char 0 None prev rest
      (fun prev' s' =>
         match literal "}" prev' s' with
         | Some (_, s'') => Some (F s'')
         | None => None
         end)
    = option_map F (after_last "}" rest).
Proof.
  induction rest as [|x rest IH]; intros prev; [reflexivity|].
  cbn [greedy after_last any_char may_take andb Nat.eqb Nat.pred one_less].
  rewrite IH. destruct (after_last "}" rest) as [r|]; [reflexivity|].
  cbn [option_map]. rewrite literal_close.
  now destruct (Ascii.eqb "}" x).
Qed.

Lemma match_brace_span prev c rest :
  match_here brace_span prev (String c rest)
  = if Ascii.eqb "{" c
    then option_map
           (fun s'' => {| group0 := consumed (String c rest) s''; groups := [] |})
           (after_last "}" rest)
    else None.
Proof.
  unfold match_here, brace_span. cbn [cat fold_right rmatch literal].
  rewrite (proj1 (brace_ignores_case c)).
  destruct (Ascii.eqb "{" c); [|reflexivity].
  apply (greedy_to_last
           (fun s'' => {| group0 := consumed (String c rest) s''; groups := [] |})).
Qed.

Lemma match_brace_span_empty prev : match_here brace_span prev EmptyString = None.
Proof. reflexivity. Qed.

Lemma after_last_lacks c s : lacks c s = true -> after_last c s = None.
Proof.
  unfold lacks. induction s as [|x s IH]; [reflexivity|].
  cbn [all_chars after_last]. rewrite andb_true_iff, negb_true_iff.
  intros [Hx Hs]. now rewrite (IH Hs), Hx.
Qed.

Lemma after_last_tail c x s : after_last c (String x s) = None -> after_last c s = None.
Proof. cbn [after_last]. now destruct (after_last c s). Qed.

Lemma after_last_found c mid post :
  lacks c post = true ->
  after_last c (mid ++ String c post)%string = Some post.
Proof.
  intros Hpost. induction mid as [|x mid IH].
  - change (after_last c (String c post) = Some post). cbn [after_last].
    now rewrite (after_last_lacks c post Hpost), Ascii.eqb_refl.
  - rewrite string_app_cons. cbn [after_last]. now rewrite IH.
Qed.

(** No closing brace ahead: the search finds nothing. *)
Lemma search_brace_none s :
  after_last "}" s = None -> forall prev, search_from brace_span prev s = None.
Proof.
  induction s as [|c s IH]; intros Hnone prev; [reflexivity|].
  cbn [search_from]. rewrite match_brace_span.
  rewrite (after_last_tail _ _ _ Hnone). cbn [option_map].
  destruct (Ascii.eqb "{" c); apply IH, (after_last_tail _ _ _ Hnone).
Qed.

(** The search passes over text without an opening brace. *)
Lemma search_brace_skip pre s :
  lacks "{" pre = true ->
  forall prev, exists prev',
    search_from brace_span prev (pre ++ s)%string
    = match s with
      | EmptyString => None
      | String _ _ => search_from brace_span prev' s
      end.
Proof.
  unfold lacks. induction pre as [|c pre IH]; intros Hpre prev.
  - exists prev. change (EmptyString ++ s)%string with s. now destruct s.
  - cbn [all_chars] in Hpre. apply andb_true_iff in Hpre as [Hc Hpre].
    apply negb_true_iff in Hc.
    rewrite string_app_cons. cbn [search_from]. rewrite match_brace_span, Hc.
    destruct (IH Hpre (Some c)) as (prev' & ->). exists prev'.
    destruct s; [|reflexivity].
    reflexivity.
Qed.

Lemma search_brace_found pre mid post :
  lacks "{" pre = true -> lacks "}" post = true ->
  exists m,
    search brace_span (pre ++ "{" ++ mid ++ "}" ++ post)%string = Some m /\
    group0 m = ("{" ++ mid ++ "}")%string.
Proof.
  intros Hpre Hpost. unfold search.
  destruct (search_brace_skip pre ("{" ++ mid ++ "}" ++ post)%string Hpre None)
    as (prev' & ->).
  change ("{" ++ mid ++ "}" ++ post)%string with (String "{" (mid ++ String "}" post)).
  cbn [search_from]. rewrite match_brace_span. cbn [Ascii.eqb Bool.eqb].
  rewrite (after_last_found "}" mid post Hpost). cbn [option_map].
  eexists. split; [reflexivity|]. cbn [group0].
  replace (String "{" (mid ++ String "}" post))
    with (("{" ++ mid ++ "}") ++ post)%string.
  - apply consumed_app.
  - rewrite string_app_cons. change (EmptyString ++ mid ++ "}")%string with (mid ++ "}")%string.
    rewrite string_app_cons. f_equal. rewrite string_app_assoc. reflexivity.
Qed.

Lemma search_brace_absent a b :
  lacks "{" a = true -> lacks "}" b = true ->
  search brace_span (a ++ b)%string = None.
Proof.
  intros Ha Hb. unfold search.
  destruct (search_brace_skip a b Ha None) as (prev' & ->).
  destruct b as [|c b]; [reflexivity|].
  apply search_brace_none, after_last_lacks, Hb.
Qed.

(** X22.  Once the fences are removed and the text stripped,
    [_clean_json_response] returns the part from the first opening brace
    to the last closing brace, dropping what stands before and after; and
    it returns the stripped text as it is when no closing brace follows an
    opening one. *)
Theorem clean_json_takes_outermost_braces text :
  let stripped := strip (remove_fence "```" (remove_fence "```json" text)) in
  (forall pre mid post,
     stripped = (pre ++ "{" ++ mid ++ "}" ++ post)%string ->
     lacks "{" pre = true -> lacks "}" post = true ->
     _clean_json_response text = ("{" ++ mid ++ "}")%string) /\
  (forall a b,
     stripped = (a ++ b)%string ->
     lacks "{" a = true -> lacks "}" b = true ->
     _clean_json_response text = stripped).
Proof.
  cbv zeta. unfold _clean_json_response. split.
  - intros pre mid post -> Hpre Hpost.
    destruct (search_brace_found pre mid post Hpre Hpost) as (m & -> & Hm).
    exact Hm.
  - intros a b -> Ha Hb. now rewrite (search_brace_absent a b Ha Hb).
Qed.

Lemma clean_json_takes_outermost_braces_witness :
  _clean_json_response "Sure! Here it is: {a: {b: 1}} Anything else?"
  = ("{" ++ "a: {b: 1}" ++ "}")%string.
Proof.
  apply (proj1 (clean_json_takes_outermost_braces
                  "Sure! Here it is: {a: {b: 1}} Anything else?")
           "Sure! Here it is: " "a: {b: 1}" " Anything else?");
    reflexivity.
Defined.

(** Text without a backquote goes through the removal of a fence as it
    is. *)
Lemma sub_fence_plain f s rest :
  lacks "`" s = true ->
  sub_fence (String "`" f) 0 false (s ++ rest)
  = (s ++ sub_fence (String "`" f) 0 false rest)%string.
Proof.
  unfold lacks. induction s as [|c s IH]; intros Hs; [reflexivity|].
  cbn [all_chars] in Hs. apply andb_true_iff in Hs as [Hc Hs].
  apply negb_true_iff in Hc.
  rewrite !string_app_cons. cbn [sub_fence andb starts_with].
  rewrite Hc. cbn [andb]. now rewrite (IH Hs).
Qed.

(** The white space after a fence is dropped with it. *)
Lemma sub_fence_eats fence ws rest :
  all_chars is_space ws = true ->
  sub_fence fence 0 true (ws ++ rest) = sub_fence fence 0 true rest.
Proof.
  induction ws as [|c ws IH]; intros Hws; [reflexivity|].
  cbn [all_chars] in Hws. apply andb_true_iff in Hws as [Hc Hws].
  rewrite string_app_cons. cbn [sub_fence andb]. rewrite Hc. now apply IH.
Qed.

(** Where the white space ends, the removal goes on as after plain text. *)
Lemma sub_fence_resume fence c s :
  is_space c = false ->
  sub_fence fence 0 true (String c s) = sub_fence fence 0 false (String c s).
Proof. intros Hc. cbn [sub_fence andb]. now rewrite Hc. Qed.

Lemma sub_fence_skip fence p rest :
  p <> EmptyString ->
  forall eating,
    sub_fence fence (String.length p) eating (p ++ rest)
    = sub_fence fence 0 true rest.
Proof.
  induction p as [|c p IH]; intros Hne eating; [contradiction|].
  rewrite string_app_cons. cbn [String.length sub_fence].
  destruct p as [|c' p]; [reflexivity|]. apply IH. discriminate.
Qed.

Lemma starts_with_app p rest : starts_with p (p ++ rest) = true.
Proof. apply starts_with_spec. now exists rest. Qed.

(** A fence is removed where it stands. *)
Lemma sub_fence_at_fence h t rest eating :
  is_space h = false ->
  sub_fence (String h t) 0 eating (String h t ++ rest)
  = sub_fence (String h t) 0 true rest.
Proof.
  intros Hh. pose proof (starts_with_app (String h t) rest) as Hstart.
  rewrite string_app_cons in *. cbn [sub_fence]. rewrite Hh, andb_false_r, Hstart.
  cbn [String.length]. rewrite Nat.sub_1_r. cbn [Nat.pred].
  destruct t as [|c t]; [reflexivity|]. apply sub_fence_skip. discriminate.
Qed.

Lemma lacks_app c a b : lacks c (a ++ b) = lacks c a && lacks c b.
Proof. apply all_chars_app. Qed.

Lemma sub_fence_plain_all f s :
  lacks "`" s = true -> sub_fence (String "`" f) 0 false s = s.
Proof.
  intros Hs. rewrite <- (string_app_nil s) at 1.
  rewrite (sub_fence_plain f s EmptyString Hs). apply string_app_nil.
Qed.

(** Three backquotes that no [json] follows are not the [```json] fence. *)
Lemma backquotes_kept h tl :
  Ascii.eqb "`" h = false -> Ascii.eqb "j" h = false ->
  sub_fence "```json" 0 false (String "`" (String "`" (String "`" (String h tl))))
  = String "`" (String "`" (String "`" (sub_fence "```json" 0 false (String h tl)))).
Proof.
  intros Hq Hj.
  do 3 (cbn [sub_fence andb starts_with]; rewrite ?Ascii.eqb_refl, ?Hq, ?Hj;
        cbn [andb]).
  reflexivity.
Qed.

Lemma space_lacks_backquote ws : all_chars is_space ws = true -> lacks "`" ws = true.
Proof.
  unfold lacks. apply all_chars_impl. intros c Hc.
  destruct (Ascii.eqb "`" c) eqn:Heq; [|reflexivity].
  apply Ascii.eqb_eq in Heq. subst c. discriminate Hc.
Qed.

Lemma rstrip_spaces ws : all_chars is_space ws = true -> rstrip ws = EmptyString.
Proof.
  induction ws as [|c ws IH]; [reflexivity|].
  cbn [all_chars rstrip]. rewrite andb_true_iff. intros [Hc Hws].
  now rewrite (IH Hws), Hc.
Qed.

(** The text between the fences, for an object without a backquote. *)
Lemma defenced_object mid ws2 :
  lacks "`" mid = true -> all_chars is_space ws2 = true ->
  forall fence_tail removed,
    sub_fence (String "`" fence_tail) 0 false "```" = removed ->
    sub_fence (String "`" fence_tail) 0 false
      ("{" ++ mid ++ "}" ++ ws2 ++ "```")
    = ("{" ++ mid ++ "}" ++ ws2 ++ removed)%string.
Proof.
  intros Hmid Hws fence_tail removed Hend.
  change ("{" ++ mid ++ "}" ++ ws2 ++ "```")%string
    with ("{" ++ (mid ++ ("}" ++ (ws2 ++ "```"))))%string.
  rewrite (sub_fence_plain fence_tail "{") by reflexivity.
  rewrite (sub_fence_plain fence_tail mid) by exact Hmid.
  rewrite (sub_fence_plain fence_tail "}") by reflexivity.
  rewrite (sub_fence_plain fence_tail ws2) by (now apply space_lacks_backquote).
  now rewrite Hend.
Qed.

Lemma strip_object mid ws2 :
  all_chars is_space ws2 = true ->
  strip ("{" ++ mid ++ "}" ++ ws2) = ("{" ++ mid ++ "}")%string.
Proof.
  intros Hws. unfold strip.
  change ("{" ++ mid ++ "}" ++ ws2)%string with (String "{" (mid ++ "}" ++ ws2)).
  cbn [lstrip]. change (is_space "{") with false. cbn iota.
  replace (String "{" (mid ++ "}" ++ ws2)) with ((String "{" mid ++ "}") ++ ws2)%string
    by (rewrite !string_app_cons, string_app_assoc; reflexivity).
  rewrite (rstrip_app_drop _ ws2 (rstrip_spaces ws2 Hws)).
  rewrite (rstrip_app_keep (String "{" mid) "}") by discriminate.
  reflexivity.
Qed.

(** X23.  A JSON object without a backquote, put between a [```json] or
    [```] fence and a closing [```] with white space around it, or given
    bare, comes out of [_clean_json_response] as it is, whatever it holds
    between its braces. *)
Theorem fenced_object_is_unwrapped opener ws1 mid ws2 :
  opener = "```json"%string \/ opener = "```"%string ->
  all_chars is_space ws1 = true -> all_chars is_space ws2 = true ->
  lacks "`" mid = true ->
  _clean_json_response (opener ++ ws1 ++ "{" ++ mid ++ "}" ++ ws2 ++ "```")
  = ("{" ++ mid ++ "}")%string /\
  _clean_json_response ("{" ++ mid ++ "}") = ("{" ++ mid ++ "}")%string.
Proof.
  intros Hopener Hws1 Hws2 Hmid.
  assert (Hfound : forall s, s = ("{" ++ mid ++ "}")%string ->
            match search brace_span s with
            | Some json_match => group0 json_match
            | None => s
            end = ("{" ++ mid ++ "}")%string).
  { intros s ->.
    destruct (search_brace_found EmptyString mid EmptyString eq_refl eq_refl)
      as (m & Hm & Hg).
    change (EmptyString ++ "{" ++ mid ++ "}" ++ EmptyString)%string
      with ("{" ++ mid ++ "}" ++ EmptyString)%string in Hm.
    replace ("{" ++ mid ++ "}" ++ EmptyString)%string
      with ("{" ++ mid ++ "}")%string in Hm
      by (rewrite !string_app_cons; reflexivity).
    now rewrite Hm. }
  pose proof (strip_object mid ws2 Hws2) as Hstrip.
  assert (Hbody : forall fence_tail,
            sub_fence (String "`" fence_tail) 0 true
              (ws1 ++ "{" ++ mid ++ "}" ++ ws2 ++ "```")
            = sub_fence (String "`" fence_tail) 0 false
                ("{" ++ mid ++ "}" ++ ws2 ++ "```")).
  { intros fence_tail. rewrite sub_fence_eats by exact Hws1.
    now apply sub_fence_resume. }
  split.
  - unfold _clean_json_response, remove_fence. apply Hfound.
    destruct Hopener as [-> | ->].
    + rewrite (sub_fence_at_fence "`" "``json") by reflexivity.
      rewrite (Hbody "``json"%string).
      rewrite (defenced_object mid ws2 Hmid Hws2 "``json" "```" eq_refl).
      replace ("{" ++ mid ++ "}" ++ ws2 ++ "```")%string
        with (("{" ++ mid ++ "}" ++ ws2) ++ "```")%string
        by (rewrite !string_app_cons, !string_app_assoc; reflexivity).
      rewrite (sub_fence_plain "``" ("{" ++ mid ++ "}" ++ ws2)).
      * change (sub_fence "```" 0 false "```") with EmptyString.
        rewrite string_app_nil. exact Hstrip.
      * rewrite !lacks_app, Hmid, (space_lacks_backquote ws2 Hws2). reflexivity.
    + assert (Hhead : exists h tl,
                (ws1 ++ "{" ++ mid ++ "}" ++ ws2 ++ "```")%string = String h tl /\
                Ascii.eqb "`" h = false /\ Ascii.eqb "j" h = false).
      { destruct ws1 as [|c ws1].
        - eexists _, _. split; [reflexivity|]. split; reflexivity.
        - cbn [all_chars] in Hws1. apply andb_true_iff in Hws1 as [Hc _].
          exists c, (ws1 ++ "{" ++ mid ++ "}" ++ ws2 ++ "```")%string.
          split; [apply string_app_cons|].
          split; (destruct (Ascii.eqb _ c) eqn:Heq; [|reflexivity]);
            apply Ascii.eqb_eq in Heq; subst c; discriminate Hc. }
      assert (Hfirst :
                sub_fence "```json" 0 false
                  ("```" ++ ws1 ++ "{" ++ mid ++ "}" ++ ws2 ++ "```")
                = ("```" ++ ws1 ++ "{" ++ mid ++ "}" ++ ws2 ++ "```")%string).
      { rewrite !(string_app_cons "`"). 
        change (EmptyString ++ ws1 ++ "{" ++ mid ++ "}" ++ ws2 ++ "```")%string
          with (ws1 ++ "{" ++ mid ++ "}" ++ ws2 ++ "```")%string.
        destruct Hhead as (h & tl & Heq & Hq & Hj).
        assert (Hrest : sub_fence "```json" 0 false
                          (ws1 ++ "{" ++ mid ++ "}" ++ ws2 ++ "```")
                        = (ws1 ++ "{" ++ mid ++ "}" ++ ws2 ++ "```")%string).
        { rewrite (sub_fence_plain "``json" ws1)
            by (now apply space_lacks_backquote).
          now rewrite (defenced_object mid ws2 Hmid Hws2 "``json" "```" eq_refl). }
        rewrite Heq in *.
        rewrite <- Hrest at 2. apply backquotes_kept; assumption. }
      rewrite Hfirst.
      rewrite (sub_fence_at_fence "`" "``") by reflexivity.
      rewrite (Hbody "``"%string).
      rewrite (defenced_object mid ws2 Hmid Hws2 "``" EmptyString eq_refl).
      replace ("{" ++ mid ++ "}" ++ ws2 ++ EmptyString)%string
        with ("{" ++ mid ++ "}" ++ ws2)%string
        by (now rewrite (string_app_nil ws2)).
      exact Hstrip.
  - unfold _clean_json_response, remove_fence. apply Hfound.
    assert (Hplain : lacks "`" ("{" ++ mid ++ "}") = true)
      by (now rewrite !lacks_app, Hmid).
    rewrite (sub_fence_plain_all "``json" _ Hplain).
    rewrite (sub_fence_plain_all "``" _ Hplain).
    pose proof (strip_object mid EmptyString eq_refl) as Hs.
    now rewrite (string_app_nil "}") in Hs.
Qed.

Lemma fenced_object_is_unwrapped_witness :
  _clean_json_response ("```json" ++ " " ++ "{" ++ "a: [1, 2]" ++ "}" ++ " " ++ "```")
  = ("{" ++ "a: [1, 2]" ++ "}")%string /\
  _clean_json_response ("{" ++ "a: [1, 2]" ++ "}") = ("{" ++ "a: [1, 2]" ++ "}")%string.
Proof.
  apply (fenced_object_is_unwrapped "```json" " " "a: [1, 2]" " ").
  - left. reflexivity.
  - reflexivity.
  - reflexivity.
  - reflexivity.
Defined.

End CleanFacts.

(** ** The text of an event's start or end *)
Section EventTimeFacts.
Import Py Spec EventTime Vocabulary.

Lemma lacks_other_way c s :
  lacks c s = all_chars (fun x => negb (Ascii.eqb x c)) s.
Proof.
  unfold lacks. induction s as [|x s IH]; [reflexivity|].
  cbn [all_chars]. now rewrite IH, Ascii.eqb_sym.
Qed.

Lemma ends_with_app c a b :
  b <> EmptyString -> ends_with c (a ++ b) = ends_with c b.
Proof.
  intros Hb. induction a as [|x a IH]; [reflexivity|].
  rewrite string_app_cons. cbn [ends_with]. rewrite <- IH.
  destruct (a ++ b)%string eqn:Hab; [|reflexivity].
  destruct a; [contradiction | discriminate].
Qed.

Lemma drop_last_snoc a c : drop_last (a ++ String c EmptyString) = a.
Proof.
  induction a as [|x a IH]; [reflexivity|].
  rewrite string_app_cons. cbn [drop_last]. rewrite IH.
  destruct (a ++ String c EmptyString)%string eqn:Hab; [|reflexivity].
  destruct a; discriminate.
Qed.

Lemma count_char_app c a b :
  count_char c (a ++ b) = (count_char c a + count_char c b)%nat.
Proof.
  induction a as [|x a IH]; [reflexivity|].
  rewrite string_app_cons. cbn [count_char]. rewrite IH. lia.
Qed.

Lemma lacks_single c s : lacks c s = true -> contains (String c EmptyString) s = false.
Proof. apply contains_without_first. Qed.

Lemma before_last_app sep a b :
  lacks sep b = true -> before_last sep (a ++ String sep b) = a.
Proof.
  intros Hb. induction a as [|x a IH].
  - change (before_last sep (String sep b) = EmptyString). cbn [before_last].
    now rewrite (lacks_single sep b Hb), Ascii.eqb_refl.
  - rewrite string_app_cons. cbn [before_last].
    assert (Hin : contains (String sep EmptyString) (a ++ String sep b) = true).
    { apply contains_spec. now exists a, b. }
    now rewrite Hin, IH.
Qed.

Lemma before_first_app sep a b :
  lacks sep a = true -> before_first sep (a ++ String sep b) = a.
Proof.
  intros Ha. unfold before_first. rewrite split_at_sep; [reflexivity|].
  now rewrite <- lacks_other_way.
Qed.

(** X24.  The timezone of an event's [dateTime] is dropped, not applied:
    for a local text with its two date hyphens and no [+], the same text
    followed by [Z], by [+] and an offset, or by [-] and an offset is read
    as [fromisoformat] reads the local text alone, and so is the local
    text itself. *)
Theorem timezone_suffix_is_dropped fromisoformat naive offset d :
  lacks "+" naive = true -> count_char "-" naive = 2%nat ->
  ends_with "Z" naive = false ->
  lacks "+" offset = true -> lacks "-" offset = true ->
  ends_with "Z" offset = false ->
  let read text :=
    _parse_datetime fromisoformat {| dateTime := Some text; date := d |} in
  read (naive ++ "Z")%string = fromisoformat naive /\
  read (naive ++ "+" ++ offset)%string = fromisoformat naive /\
  read (naive ++ "-" ++ offset)%string = fromisoformat naive /\
  read naive = fromisoformat naive.
Proof.
  intros Hplus Hcount Hz Hoplus Hominus Hoz. cbv zeta.
  unfold _parse_datetime. cbn [dateTime].
  assert (Hend : forall c, Ascii.eqb c "Z" = false ->
            ends_with "Z" (naive ++ String c offset) = false).
  { intros c Hc. rewrite ends_with_app by discriminate.
    cbn [ends_with]. destruct offset; [exact Hc | exact Hoz]. }
  repeat split; f_equal; unfold strip_offset.
  - rewrite ends_with_app by discriminate. cbn [ends_with Ascii.eqb Bool.eqb].
    apply drop_last_snoc.
  - change ("+" ++ offset)%string with (String "+" offset).
    rewrite Hend by reflexivity.
    assert (Hin : contains "+" (naive ++ String "+" offset) = true).
    { apply contains_spec. now exists naive, offset. }
    rewrite Hin. now apply before_first_app.
  - change ("-" ++ offset)%string with (String "-" offset).
    rewrite Hend by reflexivity.
    assert (Hout : contains "+" (naive ++ String "-" offset) = false).
    { apply lacks_single. rewrite lacks_app, Hplus.
      unfold lacks. cbn [all_chars]. fold (lacks "+" offset). now rewrite Hoplus. }
    rewrite Hout, count_char_app, Hcount. cbn [count_char Ascii.eqb Bool.eqb].
    cbn [Nat.add Nat.ltb Nat.leb]. now apply before_last_app.
  - rewrite Hz, (lacks_single "+" naive Hplus), Hcount. reflexivity.
Qed.

Lemma timezone_suffix_is_dropped_witness :
  _parse_datetime (fun text => Some (Z.of_nat (String.length text)))
    {| dateTime := Some ("2024-01-15T10:00:00" ++ "Z")%string; date := None |}
  = Some (Z.of_nat (String.length "2024-01-15T10:00:00")) /\
  _parse_datetime (fun text => Some (Z.of_nat (String.length text)))
    {| dateTime := Some ("2024-01-15T10:00:00" ++ "+" ++ "05:30")%string;
       date := None |}
  = Some (Z.of_nat (String.length "2024-01-15T10:00:00")) /\
  _parse_datetime (fun text => Some (Z.of_nat (String.length text)))
    {| dateTime := Some ("2024-01-15T10:00:00" ++ "-" ++ "05:30")%string;
       date := None |}
  = Some (Z.of_nat (String.length "2024-01-15T10:00:00")) /\
  _parse_datetime (fun text => Some (Z.of_nat (String.length text)))
    {| dateTime := Some "2024-01-15T10:00:00"%string; date := None |}
  = Some (Z.of_nat (String.length "2024-01-15T10:00:00")).
Proof.
  apply (timezone_suffix_is_dropped
           (fun text => Some (Z.of_nat (String.length text)))
           "2024-01-15T10:00:00" "05:30" None);
    reflexivity.
Defined.

End EventTimeFacts.

(** ** Date fragments *)
Section DateFacts.
Import Py Clock Json Agent Spec Vocabulary.

Lemma try_formats_spec env s formats :
  match try_formats env s formats with
  | Some d =>
      exists before fmt after,
        formats = before ++ fmt :: after /\ strptime env s fmt = Some d /\
        forall f, In f before -> strptime env s f = None
  | None => forall f, In f formats -> strptime env s f = None
  end.
Proof.
  induction formats as [|fmt formats IH]; cbn [try_formats].
  - intros f [].
  - destruct (strptime env s fmt) as [d|] eqn:Hfmt.
    + exists [], fmt, formats. repeat split; auto. intros f [].
    + destruct (try_formats env s formats) as [d|].
      * destruct IH as (before & fmt' & after & -> & Hd & Hbefore).
        exists (fmt :: before), fmt', after. repeat split; auto.
        intros f [<-|Hf]; auto.
      * intros f [<-|Hf]; auto.
Qed.

Lemma date_of_shift t k : date_of (t + days k) = date_of t + k.
Proof. unfold date_of, days. apply Z.div_add. discriminate. Qed.

Lemma keyword_nonempty raw keyword :
  strip (lower raw) = keyword -> keyword <> EmptyString -> truthy (JStr raw) = true.
Proof. intros <- Hne. destruct raw; [now contradiction Hne | reflexivity]. Qed.

(** X25.  How a date fragment is read.  The words [today], [tomorrow] and
    [yesterday], in any case and with white space around them, give the day
    of the clock, the next and the previous one, whatever the parsers would
    say.  Any other text is read by the first of the five formats, in the
    order written, that accepts the stripped and lowered text - so a text
    that [%m/%d/%Y] accepts is read month first - and by [dateutil] only
    when all five reject it. *)
Theorem date_fragment_reading_order env raw :
  let s := strip (lower raw) in
  (s = "today"%string ->
   _parse_date_component env (JStr raw) = Some (date_of (now env))) /\
  (s = "tomorrow"%string ->
   _parse_date_component env (JStr raw) = Some (date_of (now env) + 1)) /\
  (s = "yesterday"%string ->
   _parse_date_component env (JStr raw) = Some (date_of (now env) - 1)) /\
  (s <> "today"%string -> s <> "tomorrow"%string -> s <> "yesterday"%string ->
   forall d, _parse_date_component env (JStr raw) = Some d ->
     (exists before fmt after,
        date_formats = before ++ fmt :: after /\ strptime env s fmt = Some d /\
        forall f, In f before -> strptime env s f = None) \/
     ((forall f, In f date_formats -> strptime env s f = None) /\
      dateutil_parse env s = Some d)) /\
  (s <> "today"%string -> s <> "tomorrow"%string -> s <> "yesterday"%string ->
   raw <> EmptyString ->
   forall d, strptime env s "%Y-%m-%d" = None ->
     strptime env s "%m/%d/%Y" = Some d ->
     _parse_date_component env (JStr raw) = Some d).
Proof.
  cbv zeta. unfold _parse_date_component.
  repeat split.
  - intros Hs. rewrite (keyword_nonempty raw _ Hs) by discriminate.
    now rewrite Hs.
  - intros Hs. rewrite (keyword_nonempty raw _ Hs) by discriminate.
    rewrite Hs. cbn. now rewrite date_of_shift.
  - intros Hs. rewrite (keyword_nonempty raw _ Hs) by discriminate.
    rewrite Hs. cbn.
    replace (now env - days 1) with (now env + days (-1))
      by (unfold days; lia).
    now rewrite date_of_shift.
  - intros H1 H2 H3 d.
    apply String.eqb_neq in H1, H2, H3.
    destruct (negb (truthy (JStr raw))); [discriminate|].
    rewrite H1, H2, H3.
    pose proof (try_formats_spec env (strip (lower raw)) date_formats) as Hspec.
    destruct (try_formats env (strip (lower raw)) date_formats) as [d'|].
    + intros [= <-]. now left.
    + intros Hd. right. split; assumption.
  - intros H1 H2 H3 Hraw d Hiso Hus.
    apply String.eqb_neq in H1, H2, H3.
    rewrite truthy_nonempty by exact Hraw. cbn [negb].
    rewrite H1, H2, H3. unfold date_formats. cbn [try_formats].
    now rewrite Hiso, Hus.
Qed.

Lemma date_fragment_reading_order_witness :
  _parse_date_component monday_morning (JStr "  Tomorrow ")
  = Some (date_of (now monday_morning) + 1).
Proof.
  apply (proj1 (proj2 (date_fragment_reading_order monday_morning "  Tomorrow "))).
  reflexivity.
Defined.

End DateFacts.
